(** * Incremental event ingestion and normalisation: a model of
    [pipeline_ingest.py] and of the step-wise DAG in
    [dags/analytics_pipeline_steps.py].

    Scope of the model.
    - Text is a [string] of characters with code points 0..255; Python's
      [str.strip], [str.lower] and [str.splitlines] are modelled on that range.
    - A JSON number is an integer or a float; a float is carried by its
      [repr], and a REAL of the engine by the literal it was read from: the
      engine's arithmetic on doubles is not modelled, and what depends on it
      is a parameter.
    - A JSON object is an association list in the order of the document, with
      the keys distinct (what [json.loads] builds); [dict.get] is the lookup.
    - The [raw_json] column holds [json.dumps(ev)]; the JSON1 functions read
      that text back, so the model stores the tree itself.
    - The [users] and [documents] tables are finite maps from their primary
      key to the other columns, [events] is a map from its UNIQUE [event_id];
      [raw_events] is the list of rows in rowid order, which is the order the
      engine scans it in. Keys are not NULL: the code inserts none.
    - A Python exception is a value of [exn]; a computation on the process
      returns the state it reached together with its result or its exception,
      so that what [except] and [finally] do is explicit.
    - Library and engine functions that the repository calls but does not
      define are parameters of the development (section variables), and so is
      the one choice that the engine documents as open. *)

From Stdlib Require Import ZArith Ascii String DecimalString.
From stdpp Require Import base option list gmap strings fin_maps.

Local Open Scope Z_scope.
Set Warnings "-register-all".

(** ** Exceptions and results *)

Inductive exn : Type :=
| JSONDecodeError
| OSError
| IntegrityError
| OperationalError
| OtherError (name : string).

Inductive result (A : Type) : Type :=
| Ok (a : A)
| Raise (e : exn).
Arguments Ok {A} a.
Arguments Raise {A} e.

#[global] Instance result_ret : MRet result := fun A a => Ok a.

#[global] Instance result_bind : MBind result := fun A B k m =>
  match m with
  | Ok a => k a
  | Raise e => Raise e
  end.

#[global] Instance exn_eq_dec : EqDecision exn.
Proof. solve_decision. Defined.

(** ** Python values that [json.loads] produces *)

(** A Python float: a finite one with its [repr], or one of the three values
    that [json.loads] accepts beyond JSON and [json.dumps] writes as [NaN],
    [Infinity] and [-Infinity]. *)
Inductive pyfloat : Type :=
| Finite (repr : string)
| NaN
| Infinity (negative : bool).

Inductive json : Type :=
| JNull
| JBool (b : bool)
| JNum (z : Z)
| JFloat (f : pyfloat)
| JStr (s : string)
| JArr (items : list json)
| JObj (fields : list (string * json)).

(** A record of an event file: the fields of a JSON object. *)
Abbreviation record := (list (string * json)).

Fixpoint assoc (k : string) (fields : record) : option json :=
  match fields with
  | [] => None
  | (k', v) :: rest => if String.eqb k k' then Some v else assoc k rest
  end.

(** [ev.get(k)]: the value of the key, [None] (here [JNull]) when absent. *)
Definition get (ev : record) (k : string) : json :=
  match assoc k ev with
  | Some v => v
  | None => JNull
  end.

(** Python's truth value of an object. *)
Definition truthy (v : json) : bool :=
  match v with
  | JNull => false
  | JBool b => b
  | JNum z => negb (z =? 0)
  | JFloat (Finite repr) =>
      negb (String.eqb repr "0.0" || String.eqb repr "-0.0")
  | JFloat _ => true
  | JStr s => negb (String.eqb s "")
  | JArr items => match items with [] => false | _ => true end
  | JObj fields => match fields with [] => false | _ => true end
  end.

(** [a or b]: the first operand when it is true, the second otherwise. *)
Definition py_or (a b : json) : json := if truthy a then a else b.

(** ** Characters and strings *)

Definition code (c : ascii) : N := N_of_ascii c.

(** [str.isspace] on one character. *)
Definition is_space (c : ascii) : bool :=
  let n := code c in
  ((9 <=? n) && (n <=? 13) || (28 <=? n) && (n <=? 32)
   || (n =? 133) || (n =? 160))%N.

(** The line boundaries of [str.splitlines]. *)
Definition is_linebreak (c : ascii) : bool :=
  let n := code c in
  ((10 <=? n) && (n <=? 13) || (28 <=? n) && (n <=? 30) || (n =? 133))%N.

Definition lower_char (c : ascii) : ascii :=
  let n := code c in
  if ((65 <=? n) && (n <=? 90)
      || (192 <=? n) && (n <=? 222) && negb (n =? 215))%N
  then ascii_of_N (n + 32) else c.

Fixpoint lower (s : string) : string :=
  match s with
  | EmptyString => EmptyString
  | String c s' => String (lower_char c) (lower s')
  end.

(** An upper-case letter of Latin-1: A to Z, and from capital A with grave to
    capital thorn but for the multiplication sign. *)
Definition is_upper (c : ascii) : bool :=
  let n := code c in
  ((65 <=? n) && (n <=? 90)
   || (192 <=? n) && (n <=? 222) && negb (n =? 215))%N.

(** [t] is [s] in lower case: as long as [s], with each upper-case letter of
    [s] replaced by the letter 32 code points further, and every other
    character kept. *)
Definition lowered (s t : string) : Prop :=
  Forall2 (fun c c' => code c' = if is_upper c then (code c + 32)%N else code c)
    (list_ascii_of_string s) (list_ascii_of_string t).

Fixpoint lstrip (s : string) : string :=
  match s with
  | EmptyString => EmptyString
  | String c s' => if is_space c then lstrip s' else s
  end.

Fixpoint rstrip (s : string) : string :=
  match s with
  | EmptyString => EmptyString
  | String c s' =>
      match rstrip s' with
      | EmptyString => if is_space c then EmptyString else String c EmptyString
      | t => String c t
      end
  end.

(** [s.strip()] *)
Definition strip (s : string) : string := rstrip (lstrip s).

(** [str(z)] for an integer. *)
Definition str_of_Z (z : Z) : string := NilZero.string_of_int (Z.to_int z).

(** [not s] for an [Optional[str]]. *)
Definition is_blank (o : option string) : bool :=
  match o with
  | None => true
  | Some s => String.eqb s ""
  end.

(** A string that is empty or made of white space only. *)
Fixpoint all_space (s : string) : bool :=
  match s with
  | EmptyString => true
  | String c s' => is_space c && all_space s'
  end.

Definition is_object (v : json) : bool :=
  match v with
  | JObj _ => true
  | _ => false
  end.

Definition is_array (v : json) : bool :=
  match v with
  | JArr _ => true
  | _ => false
  end.

(** A field that is missing, empty or made of white space only. *)
Definition missing_or_blank (ev : record) (k : string) : Prop :=
  assoc k ev = None \/
  exists s : string, assoc k ev = Some (JStr s) /\ all_space s = true.

(** ** Paths, the checkpoint file and the store *)

(** A [Path] is identified with its [str()]. *)
Abbreviation path := string.

(** [str.splitlines()]: a line ends at a line boundary, a carriage return
    followed by a line feed is one boundary, and text after the last boundary
    is a last line. [cur] is the line read so far. *)
Fixpoint splitlines_from (cur : string) (s : string) : list string :=
  match s with
  | EmptyString =>
      match cur with
      | EmptyString => []
      | _ => [cur]
      end
  | String c s' =>
      if is_linebreak c then
        cur :: match s' with
               | String c' s'' =>
                   if ((code c =? 13) && (code c' =? 10))%N
                   then splitlines_from EmptyString s''
                   else splitlines_from EmptyString s'
               | EmptyString => []
               end
      else splitlines_from (cur +:+ String c EmptyString) s'
  end.

Definition splitlines (s : string) : list string :=
  splitlines_from EmptyString s.

(** The checkpoint file: absent, or its text. *)
Abbreviation checkpoint := (option string).

(** [load_checkpoint]: the set of lines of the file, empty when the file does
    not exist. The set is kept as the list of lines; only membership is used.
    Reading in text mode turns each carriage return, with or without a line
    feed after it, into a line feed, which leaves the lines the same. *)
Definition load_checkpoint (ck : checkpoint) : list string :=
  match ck with
  | None => []
  | Some txt => splitlines txt
  end.

Definition newline : string := String "010" EmptyString.

(** [save_checkpoint]: open for appending (which creates the file) and write
    each path followed by a newline. *)
Definition save_checkpoint (processed_paths : list string) (ck : checkpoint)
  : checkpoint :=
  Some (foldl (fun txt p => txt +:+ p +:+ newline)
              (default EmptyString ck) processed_paths).

(** What appending to the checkpoint file can end in: the text is written;
    the file cannot be opened, and is as it was; or a write fails when the
    first [n] characters of the text have reached the file. *)
Inductive append_outcome : Type :=
| Appended
| OpenFailed (e : exn)
| WriteFailed (n : nat) (e : exn).

(** The text that [save_checkpoint] appends. *)
Definition checkpoint_text (processed_paths : list string) : string :=
  foldl (fun txt p => txt +:+ p +:+ newline) EmptyString processed_paths.

(** A checkpoint file that only [save_checkpoint] has written. *)
Inductive written : checkpoint -> Prop :=
| written_absent : written None
| written_save (paths : list string) (ck : checkpoint) :
    written ck -> written (save_checkpoint paths ck).

(** A checkpoint file to which [save_checkpoint] has written the path [q],
    in the last call or in an earlier one. *)
Inductive checkpointed (q : string) : checkpoint -> Prop :=
| checkpointed_now (paths : list string) (ck : checkpoint) :
    written ck -> q ∈ paths -> checkpointed q (save_checkpoint paths ck)
| checkpointed_before (paths : list string) (ck : checkpoint) :
    checkpointed q ck -> checkpointed q (save_checkpoint paths ck).

(** A string without a line boundary. *)
Fixpoint no_linebreak (s : string) : bool :=
  match s with
  | EmptyString => true
  | String c s' => negb (is_linebreak c) && no_linebreak s'
  end.

(** The text of a file with these lines. *)
Fixpoint lines_text (lines : list string) : string :=
  match lines with
  | [] => EmptyString
  | l :: rest => l +:+ newline +:+ lines_text rest
  end.

(** ** SQL values *)

(** A REAL is carried by the numeric literal it was read from. *)
Inductive sqlval : Type :=
| VNull
| VInt (z : Z)
| VReal (literal : string)
| VText (s : string).

(** [COALESCE]: the first argument that is not NULL. *)
Fixpoint coalesce (vs : list sqlval) : sqlval :=
  match vs with
  | [] => VNull
  | VNull :: rest => coalesce rest
  | v :: _ => v
  end.

(** The integers of the INTEGER storage class. *)
Definition int64 (z : Z) : bool :=
  (-9223372036854775808 <=? z) && (z <=? 9223372036854775807).

(** A text as a function of the engine reads it, as a C string: up to the
    first character U+0000. *)
Fixpoint c_text (s : string) : string :=
  match s with
  | EmptyString => EmptyString
  | String c s' => if (code c =? 0)%N then EmptyString else String c (c_text s')
  end.

(** [NaN] or [Infinity] somewhere in a tree. *)
Fixpoint has_nonfinite (v : json) : bool :=
  match v with
  | JFloat (Finite _) => false
  | JFloat _ => true
  | JArr items => existsb has_nonfinite items
  | JObj fields => existsb (fun kv => has_nonfinite (snd kv)) fields
  | _ => false
  end.

(** The member of a JSON tree at a path of object keys:
    [json_path j ["document"; "title"]] is [$.document.title]. *)
Fixpoint json_path (j : json) (keys : list string) : option json :=
  match keys with
  | [] => Some j
  | k :: keys' =>
      match j with
      | JObj fields =>
          match assoc k fields with
          | Some v => json_path v keys'
          | None => None
          end
      | _ => None
      end
  end.

(** Binary collation on text: comparison of the code points, a proper prefix
    first. *)
Fixpoint str_leb (a b : string) : bool :=
  match a, b with
  | EmptyString, _ => true
  | String _ _, EmptyString => false
  | String x a', String y b' =>
      if (code x <? code y)%N then true
      else if (code y <? code x)%N then false
      else str_leb a' b'
  end.

(** One step of the [MIN] and [MAX] aggregates over a TEXT column: NULL
    arguments are skipped, and the result is NULL when there was no other. *)
Definition min_step (acc : option string) (v : option string) : option string :=
  match v, acc with
  | None, _ => acc
  | Some s, None => Some s
  | Some s, Some m => if str_leb m s then Some m else Some s
  end.

Definition max_step (acc : option string) (v : option string) : option string :=
  match v, acc with
  | None, _ => acc
  | Some s, None => Some s
  | Some s, Some m => if str_leb s m then Some m else Some s
  end.

Definition sql_min (vs : list (option string)) : option string :=
  foldl min_step None vs.

Definition sql_max (vs : list (option string)) : option string :=
  foldl max_step None vs.

(** ** The engine's date parser, as far as [strftime('%w', ts)] needs it

    A text is read as [YYYY-MM-DD], optionally followed by a time
    [HH:MM], [HH:MM:SS] or [HH:MM:SS.SSS] and a time zone, or as a time alone
    (on 2000-01-01). The day index is that of the Julian day number. The
    engine adds up the fraction of the seconds in doubles: the parser below
    reads a fraction of at most three digits, for which the milliseconds are
    exact, and leaves a longer one to the engine. *)

Definition digit (c : ascii) : option Z :=
  let n := code c in
  if ((48 <=? n) && (n <=? 57))%N then Some (Z.of_N n - 48) else None.

(** The white space of the engine's character table. *)
Definition is_sql_space (c : ascii) : bool :=
  let n := code c in ((9 <=? n) && (n <=? 13) || (n =? 32))%N.

Fixpoint take_digits (n : nat) (acc : Z) (s : string) : option (Z * string) :=
  match n with
  | O => Some (acc, s)
  | S n' =>
      match s with
      | String c s' =>
          match digit c with
          | Some d => take_digits n' (acc * 10 + d) s'
          | None => None
          end
      | EmptyString => None
      end
  end.

(** [n] digits whose value lies in [lo..hi]. *)
Definition field (n : nat) (lo hi : Z) (s : string) : option (Z * string) :=
  match take_digits n 0 s with
  | Some (v, rest) => if (lo <=? v) && (v <=? hi) then Some (v, rest) else None
  | None => None
  end.

Definition expect (c : ascii) (s : string) : option string :=
  match s with
  | String c' s' => if Ascii.eqb c c' then Some s' else None
  | EmptyString => None
  end.

Fixpoint skip_spaces (s : string) : string :=
  match s with
  | String c s' => if is_sql_space c then skip_spaces s' else s
  | EmptyString => EmptyString
  end.

Fixpoint skip_spaces_or_T (s : string) : string :=
  match s with
  | String c s' =>
      if is_sql_space c || Ascii.eqb c "T" then skip_spaces_or_T s' else s
  | EmptyString => EmptyString
  end.

(** The digits of a fraction: its numerator, its scale and the rest. *)
Fixpoint take_fraction (num scale : Z) (s : string) : Z * Z * string :=
  match s with
  | String c s' =>
      match digit c with
      | Some d => take_fraction (num * 10 + d) (scale * 10) s'
      | None => (num, scale, s)
      end
  | EmptyString => (num, scale, s)
  end.

(** The milliseconds of a fraction of at most three digits, and the rest. *)
Definition fraction_ms (frac : string) : option (Z * string) :=
  let '(num, scale, rest) := take_fraction 0 1 frac in
  if scale <=? 1000 then Some (num * (1000 / scale), rest) else None.

Definition at_end (s : string) : bool :=
  match s with
  | EmptyString => true
  | _ => false
  end.

(** [parseTimezone]: the offset in minutes; nothing may follow it. *)
Definition parseTimezone (s : string) : option Z :=
  match skip_spaces s with
  | EmptyString => Some 0
  | String c s' =>
      if Ascii.eqb c "Z" || Ascii.eqb c "z" then
        if at_end (skip_spaces s') then Some 0 else None
      else if Ascii.eqb c "+" || Ascii.eqb c "-" then
        '(hr, s1) ← field 2 0 14 s';
        s2 ← expect ":" s1;
        '(mn, s3) ← field 2 0 59 s2;
        if at_end (skip_spaces s3)
        then Some ((if Ascii.eqb c "-" then -1 else 1) * (mn + hr * 60))
        else None
      else None
  end.

(** A time of day in milliseconds, rounded as the engine rounds the seconds,
    and the time zone. *)
Record time_of_day := { tod_ms : Z; tod_tz : Z }.

Definition parseHhMmSs (s : string) : option time_of_day :=
  '(h, s1) ← field 2 0 24 s;
  s2 ← expect ":" s1;
  '(m, s3) ← field 2 0 59 s2;
  '(sec_ms, s4) ←
    match s3 with
    | String ":" s3' =>
        '(sec, s5) ← field 2 0 59 s3';
        match s5 with
        | String "." (String d _ as frac) =>
            match digit d with
            | Some _ =>
                '(ms, rest) ← fraction_ms frac;
                Some (sec * 1000 + ms, rest)
            | None => Some (sec * 1000, s5)
            end
        | _ => Some (sec * 1000, s5)
        end
    | _ => Some (0, s3)
    end;
  tz ← parseTimezone s4;
  Some {| tod_ms := h * 3600000 + m * 60000 + sec_ms; tod_tz := tz |}.

Record date_time := {
  dt_Y : Z; dt_M : Z; dt_D : Z;
  dt_time : option time_of_day
}.

(** A leading minus sign and what follows it. *)
Definition split_sign (s : string) : bool * string :=
  match s with
  | String "-" s' => (true, s')
  | _ => (false, s)
  end.

Definition parseYyyyMmDd (s : string) : option date_time :=
  let '(neg, s0) := split_sign s in
  '(Y, s1) ← field 4 0 9999 s0;
  s2 ← expect "-" s1;
  '(M, s3) ← field 2 1 12 s2;
  s4 ← expect "-" s3;
  '(D, s5) ← field 2 1 31 s4;
  let rest := skip_spaces_or_T s5 in
  let date t :=
    {| dt_Y := if neg then - Y else Y; dt_M := M; dt_D := D; dt_time := t |} in
  match parseHhMmSs rest with
  | Some t => Some (date (Some t))
  | None => if at_end rest then Some (date None) else None
  end.

(** [computeJD]: the Julian day number in milliseconds, [None] when the year
    is out of range. The divisions are C's. *)
Definition computeJD (d : date_time) : option Z :=
  if (dt_Y d <? -4713) || (9999 <? dt_Y d) then None else
  let '(Y, M) :=
    if dt_M d <=? 2 then (dt_Y d - 1, dt_M d + 12) else (dt_Y d, dt_M d) in
  let A := Z.quot Y 100 in
  let B := 2 - A + Z.quot A 4 in
  let X1 := Z.quot (36525 * (Y + 4716)) 100 in
  let X2 := Z.quot (306001 * (M + 1)) 10000 in
  let day := (2 * (X1 + X2 + dt_D d + B) - 3049) * 43200000 in
  Some match dt_time d with
       | Some t => day + tod_ms t - tod_tz t * 60000
       | None => day
       end.

Definition validJulianDay (iJD : Z) : bool :=
  (0 <=? iJD) && (iJD <=? 464269060799999).

(** The texts read as a date or as a time. *)
Definition parseDateOrTime (s : string) : option date_time :=
  match parseYyyyMmDd s with
  | Some d => Some d
  | None =>
      t ← parseHhMmSs s;
      Some {| dt_Y := 2000; dt_M := 1; dt_D := 1; dt_time := Some t |}
  end.

(** The day index of a parsed date, 0 for Sunday. *)
Definition day_index (d : date_time) : option Z :=
  iJD ← computeJD d;
  if validJulianDay iJD
  then Some (((iJD + 129600000) / 86400000) mod 7)
  else None.

(** The first [n] characters are digits. *)
Fixpoint digits_ahead (n : nat) (s : string) : bool :=
  match n with
  | O => true
  | S n' =>
      match s with
      | String c s' =>
          match digit c with
          | Some _ => digits_ahead n' s'
          | None => false
          end
      | EmptyString => false
      end
  end.

(** A point followed by four digits or more: a text in which the engine may
    meet a fraction of seconds that it rounds in doubles. *)
Fixpoint long_fraction (s : string) : bool :=
  match s with
  | EmptyString => false
  | String c s' => Ascii.eqb c "." && digits_ahead 4 s' || long_fraction s'
  end.

Fixpoint all_chars (f : ascii -> bool) (s : string) : bool :=
  match s with
  | EmptyString => true
  | String c s' => f c && all_chars f s'
  end.

Definition is_digit (c : ascii) : bool :=
  match digit c with
  | Some _ => true
  | None => false
  end.

(** The characters of a text that the engine can read as a number. *)
Definition numeric_char (c : ascii) : bool :=
  is_digit c || is_sql_space c || Ascii.eqb c "+" || Ascii.eqb c "-"
  || Ascii.eqb c "." || Ascii.eqb c "e" || Ascii.eqb c "E".

(** The texts, other than dates and times, for which the engine may still
    have a time value: a number (a Julian day), which has a digit and only
    numeric characters, and the words for the current time, in any case. *)
Definition numeric_or_now (s : string) : bool :=
  all_chars numeric_char s && negb (all_chars (fun c => negb (is_digit c)) s)
  || bool_decide (lower s ∈ ["now"; "subsec"; "subsecond"]).

(** ** Dates written out, and the calendar

    The terms in which the day of the week of an event is stated; the code
    does not have them. *)

(** The character of a digit. *)
Definition digit_char (k : Z) : ascii := ascii_of_N (Z.to_N (48 + k)).

(** A number written with two digits, and with four. *)
Definition two_digits (n : Z) : string :=
  String (digit_char (n / 10)) (String (digit_char (n mod 10)) EmptyString).

Definition four_digits (n : Z) : string :=
  two_digits (n / 100) +:+ two_digits (n mod 100).

(** The text [YYYY-MM-DD] of a date and the text [HH:MM:SS] of a time. *)
Definition date_text (y m d : Z) : string :=
  four_digits y +:+ "-" +:+ two_digits m +:+ "-" +:+ two_digits d.

Definition time_text (h m s : Z) : string :=
  two_digits h +:+ ":" +:+ two_digits m +:+ ":" +:+ two_digits s.

(** The weekday of a date of the Gregorian calendar, 0 for Sunday: from one
    year to the next the weekday moves on by one day, by one more after a
    leap year (each fourth year, but not each hundredth, yet each
    four-hundredth), and within the year by the offset of the month. January
    and February count with the year before. *)
Definition month_offset (m : Z) : Z :=
  match m with
  | 1 => 0 | 2 => 3 | 3 => 2 | 4 => 5 | 5 => 0 | 6 => 3
  | 7 => 5 | 8 => 1 | 9 => 4 | 10 => 6 | 11 => 2 | _ => 4
  end.

Definition weekday_of_date (y m d : Z) : Z :=
  let y' := if m <? 3 then y - 1 else y in
  (y' + y' / 4 - y' / 100 + y' / 400 + month_offset m + d) mod 7.

(** The Julian day number of a date, as [computeJD] adds it up. *)
Definition day_number (y m d : Z) : Z :=
  let y' := if m <=? 2 then y - 1 else y in
  365 * y' + y' / 4 - y' / 100 + y' / 400 + 1722521 +
  (306001 * ((if m <=? 2 then m + 12 else m) + 1)) / 10000 + d.

(** The time of day, in milliseconds, by which a date is moved. *)
Definition day_offset (t : option time_of_day) : Z :=
  match t with
  | Some t => tod_ms t - tod_tz t * 60000
  | None => 0
  end.

(** A character that neither ends a C string nor starts a fraction. *)
Definition plain_char (c : ascii) : bool :=
  negb (code c =? 0)%N && negb (Ascii.eqb c ".").

(** ** Rows, tables and the database *)

Record raw_row := {
  r_event_id : string;
  r_event_type : option string;
  r_event_ts : option string;
  r_user_id : option string;
  r_document_id : option string;
  r_source_file : option string;
  r_raw_json : json
}.

(** A row of [users], without its key [user_id]. *)
Record user_row := {
  first_seen_ts : option string;
  last_seen_ts : option string
}.

(** A row of [documents], without its key [document_id]. *)
Record document_row := {
  title : option string;
  owner_user_id : option string;
  created_ts : option string;
  d_last_seen_ts : option string
}.

(** A row of [events], without its unique [event_id]. *)
Record event_row := {
  event_pk : Z;
  e_event_type : string;
  e_event_ts : option string;
  e_user_id : option string;
  e_document_id : option string;
  day_of_week : option string;
  comment_text : option string;
  shared_with_user_id : option string;
  edit_chars_delta : sqlval;
  e_raw_json : json
}.

(** [events_seq] is the entry of [events] in [sqlite_sequence], which
    AUTOINCREMENT keeps. *)
Record db := {
  raw_events : list raw_row;
  users : gmap string user_row;
  documents : gmap string document_row;
  events : gmap string event_row;
  events_seq : Z
}.

Definition empty_db : db :=
  {| raw_events := []; users := ∅; documents := ∅; events := ∅;
     events_seq := 0 |}.

Definition set_raw_events (raw : list raw_row) (d : db) : db :=
  {| raw_events := raw; users := users d; documents := documents d;
     events := events d; events_seq := events_seq d |}.

Definition set_users (us : gmap string user_row) (d : db) : db :=
  {| raw_events := raw_events d; users := us; documents := documents d;
     events := events d; events_seq := events_seq d |}.

Definition set_documents (ds : gmap string document_row) (d : db) : db :=
  {| raw_events := raw_events d; users := users d; documents := ds;
     events := events d; events_seq := events_seq d |}.

Definition set_events (es : gmap string event_row) (seq : Z) (d : db) : db :=
  {| raw_events := raw_events d; users := users d; documents := documents d;
     events := es; events_seq := seq |}.

(** ** The process: the database file, the open transaction of the
    connection, and the checkpoint file *)

Record world := {
  store : db;
  txn : option db;
  checkpoint_file : checkpoint
}.

(** What the connection reads: its transaction when one is open. *)
Definition view (w : world) : db := default (store w) (txn w).

(** A computation on the process; the state survives an exception. *)
Definition M (A : Type) : Type := world -> world * result A.

#[global] Instance M_ret : MRet M := fun A a w => (w, Ok a).

#[global] Instance M_bind : MBind M := fun A B k m w =>
  match m w with
  | (w', Ok a) => k a w'
  | (w', Raise e) => (w', Raise e)
  end.

Definition lift {A : Type} (r : result A) : M A := fun w => (w, r).

(** [try: body except Exception: handler; raise], then [finally: final]. *)
Definition try_except_reraise_finally {A : Type}
    (body : M A) (handler final : world -> world) : M A := fun w =>
  match body w with
  | (w', Ok a) => (final w', Ok a)
  | (w', Raise e) => (final (handler w'), Raise e)
  end.

(** [con.execute("BEGIN;")] *)
Definition begin_ : M unit := fun w =>
  match txn w with
  | Some _ => (w, Raise OperationalError)
  | None =>
      ({| store := store w; txn := Some (store w);
          checkpoint_file := checkpoint_file w |}, Ok tt)
  end.

(** [con.execute("COMMIT;")] *)
Definition commit : M unit := fun w =>
  match txn w with
  | Some d =>
      ({| store := d; txn := None; checkpoint_file := checkpoint_file w |},
       Ok tt)
  | None => (w, Raise OperationalError)
  end.

(** [con.execute("ROLLBACK;")] *)
Definition rollback : M unit := fun w =>
  match txn w with
  | Some _ =>
      ({| store := store w; txn := None;
          checkpoint_file := checkpoint_file w |}, Ok tt)
  | None => (w, Raise OperationalError)
  end.

(** [try: con.execute("ROLLBACK;") except Exception: pass] *)
Definition rollback_quietly (w : world) : world := fst (rollback w).

(** [connect_db] opens a fresh connection (foreign keys enforced) and
    [con.close()] ends it: a transaction left open is lost. *)
Definition connect_db (w : world) : world :=
  {| store := store w; txn := None; checkpoint_file := checkpoint_file w |}.

Definition close (w : world) : world :=
  {| store := store w; txn := None; checkpoint_file := checkpoint_file w |}.

(** A statement that changes data: the connection opens a transaction when
    none is open, and a statement that fails changes nothing. *)
Definition execute (stmt : db -> result db) : M unit := fun w =>
  match stmt (view w) with
  | Ok d =>
      ({| store := store w; txn := Some d;
          checkpoint_file := checkpoint_file w |}, Ok tt)
  | Raise e =>
      ({| store := store w; txn := Some (view w);
          checkpoint_file := checkpoint_file w |}, Raise e)
  end.

(** [init_schema]: every [CREATE TABLE IF NOT EXISTS]; the tables of the model
    always exist, empty at first. *)
Definition init_schema : M unit := mret tt.

(** ** Inputs of the examples *)

(** The record of the scenario of derived fields. *)
Definition scenario_record : record :=
  [("event_id", JStr "e1"); ("event_type", JStr "Comment");
   ("timestamp", JStr "2024-03-04T10:00:00"); ("user_id", JStr "u1");
   ("document_id", JStr "d1"); ("comment", JObj [("text", JStr "hi")])].

(** A record whose document has an owner that no event makes a user. *)
Definition orphan_record : record :=
  [("event_id", JStr "e9"); ("event_type", JStr "edit");
   ("document_id", JStr "d9"); ("owner_user_id", JStr "u9")].

(** Three events on one document; only the second has a title. *)
Definition titled_records : list record :=
  [[("event_id", JStr "t1"); ("event_type", JStr "view");
    ("timestamp", JStr "2024-01-01"); ("document_id", JStr "d1")];
   [("event_id", JStr "t2"); ("event_type", JStr "rename");
    ("timestamp", JStr "2024-01-02"); ("document_id", JStr "d1");
    ("title", JStr "T")];
   [("event_id", JStr "t3"); ("event_type", JStr "view");
    ("timestamp", JStr "2024-01-03"); ("document_id", JStr "d1")]].

(** Two events on one document. The later one has a title under both
    paths and an owner under two of the three; the earlier one has a title
    under the second path only. *)
Definition owned_records : list record :=
  [[("event_id", JStr "g1"); ("event_type", JStr "view");
    ("timestamp", JStr "2024-02-01"); ("user_id", JStr "u1");
    ("document_id", JStr "d2"); ("title", JStr "Old")];
   [("event_id", JStr "g2"); ("event_type", JStr "rename");
    ("timestamp", JStr "2024-02-02"); ("user_id", JStr "u2");
    ("document_id", JStr "d2"); ("document", JObj [("title", JStr "New")]);
    ("title", JStr "Other"); ("owner_user_id", JStr "u1");
    ("ownerUserId", JStr "u2")]].

(** An event on a document, and an event without a document whose payload
    holds a NaN, which [json.dumps] writes and [json.loads] reads. *)
Definition nan_records : list record :=
  [[("event_id", JStr "n1"); ("event_type", JStr "view");
    ("timestamp", JStr "2024-05-01"); ("user_id", JStr "u1");
    ("document_id", JStr "d1")];
   [("event_id", JStr "n2"); ("event_type", JStr "edit");
    ("edit", JObj [("chars_delta", JFloat NaN)])]].

Definition quoted (s : string) : string :=
  String "034" (s +:+ String "034" EmptyString).

(** The text of a tree as [json.dumps] writes it, for strings that need no
    escape. *)
Fixpoint example_dumps (v : json) : string :=
  match v with
  | JNull => "null"
  | JBool true => "true"
  | JBool false => "false"
  | JNum z => str_of_Z z
  | JFloat (Finite repr) => repr
  | JFloat NaN => "NaN"
  | JFloat (Infinity false) => "Infinity"
  | JFloat (Infinity true) => "-Infinity"
  | JStr s => quoted s
  | JArr items =>
      "[" +:+
      (fix elements (l : list json) : string :=
         match l with
         | [] => ""
         | x :: rest =>
             example_dumps x +:+
             match rest with
             | [] => ""
             | _ => ", " +:+ elements rest
             end
         end) items +:+ "]"
  | JObj fields =>
      "{" +:+
      (fix members (l : list (string * json)) : string :=
         match l with
         | [] => ""
         | (k, x) :: rest =>
             quoted k +:+ ": " +:+ example_dumps x +:+
             match rest with
             | [] => ""
             | _ => ", " +:+ members rest
             end
         end) fields +:+ "}"
  end.

(** The trees of the example files. *)
Definition example_trees : list json :=
  [JObj scenario_record; JObj orphan_record; JArr (JObj <$> titled_records);
   JArr (JObj <$> owned_records); JArr (JObj <$> nan_records)].

(** [json.loads] on the texts of the example files; any other text of the
    examples is not JSON. *)
Definition example_loads (txt : string) : result json :=
  match List.find (fun v => String.eqb (example_dumps v) txt) example_trees with
  | Some v => Ok v
  | None => Raise JSONDecodeError
  end.

(** The files of the examples; a path that is not listed cannot be read. *)
Definition example_files : list (path * string) :=
  [("/data/events/a.json", example_dumps (JObj scenario_record));
   ("/data/events/b.json", example_dumps (JObj orphan_record));
   ("/data/events/c.json", "{");
   ("/data/events/d.json", example_dumps (JArr (JObj <$> titled_records)));
   ("/data/events/e.json", "   ");
   ("/data/events/g.json", example_dumps (JArr (JObj <$> owned_records)));
   ("/data/events/n.json", example_dumps (JArr (JObj <$> nan_records)))].

Definition example_read (p : path) : result string :=
  match List.find (fun f => String.eqb (fst f) p) example_files with
  | Some f => Ok (snd f)
  | None => Raise OSError
  end.

(** The examples use absolute paths without links. No example calls the
    other library functions or reaches the engine's special cases: these are
    placeholders. *)
Definition example_resolve (p : path) : string := p.
Definition example_repr (v : json) : string := "?".
Definition example_text (v : json) : string := "?".
Definition example_affinity (s : string) : sqlval := VText s.
Definition example_strftime (s : string) : option Z := None.
Definition example_real_text (literal : string) : string := literal.
Definition example_affinity_real (literal : string) : sqlval := VReal literal.
Definition example_nonfinite (v : json) (keys : list string) : sqlval := VNull.

(** The checkpoint file of the examples can be written. *)
Definition example_append (ck : checkpoint) (txt : string) : append_outcome :=
  Appended.

(** A file name with a line feed in it. *)
Definition two_line_path : path :=
  "/data/events/a" +:+ newline +:+ "b.json".

(** The raw row of the scenario, as [ingest_raw] stores it. *)
Definition scenario_row : raw_row :=
  {| r_event_id := "e1"; r_event_type := Some "comment";
     r_event_ts := Some "2024-03-04T10:00:00"; r_user_id := Some "u1";
     r_document_id := Some "d1";
     r_source_file := Some "/data/events/a.json";
     r_raw_json := JObj scenario_record |}.

Definition scenario_world : world :=
  {| store := set_raw_events [scenario_row] empty_db; txn := None;
     checkpoint_file := None |}.

(** A raw row of a record that has an [event_id], the type view and at most
    a timestamp. *)
Definition dated_row (id : string) (ts : option string) : raw_row :=
  {| r_event_id := id; r_event_type := Some "view"; r_event_ts := ts;
     r_user_id := None; r_document_id := None;
     r_source_file := Some "/data/events/k.json";
     r_raw_json :=
       JObj ([("event_id", JStr id); ("event_type", JStr "view")] ++
             match ts with
             | Some t => [("timestamp", JStr t)]
             | None => []
             end) |}.

(** Three events: one dated on a Sunday, one whose timestamp is not a date,
    one without a timestamp. *)
Definition calendar_world : world :=
  {| store :=
       set_raw_events [dated_row "k1" (Some "2024-03-03");
                       dated_row "k2" (Some "soon");
                       dated_row "k3" None] empty_db;
     txn := None; checkpoint_file := None |}.

Definition weekday_names : list string :=
  ["Sunday"; "Monday"; "Tuesday"; "Wednesday"; "Thursday"; "Friday";
   "Saturday"].

Definition fresh_world : world :=
  {| store := empty_db; txn := None; checkpoint_file := None |}.

(** ** The pipeline *)

Section Pipeline.

(** [json.loads]: the parsed document, or the exception it raises
    ([JSONDecodeError] for a text that is not JSON). *)
Variable json_loads : string -> result json.

(** [str()] of a list or of a dict. *)
Variable py_repr : json -> string.

(** The text the JSON1 functions return for an array or an object. *)
Variable json_text : json -> string.

(** What an INTEGER column stores for a text value. *)
Variable integer_affinity_text : string -> sqlval.

(** [strftime('%w', ts)] on the texts that the parser of the model leaves to
    the engine: a number (a Julian day), a word for the current time, a text
    with a long fraction of seconds. The day index or NULL. *)
Variable strftime_w_other : string -> option Z.

(** The text of a REAL, as a TEXT column stores it, and what an INTEGER
    column stores for a REAL. *)
Variable real_text : string -> string.
Variable integer_affinity_real : string -> sqlval.

(** The engine on a [raw_json] in which [json.dumps] wrote [NaN] or
    [Infinity]: the JSON1 functions reject the text as malformed JSON, or,
    from version 3.42 of the engine on, read it ([true]); [nonfinite_value]
    is then what [json_extract] gives at a path. *)
Variable reads_nonfinite : bool.
Variable nonfinite_value : json -> list string -> sqlval.

(** Which aggregate of the query of [transform_documents] steers the columns
    that are outside the aggregates: the engine documents that they come from
    a row on which [MIN(event_ts)] ([false]) or [MAX(event_ts)] ([true]) takes
    its value, and leaves the choice open. *)
Variable bare_columns_follow_max : bool.

(** [Path.resolve()] and [Path.read_text(encoding="utf-8", errors="replace")]
    on the file system of the run. *)
Variable resolve : path -> string.
Variable read_text : path -> result string.

(** [open(CHECKPOINT_PATH, "a")] and the writes, on the file system of the
    run, for a file and the text to append. *)
Variable checkpoint_append : checkpoint -> string -> append_outcome.

(** [EVENTS_DIR]: [None] when it does not exist, else
    [sorted(p for p in EVENTS_DIR.rglob("*.json") if p.is_file())]. *)
Variable events_dir : option (list path).

(** *** Reading a file *)

Definition as_dict (v : json) : option record :=
  match v with
  | JObj fields => Some fields
  | _ => None
  end.

Definition read_event_file (p : path) : result (list record) :=
  let body : result (list record) :=
    content ← read_text p;
    let txt := strip content in
    if String.eqb txt "" then Ok []
    else
      obj ← json_loads txt;
      match obj with
      | JObj fields => Ok [fields]
      | JArr items => Ok (omap as_dict items)
      | _ => Ok []
      end in
  match body with
  | Raise JSONDecodeError => Ok []
  | r => r
  end.

(** *** Normalisation helpers *)

(** [str(v)] *)
Definition py_str (v : json) : string :=
  match v with
  | JNull => "None"
  | JBool true => "True"
  | JBool false => "False"
  | JNum z => str_of_Z z
  | JFloat (Finite repr) => repr
  | JFloat NaN => "nan"
  | JFloat (Infinity false) => "inf"
  | JFloat (Infinity true) => "-inf"
  | JStr s => s
  | JArr _ | JObj _ => py_repr v
  end.

Definition to_str (v : json) : option string :=
  match v with
  | JNull => None
  | _ =>
      let s := strip (py_str v) in
      if String.eqb s "" then None else Some s
  end.

Definition timestamp_keys : list string :=
  ["timestamp"; "event_timestamp"; "ts"; "time"].

Fixpoint first_available (event : record) (keys : list string)
  : option string :=
  match keys with
  | [] => None
  | k :: rest =>
      if truthy (get event k) then Some (py_str (get event k))
      else first_available event rest
  end.

Definition parse_timestamp_candidates (event : record) : option string :=
  first_available event timestamp_keys.

(** The timestamp as the specification words it: the value of the first
    alias that is present in the record. *)
Fixpoint first_present (event : record) (keys : list string) : option string :=
  match keys with
  | [] => None
  | k :: rest =>
      match assoc k event with
      | Some v => Some (py_str v)
      | None => first_present event rest
      end
  end.

Definition spec_timestamp (event : record) : option string :=
  first_present event timestamp_keys.

(** *** Discovery *)

Definition find_new_files : M (list path * list string) := fun w =>
  let already := load_checkpoint (checkpoint_file w) in
  match events_dir with
  | None => (w, Ok ([], already))
  | Some all_files =>
      let new_files :=
        filter (fun p => resolve p ∉ already) all_files in
      (w, Ok (new_files, already))
  end.

(** *** Raw ingestion *)

(** [INSERT OR IGNORE INTO raw_events]: a row whose [event_id] is already in
    the table is dropped. *)
Definition has_event_id (id : string) (raw : list raw_row) : bool :=
  existsb (fun r => String.eqb (r_event_id r) id) raw.

Definition insert_or_ignore_raw (row : raw_row) (d : db) : result db :=
  Ok (if has_event_id (r_event_id row) (raw_events d) then d
      else set_raw_events (raw_events d ++ [row]) d).

(** The counters that [ingest_raw] prints for a file. *)
Record counters := {
  inserted_rows : nat;
  skipped_missing_id : nat;
  skipped_missing_type : nat
}.

Definition no_counts : counters :=
  {| inserted_rows := 0; skipped_missing_id := 0; skipped_missing_type := 0 |}.

Record report := {
  rep_file : path;
  rep_events : nat;
  rep_counters : counters
}.

(** The body of [for ev in events]. *)
Definition ingest_event (source_file : string) (ev : record) (c : counters)
  : M counters :=
  let event_id := to_str (get ev "event_id") in
  if is_blank event_id then
    mret {| inserted_rows := inserted_rows c;
            skipped_missing_id := S (skipped_missing_id c);
            skipped_missing_type := skipped_missing_type c |}
  else
    let event_type := to_str (get ev "event_type") in
    if is_blank event_type then
      mret {| inserted_rows := inserted_rows c;
              skipped_missing_id := skipped_missing_id c;
              skipped_missing_type := S (skipped_missing_type c) |}
    else
      let event_type := lower (strip (default "" event_type)) in
      let event_ts := parse_timestamp_candidates ev in
      let user_id :=
        to_str (py_or (get ev "user_id")
                      (py_or (get ev "userId") (get ev "uid"))) in
      let document_id :=
        to_str (py_or (get ev "document_id")
                      (py_or (get ev "documentId") (get ev "doc_id"))) in
      execute (insert_or_ignore_raw
                 {| r_event_id := default "" event_id;
                    r_event_type := Some event_type;
                    r_event_ts := event_ts;
                    r_user_id := user_id;
                    r_document_id := document_id;
                    r_source_file := Some source_file;
                    r_raw_json := JObj ev |});;
      mret {| inserted_rows := S (inserted_rows c);
              skipped_missing_id := skipped_missing_id c;
              skipped_missing_type := skipped_missing_type c |}.

Fixpoint ingest_events (source_file : string) (events : list record)
    (c : counters) : M counters :=
  match events with
  | [] => mret c
  | ev :: rest =>
      c' ← ingest_event source_file ev c;
      ingest_events source_file rest c'
  end.

(** [ingest_raw]: the processed paths, and the line printed for each file. *)
Fixpoint ingest_raw (new_files : list path) : M (list string * list report) :=
  match new_files with
  | [] => mret ([], [])
  | file_path :: rest =>
      let source_file := resolve file_path in
      events ← lift (read_event_file file_path);
      c ← ingest_events source_file events no_counts;
      '(processed, log) ← ingest_raw rest;
      mret (source_file :: processed,
            {| rep_file := file_path; rep_events := length events;
               rep_counters := c |} :: log)
  end.

(** The [event_id] under which a record reaches the [INSERT], if it does. *)
Definition admitted_id (ev : record) : option string :=
  let event_id := to_str (get ev "event_id") in
  if is_blank event_id then None
  else if is_blank (to_str (get ev "event_type")) then None
  else Some (default "" event_id).

(** The database file and the checkpoint are as before, and the connection
    still sees every [event_id] it saw. *)
Definition grows (w w' : world) : Prop :=
  store w' = store w /\ checkpoint_file w' = checkpoint_file w /\
  forall id : string,
    has_event_id id (raw_events (view w)) = true ->
    has_event_id id (raw_events (view w')) = true.

(** *** Transformations *)

(** The distinct values of a column that are not NULL: the groups of
    [GROUP BY], the rows of [SELECT DISTINCT]. *)
Definition keys_of (key : raw_row -> option string) (raw : list raw_row)
  : list string :=
  remove_dups (omap key raw).

Definition group_of (key : raw_row -> option string) (k : string)
    (raw : list raw_row) : list raw_row :=
  filter (fun r => key r = Some k) raw.

(** [INSERT OR IGNORE] of one row into a table with a primary key. *)
Definition insert_or_ignore {V : Type} (k : string) (v : V)
    (m : gmap string V) : gmap string V :=
  match m !! k with
  | Some _ => m
  | None => <[k := v]> m
  end.

(** An immediate foreign key: NULL, or the key of a row of the parent. *)
Definition fk_ok {V : Type} (parent : gmap string V) (child : option string)
  : bool :=
  match child with
  | None => true
  | Some k => bool_decide (is_Some (parent !! k))
  end.

Definition user_of_group (group : list raw_row) : user_row :=
  {| first_seen_ts := sql_min (r_event_ts <$> group);
     last_seen_ts := sql_max (r_event_ts <$> group) |}.

(** [INSERT OR IGNORE INTO users ... GROUP BY user_id] *)
Definition users_insert (d : db) : result db :=
  let raw := raw_events d in
  Ok (set_users
        (foldl (fun us uid =>
                  insert_or_ignore uid
                    (user_of_group (group_of r_user_id uid raw)) us)
               (users d) (keys_of r_user_id raw)) d).

(** The rows of the subqueries of an [UPDATE]: those of the key that have a
    timestamp. *)
Definition dated_rows (key : raw_row -> option string) (k : string)
    (raw : list raw_row) : list raw_row :=
  filter (fun r => key r = Some k ∧ r_event_ts r ≠ None) raw.

(** [UPDATE users SET first_seen_ts = ..., last_seen_ts = ... WHERE user_id IN
    (SELECT DISTINCT user_id ...)] *)
Definition users_update (d : db) : result db :=
  let raw := raw_events d in
  Ok (set_users
        (map_imap (fun uid u =>
           Some (if bool_decide (uid ∈ keys_of r_user_id raw)
                 then user_of_group (dated_rows r_user_id uid raw)
                 else u)) (users d)) d).

Definition transform_users : M unit :=
  execute users_insert;; execute users_update.

(** What a TEXT column stores for a value: numbers become their text.
    [None] is NULL. *)
Definition text_affinity (v : sqlval) : option string :=
  match v with
  | VNull => None
  | VInt z => Some (str_of_Z z)
  | VReal literal => Some (real_text literal)
  | VText s => Some s
  end.

(** The JSON1 functions fail on this [raw_json]. *)
Definition malformed (raw_json : json) : bool :=
  has_nonfinite raw_json && negb reads_nonfinite.

(** [json_extract(raw_json, '$.k1.k2')] on a text that the engine reads: an
    integer beyond 64 bits is a REAL, and a string ends at an escaped
    U+0000. *)
Definition json_extract (raw_json : json) (keys : list string) : sqlval :=
  if has_nonfinite raw_json then nonfinite_value raw_json keys
  else
    match json_path raw_json keys with
    | None | Some JNull => VNull
    | Some (JBool b) => VInt (if b then 1 else 0)
    | Some (JNum z) => if int64 z then VInt z else VReal (str_of_Z z)
    | Some (JFloat (Finite repr)) => VReal repr
    | Some (JFloat _) => VNull
    | Some (JStr s) => VText (c_text s)
    | Some v => VText (json_text v)
    end.

(** The row of a group that gives the columns outside the aggregates. The
    query has [MIN(event_ts)] and [MAX(event_ts)]; the engine reloads those
    columns at each row on which the steering aggregate takes a new value, and
    at each row while no timestamp has been seen. So it is the first row that
    carries the least (or the greatest) timestamp, and the last row of a group
    without timestamps. Rows are taken in table order. *)
Definition load_step (acc : option string * option raw_row) (r : raw_row)
  : option string * option raw_row :=
  match r_event_ts r, fst acc with
  | None, None => (None, Some r)
  | None, Some _ => acc
  | Some t, None => (Some t, Some r)
  | Some t, Some best =>
      if (if bare_columns_follow_max then str_leb t best else str_leb best t)
      then acc
      else (Some t, Some r)
  end.

Definition bare_row (group : list raw_row) : option raw_row :=
  snd (foldl load_step (None, None) group).

Definition title_of (raw_json : json) : option string :=
  text_affinity (coalesce [json_extract raw_json ["document"; "title"];
                           json_extract raw_json ["title"]]).

Definition owner_of (raw_json : json) : option string :=
  text_affinity (coalesce [json_extract raw_json ["document"; "owner_user_id"];
                           json_extract raw_json ["owner_user_id"];
                           json_extract raw_json ["ownerUserId"]]).

(** The [raw_json] from which the expressions outside the aggregates are
    computed for a group. *)
Definition bare_json (group : list raw_row) : json :=
  default JNull (r_raw_json <$> bare_row group).

Definition document_of_group (group : list raw_row) : document_row :=
  let raw_json := bare_json group in
  {| title := title_of raw_json;
     owner_user_id := owner_of raw_json;
     created_ts := sql_min (r_event_ts <$> group);
     d_last_seen_ts := sql_max (r_event_ts <$> group) |}.

(** [INSERT OR IGNORE INTO documents ... GROUP BY document_id]. The [SELECT]
    computes a row for every group, also for a document that has a row
    already, and [json_extract] fails the statement on a [raw_json] that the
    engine cannot read. A row that is inserted with an owner that is not a
    user fails the statement when it ends. *)
Definition documents_unreadable (raw : list raw_row) : bool :=
  existsb (fun k => malformed (bare_json (group_of r_document_id k raw)))
          (keys_of r_document_id raw).

Definition documents_insert (d : db) : result db :=
  let raw := raw_events d in
  let row k := document_of_group (group_of r_document_id k raw) in
  let inserted :=
    filter (fun k => documents d !! k = None) (keys_of r_document_id raw) in
  if documents_unreadable raw then Raise OperationalError
  else if forallb (fun k => fk_ok (users d) (owner_user_id (row k))) inserted
  then Ok (set_documents
             (foldl (fun ds k => insert_or_ignore k (row k) ds)
                    (documents d) (keys_of r_document_id raw)) d)
  else Raise IntegrityError.

(** [UPDATE documents SET last_seen_ts = ...] on one row. *)
Definition refresh_document (raw : list raw_row) (k : string)
    (doc : document_row) : document_row :=
  {| title := title doc;
     owner_user_id := owner_user_id doc;
     created_ts := created_ts doc;
     d_last_seen_ts := sql_max (r_event_ts <$> dated_rows r_document_id k raw) |}.

(** [UPDATE documents SET last_seen_ts = ... WHERE document_id IN ...] *)
Definition documents_update (d : db) : result db :=
  let raw := raw_events d in
  Ok (set_documents
        (map_imap (fun k doc =>
           Some (if bool_decide (k ∈ keys_of r_document_id raw)
                 then refresh_document raw k doc
                 else doc)) (documents d)) d).

Definition transform_documents : M unit :=
  execute documents_insert;; execute documents_update.

(** [strftime('%w', event_ts)] as a number. The engine reads the text as a C
    string. A text that is not a date, a time, a number or a word for the
    current time gives NULL. *)
Definition strftime_w (event_ts : option string) : option Z :=
  ts ← event_ts;
  let z := c_text ts in
  if long_fraction z then strftime_w_other z
  else
    match parseDateOrTime z with
    | Some d => day_index d
    | None => if numeric_or_now z then strftime_w_other z else None
    end.

(** The [CASE] of [day_of_week_expr]: no [WHEN] applies to another value. *)
Definition weekday_name (i : Z) : option string :=
  match i with
  | 0 => Some "Sunday"
  | 1 => Some "Monday"
  | 2 => Some "Tuesday"
  | 3 => Some "Wednesday"
  | 4 => Some "Thursday"
  | 5 => Some "Friday"
  | 6 => Some "Saturday"
  | _ => None
  end.

Definition day_of_week_expr (event_ts : option string) : option string :=
  i ← strftime_w event_ts;
  weekday_name i.

Definition integer_affinity (v : sqlval) : sqlval :=
  match v with
  | VText s => integer_affinity_text s
  | VReal literal => integer_affinity_real literal
  | _ => v
  end.

(** The row that the [SELECT] of [transform_events] builds from a raw row. *)
Definition event_of_raw (pk : Z) (event_type : string) (r : raw_row)
  : event_row :=
  {| event_pk := pk;
     e_event_type := event_type;
     e_event_ts := r_event_ts r;
     e_user_id := r_user_id r;
     e_document_id := r_document_id r;
     day_of_week := day_of_week_expr (r_event_ts r);
     comment_text :=
       text_affinity (coalesce [json_extract (r_raw_json r) ["comment"; "text"];
                                json_extract (r_raw_json r) ["comment_text"]]);
     shared_with_user_id :=
       text_affinity (coalesce [json_extract (r_raw_json r) ["shared_with_user_id"];
                                json_extract (r_raw_json r) ["sharedWithUserId"]]);
     edit_chars_delta :=
       integer_affinity
         (coalesce [json_extract (r_raw_json r) ["edit"; "chars_delta"];
                    json_extract (r_raw_json r) ["edit_chars_delta"]]);
     e_raw_json := r_raw_json r |}.

Definition max_pk (es : gmap string event_row) : Z :=
  map_fold (fun _ e acc => Z.max (event_pk e) acc) 0 es.

(** One row of the [SELECT] reaching the [INSERT OR IGNORE]: a key is drawn
    from the AUTOINCREMENT sequence before the uniqueness of [event_id] is
    looked at, so an ignored row uses one up. The last component stays true
    while the inserted rows satisfy the foreign keys. *)
Definition events_step (d : db)
    (st : gmap string event_row * Z * bool) (r : raw_row)
  : gmap string event_row * Z * bool :=
  match r_event_type r with
  | None => st
  | Some ty =>
      let '(es, seq, ok) := st in
      let pk := Z.max (max_pk es) seq + 1 in
      match es !! r_event_id r with
      | Some _ => (es, pk, ok)
      | None =>
          (<[r_event_id r := event_of_raw pk ty r]> es, pk,
           ok && fk_ok (users d) (r_user_id r)
              && fk_ok (documents d) (r_document_id r))
      end
  end.

(** A row of the [SELECT] of [transform_events] on which [json_extract]
    fails. *)
Definition unreadable (r : raw_row) : bool :=
  match r_event_type r with
  | Some _ => malformed (r_raw_json r)
  | None => false
  end.

(** [INSERT OR IGNORE INTO events ... FROM raw_events r WHERE r.event_type IS
    NOT NULL]. The [SELECT] computes its columns for every row with an event
    type, also for one whose event exists already. *)
Definition events_unreadable (raw : list raw_row) : bool :=
  existsb unreadable raw.

Definition events_insert (d : db) : result db :=
  if events_unreadable (raw_events d) then Raise OperationalError
  else
    let '(es, seq, ok) :=
      foldl (events_step d) (events d, events_seq d, true) (raw_events d) in
    if ok then Ok (set_events es seq d) else Raise IntegrityError.

Definition transform_events : M unit := execute events_insert.

Definition run_transformations : M unit :=
  transform_users;; transform_documents;; transform_events.

(** The five statements of [run_transformations] on the database that the
    connection sees. *)
Definition normalize (d : db) : result db :=
  d1 ← users_insert d;
  d2 ← users_update d1;
  d3 ← documents_insert d2;
  d4 ← documents_update d3;
  events_insert d4.

(** *** The run *)

(** [save_checkpoint] on the file system of the run: when the file cannot be
    opened or a write fails, the exception leaves the function, and the file
    holds what reached it. *)
Definition append_checkpoint (processed_paths : list string)
    (ck : checkpoint) : checkpoint * result unit :=
  match checkpoint_append ck (checkpoint_text processed_paths) with
  | Appended => (save_checkpoint processed_paths ck, Ok tt)
  | OpenFailed e => (ck, Raise e)
  | WriteFailed n e =>
      (Some (default EmptyString ck
             +:+ substring 0 n (checkpoint_text processed_paths)), Raise e)
  end.

Definition save_checkpoint_file (processed_paths : list string) : M unit :=
  fun w =>
    let '(ck, r) := append_checkpoint processed_paths (checkpoint_file w) in
    ({| store := store w; txn := txn w; checkpoint_file := ck |}, r).

(** The four counts that [main] prints. *)
Definition metrics : M (nat * nat * nat * nat) := fun w =>
  let d := view w in
  (w, Ok (length (raw_events d), size (users d), size (documents d),
          size (events d))).

Definition main : M (option (nat * nat * nat * nat)) :=
  '(new_files, _) ← find_new_files;
  match new_files with
  | [] => mret None
  | _ =>
      fun w =>
        try_except_reraise_finally
          (init_schema;;
           begin_;;
           '(processed_paths, _) ← ingest_raw new_files;
           run_transformations;;
           commit;;
           save_checkpoint_file processed_paths;;
           counts ← metrics;
           mret (Some counts))
          rollback_quietly close (connect_db w)
  end.

(** *** The tasks of the DAG, run in sequence; the lists go through XCom *)

Definition task_find_new_files : M (list string) :=
  '(new_files, _) ← find_new_files;
  mret new_files.

Definition task_ingest_raw (new_files_str : list string) : M (list string) :=
  match new_files_str with
  | [] => mret []
  | _ =>
      fun w =>
        try_except_reraise_finally
          (init_schema;;
           begin_;;
           '(processed_paths, _) ← ingest_raw new_files_str;
           commit;;
           mret processed_paths)
          rollback_quietly close (connect_db w)
  end.

Definition task_transform : M unit := fun w =>
  try_except_reraise_finally
    (init_schema;; begin_;; run_transformations;; commit)
    rollback_quietly close (connect_db w).

Definition task_checkpoint (processed_paths : list string) : M unit :=
  match processed_paths with
  | [] => mret tt
  | _ => save_checkpoint_file processed_paths
  end.

(** [find_new_files_task >> ingest_raw_task >> transform_task >>
    checkpoint_task]: a task runs when the one before it succeeded. The one
    retry of a failed task starts from what the failed attempt left, which is
    what it started from, and is not modelled. *)
Definition dag_run : M unit :=
  new_files ← task_find_new_files;
  processed_paths ← task_ingest_raw new_files;
  task_transform;;
  task_checkpoint processed_paths.

(** *** Notions used by the further properties *)

(** A string that [strip] leaves as it is. *)
Definition trimmed (s : string) : Prop := lstrip s = s /\ rstrip s = s.

(** The row [row] is what the body of the loop of [ingest_raw] inserts for the
    record [ev] of the file [source_file]. *)
Definition admitted_as (source_file : string) (ev : record) (row : raw_row)
  : Prop :=
  to_str (get ev "event_id") = Some (r_event_id row) /\
  (exists ty : string,
     to_str (get ev "event_type") = Some ty /\
     r_event_type row = Some (lower (strip ty))) /\
  r_event_ts row = parse_timestamp_candidates ev /\
  r_user_id row =
    to_str (py_or (get ev "user_id") (py_or (get ev "userId") (get ev "uid"))) /\
  r_document_id row =
    to_str (py_or (get ev "document_id")
                  (py_or (get ev "documentId") (get ev "doc_id"))) /\
  r_source_file row = Some source_file /\
  r_raw_json row = JObj ev.

(** What a step of ingestion may do: nothing to the database file and to the
    checkpoint, and in the transaction rows added at the end of [raw_events],
    each satisfying [P] and with an [event_id] that was not in the table. *)
Definition appends (P : raw_row -> Prop) (w w' : world) : Prop :=
  store w' = store w /\ checkpoint_file w' = checkpoint_file w /\
  (is_Some (txn w) -> is_Some (txn w')) /\
  users (view w') = users (view w) /\
  documents (view w') = documents (view w) /\
  events (view w') = events (view w) /\
  events_seq (view w') = events_seq (view w) /\
  (NoDup (r_event_id <$> raw_events (view w)) ->
   NoDup (r_event_id <$> raw_events (view w'))) /\
  exists added : list raw_row,
    raw_events (view w') = raw_events (view w) ++ added /\
    Forall P added.

(** The records that a report accounts for. *)
Definition counted (c : counters) : nat :=
  (inserted_rows c + skipped_missing_id c + skipped_missing_type c)%nat.

(** Every foreign key of [documents] and of [events] points to a row. *)
Definition fk_consistent (d : db) : Prop :=
  (forall k doc, documents d !! k = Some doc ->
                 fk_ok (users d) (owner_user_id doc) = true) /\
  (forall id e, events d !! id = Some e ->
                fk_ok (users d) (e_user_id e) = true /\
                fk_ok (documents d) (e_document_id e) = true).

(** No two rows of [events] have the same [event_pk]. *)
Definition pk_unique (es : gmap string event_row) : Prop :=
  forall id1 id2 e1 e2,
    es !! id1 = Some e1 -> es !! id2 = Some e2 ->
    event_pk e1 = event_pk e2 -> id1 = id2.

(** A document that no row of [documents] holds yet and whose owner, read from
    the row that gives the columns outside the aggregates, is not a user and
    is the [user_id] of no event. *)
Definition orphan_owner (d : db) (k o : string) : Prop :=
  k ∈ keys_of r_document_id (raw_events d) /\
  documents d !! k = None /\
  owner_user_id
    (document_of_group (group_of r_document_id k (raw_events d))) = Some o /\
  users d !! o = None /\
  o ∉ keys_of r_user_id (raw_events d).

(** The least and the greatest timestamp of the rows of a key, in the
    collation of the column; NULL when no row of the key has one. *)
Definition earliest (key : raw_row -> option string) (k : string)
    (raw : list raw_row) (m : option string) : Prop :=
  match m with
  | Some f =>
      (exists r, r ∈ raw /\ key r = Some k /\ r_event_ts r = Some f) /\
      forall r t, r ∈ raw -> key r = Some k -> r_event_ts r = Some t ->
                  str_leb f t = true
  | None => forall r, r ∈ raw -> key r = Some k -> r_event_ts r = None
  end.

Definition latest (key : raw_row -> option string) (k : string)
    (raw : list raw_row) (m : option string) : Prop :=
  match m with
  | Some l =>
      (exists r, r ∈ raw /\ key r = Some k /\ r_event_ts r = Some l) /\
      forall r t, r ∈ raw -> key r = Some k -> r_event_ts r = Some t ->
                  str_leb t l = true
  | None => forall r, r ∈ raw -> key r = Some k -> r_event_ts r = None
  end.

(** Every row of [events] is the image of a row of [raw_events] with the same
    [event_id]. *)
Definition events_from_raw (d : db) : Prop :=
  forall id e, events d !! id = Some e ->
    exists r ty,
      r ∈ raw_events d /\ r_event_id r = id /\ r_event_type r = Some ty /\
      e = event_of_raw (event_pk e) ty r.

(** What the pipeline keeps of a database that only it writes: no two rows
    of [raw_events] share an [event_id] and each has an event type, the
    foreign keys hold, the keys of [events] are distinct, and every event is
    the image of a raw row. *)
Definition well_formed (d : db) : Prop :=
  NoDup (r_event_id <$> raw_events d) /\
  Forall (fun r => is_Some (r_event_type r)) (raw_events d) /\
  fk_consistent d /\ pk_unique (events d) /\ events_from_raw d.

(** ** Properties *)

Ltac run :=
  unfold mbind, M_bind, mret, M_ret, lift in *; simpl in *.

Ltac simpl_view :=
  repeat match goal with
         | |- context [view (Build_world ?s (Some ?d) ?c)] =>
             change (view (Build_world s (Some d) c)) with d
         end.

(** *** The timestamp of a record *)

Lemma first_available_Some (event : record) (keys : list string) (ts : string) :
  first_available event keys = Some ts <->
  exists (i : nat) (k : string),
    keys !! i = Some k /\ truthy (get event k) = true /\
    ts = py_str (get event k) /\
    forall (j : nat) (k' : string),
      (j < i)%nat -> keys !! j = Some k' -> truthy (get event k') = false.
Proof.
  induction keys as [|k0 keys IH]; simpl.
  - split; [discriminate|]. intros (i & k & Hk & _). by destruct i.
  - destruct (truthy (get event k0)) eqn:Ht.
    + split.
      * intros [= <-]. exists 0%nat, k0. repeat split; try done. lia.
      * intros (i & k & Hk & Htk & -> & Hlt). destruct i as [|i].
        { by injection Hk as ->. }
        specialize (Hlt 0%nat k0 ltac:(lia) eq_refl). congruence.
    + rewrite IH. split.
      * intros (i & k & Hk & Htk & -> & Hlt). exists (S i), k.
        repeat split; try done. intros [|j] k' Hj Hk'.
        { by injection Hk' as <-. }
        apply (Hlt j); [lia|done].
      * intros (i & k & Hk & Htk & -> & Hlt). destruct i as [|i].
        { injection Hk as ->. congruence. }
        exists i, k. repeat split; try done. intros j k' Hj Hk'.
        apply (Hlt (S j)); [lia|done].
Qed.

Lemma first_available_None (event : record) (keys : list string) :
  first_available event keys = None <->
  forall k : string, k ∈ keys -> truthy (get event k) = false.
Proof.
  induction keys as [|k0 keys IH]; simpl.
  - split; [|done]. intros _ k Hk. by apply not_elem_of_nil in Hk.
  - destruct (truthy (get event k0)) eqn:Ht.
    + split; [discriminate|]. intros H.
      specialize (H k0 ltac:(left)). congruence.
    + rewrite IH. split.
      * intros H k [->|Hk]%elem_of_cons; auto.
      * intros H k Hk. apply H. by right.
Qed.

(** C6, as amended: the timestamp of a record is [str()] of the value of the
    first alias, in the order timestamp, event_timestamp, ts, time, whose
    value is true for Python (present and not null, false, zero or empty);
    it is null exactly when no alias has such a value. *)
Theorem parse_timestamp_candidates_first_truthy (event : record) :
  (forall ts : string,
     parse_timestamp_candidates event = Some ts <->
     exists (i : nat) (k : string),
       timestamp_keys !! i = Some k /\ truthy (get event k) = true /\
       ts = py_str (get event k) /\
       forall (j : nat) (k' : string),
         (j < i)%nat -> timestamp_keys !! j = Some k' ->
         truthy (get event k') = false) /\
  (parse_timestamp_candidates event = None <->
   forall k : string, k ∈ timestamp_keys -> truthy (get event k) = false).
Proof.
  split.
  - intros ts. apply first_available_Some.
  - apply first_available_None.
Qed.

(** *** Admission of a record *)

Lemma lstrip_all_space (s : string) : all_space s = true -> lstrip s = "".
Proof.
  induction s as [|c s IH]; simpl; [done|].
  intros [Hc Hs]%andb_true_iff. rewrite Hc. auto.
Qed.

Lemma strip_all_space (s : string) : all_space s = true -> strip s = "".
Proof. intros H. unfold strip. by rewrite lstrip_all_space. Qed.

Lemma to_str_missing_or_blank (ev : record) (k : string) :
  missing_or_blank ev k -> to_str (get ev k) = None.
Proof.
  unfold get. intros [-> | (s & -> & Hs)]; [done|].
  simpl. by rewrite strip_all_space.
Qed.

Lemma to_str_not_blank (v : json) (s : string) :
  to_str v = Some s -> is_blank (Some s) = false.
Proof.
  unfold to_str. simpl.
  destruct v; try discriminate;
    (destruct (String.eqb (strip _) "") eqn:E; [discriminate|];
     intros [= <-]; exact E).
Qed.

Lemma lower_char_idemp (c : ascii) : lower_char (lower_char c) = lower_char c.
Proof. destruct c as [[] [] [] [] [] [] [] []]; reflexivity. Qed.

Lemma lower_idemp (s : string) : lower (lower s) = lower s.
Proof.
  induction s as [|c s IH]; simpl; [done|].
  by rewrite lower_char_idemp, IH.
Qed.

(** *** Reading a file *)

Lemma omap_as_dict (items : list json) :
  JObj <$> omap as_dict items = List.filter is_object items.
Proof.
  induction items as [|v items IH]; simpl; [done|].
  destruct v; simpl; try done. f_equal. exact IH.
Qed.

(** C9: the records of a file that can be read: none when the trimmed
    content is empty, the object when the content is one JSON object, the
    elements that are objects when it is a JSON array, none when it is another
    JSON value or not JSON; no exception in any of these cases. *)
Theorem read_event_file_cases (p : path) (content : string) :
  read_text p = Ok content ->
  (strip content = "" -> read_event_file p = Ok []) /\
  (forall fields : record,
     strip content <> "" -> json_loads (strip content) = Ok (JObj fields) ->
     read_event_file p = Ok [fields]) /\
  (forall items : list json,
     strip content <> "" -> json_loads (strip content) = Ok (JArr items) ->
     exists l : list record,
       read_event_file p = Ok l /\
       JObj <$> l = List.filter is_object items) /\
  (forall v : json,
     json_loads (strip content) = Ok v ->
     is_object v = false -> is_array v = false ->
     read_event_file p = Ok []) /\
  (json_loads (strip content) = Raise JSONDecodeError ->
   read_event_file p = Ok []).
Proof.
  intros Hread. unfold read_event_file. rewrite Hread. simpl.
  destruct (String.eqb_spec (strip content) "") as [He|Hne].
  - repeat split; done.
  - repeat split; try done.
    + intros fields _ ->. done.
    + intros items _ ->. simpl. eexists. split; [done|]. apply omap_as_dict.
    + intros v -> Ho Ha. by destruct v.
    + intros ->. done.
Qed.

(** *** Ingesting twice *)

Lemma grows_refl (w : world) : grows w w.
Proof. by repeat split. Qed.

Lemma grows_trans (w1 w2 w3 : world) : grows w1 w2 -> grows w2 w3 -> grows w1 w3.
Proof.
  intros (Hs1 & Hc1 & Hi1) (Hs2 & Hc2 & Hi2).
  repeat split; [congruence|congruence|auto].
Qed.

Lemma has_event_id_app (id : string) (raw1 raw2 : list raw_row) :
  has_event_id id (raw1 ++ raw2) =
  has_event_id id raw1 || has_event_id id raw2.
Proof. unfold has_event_id. apply existsb_app. Qed.

Lemma ingest_event_ok (source_file : string) (ev : record) (c : counters)
    (w : world) :
  exists (w' : world) (c' : counters),
    ingest_event source_file ev c w = (w', Ok c') /\
    grows w w' /\
    (forall id, admitted_id ev = Some id ->
       has_event_id id (raw_events (view w')) = true) /\
    (forall w2, exists w2', ingest_event source_file ev c w2 = (w2', Ok c')) /\
    ((forall id, admitted_id ev = Some id ->
        has_event_id id (raw_events (view w)) = true) ->
     view w' = view w).
Proof.
  unfold ingest_event, admitted_id. run.
  destruct (is_blank (to_str (get ev "event_id"))).
  { eexists _, _. split; [reflexivity|].
    split_and!; [apply grows_refl | intros ? [=] | eauto | done]. }
  destruct (is_blank (to_str (get ev "event_type"))); simpl.
  { eexists _, _. split; [reflexivity|].
    split_and!; [apply grows_refl | intros ? [=] | eauto | done]. }
  unfold execute, insert_or_ignore_raw. simpl.
  eexists _, _. split; [reflexivity|]. split_and!.
  - repeat split; simpl. intros id Hid. simpl_view.
    destruct (has_event_id (default "" _) (raw_events (view w))); [done|].
    simpl. rewrite has_event_id_app, Hid. done.
  - intros id [= <-]. simpl_view.
    destruct (has_event_id (default "" _) (raw_events (view w))) eqn:E;
      [done|].
    simpl. rewrite has_event_id_app. simpl.
    rewrite String.eqb_refl. by rewrite orb_true_r.
  - intros w2. eauto.
  - intros H. simpl_view. by rewrite (H _ eq_refl).
Qed.

Lemma ingest_events_ok (source_file : string) (events : list record)
    (c : counters) (w : world) :
  exists (w' : world) (c' : counters),
    ingest_events source_file events c w = (w', Ok c') /\
    grows w w' /\
    (forall id, id ∈ omap admitted_id events ->
       has_event_id id (raw_events (view w')) = true) /\
    (forall w2, exists w2',
       ingest_events source_file events c w2 = (w2', Ok c')) /\
    ((forall id, id ∈ omap admitted_id events ->
        has_event_id id (raw_events (view w)) = true) ->
     view w' = view w).
Proof.
  revert c w. induction events as [|ev events IH]; intros c w; simpl.
  - eexists _, _. split; [reflexivity|].
    split_and!; eauto using grows_refl.
    intros id Hid. by apply not_elem_of_nil in Hid.
  - run.
    destruct (ingest_event_ok source_file ev c w)
      as (w1 & c1 & -> & Hg1 & Hin1 & Hind1 & Hsame1).
    destruct (IH c1 w1) as (w2 & c2 & -> & Hg2 & Hin2 & Hind2 & Hsame2).
    eexists _, _. split; [reflexivity|]. split_and!.
    + eauto using grows_trans.
    + intros id Hid. destruct (admitted_id ev) as [id0|] eqn:E; simpl in Hid.
      * apply elem_of_cons in Hid as [->|Hid]; [|by auto].
        destruct Hg2 as (_ & _ & Hmono). apply Hmono. by apply Hin1.
      * by auto.
    + intros w3. destruct (Hind1 w3) as (w3' & ->).
      destruct (Hind2 w3') as (w3'' & ->). eauto.
    + intros H.
      assert (E1 : view w1 = view w).
      { apply Hsame1. intros id Hid. apply H. rewrite Hid. simpl. by left. }
      rewrite <- E1. apply Hsame2. intros id Hid. rewrite E1. apply H.
      destruct (admitted_id ev); simpl; [by right|done].
Qed.

Lemma ingest_raw_grows (files : list path) (w w' : world)
    (r : result (list string * list report)) :
  ingest_raw files w = (w', r) -> grows w w'.
Proof.
  revert w w' r. induction files as [|f files IH]; intros w w' r; simpl; run.
  - intros [= <- _]. apply grows_refl.
  - destruct (read_event_file f) as [events|e].
    2:{ intros [= <- _]. apply grows_refl. }
    destruct (ingest_events_ok (resolve f) events no_counts w)
      as (w1 & c1 & -> & Hg1 & _).
    destruct (ingest_raw files w1) as [w2 r2] eqn:E. apply IH in E.
    destruct r2 as [[processed log]|e]; intros [= <- _];
      eapply grows_trans; eassumption.
Qed.

Lemma ingest_raw_again (files : list path) (w0 w0' w : world)
    (r : result (list string * list report)) :
  ingest_raw files w0 = (w0', r) ->
  (forall id, has_event_id id (raw_events (view w0')) = true ->
              has_event_id id (raw_events (view w)) = true) ->
  exists w', ingest_raw files w = (w', r) /\ view w' = view w.
Proof.
  revert w0 w0' w r.
  induction files as [|f files IH]; intros w0 w0' w r; simpl; run.
  - intros [= _ <-] _. eauto.
  - destruct (read_event_file f) as [events|e] eqn:Hf.
    2:{ intros [= _ <-] _. eauto. }
    destruct (ingest_events_ok (resolve f) events no_counts w0)
      as (w1 & c1 & -> & _ & Hin1 & Hind & _).
    destruct (ingest_raw files w1) as [w2 r2] eqn:E.
    destruct (ingest_raw_grows _ _ _ _ E) as (_ & _ & Hmono).
    intros Hr Hsees.
    assert (Hw2 : w0' = w2) by (destruct r2 as [[? ?]|?]; congruence).
    subst w0'.
    destruct (ingest_events_ok (resolve f) events no_counts w)
      as (w3 & c3 & Hrun & _ & _ & _ & Hsame).
    destruct (Hind w) as (w3' & Hrun'). rewrite Hrun' in Hrun.
    injection Hrun as -> ->. rewrite Hrun'.
    assert (Hv : view w3 = view w).
    { apply Hsame. intros id Hid. auto. }
    destruct (IH w1 w2 w3 r2 E) as (w4 & -> & Hv4).
    { intros id Hid. rewrite Hv. auto. }
    destruct r2 as [[processed log]|e2]; injection Hr as <-;
      (eexists; split; [reflexivity|congruence]).
Qed.

(** C3: ingesting the same files again ends as the first ingestion ended,
    with the same report when that was not an exception, and leaves
    [raw_events] as the first ingestion left it: the same rows, so the same
    number of rows. *)
Theorem ingest_raw_idempotent (files : list path) (w w1 w1' : world)
    (r : result (list string * list report)) :
  ingest_raw files w = (w1, r) ->
  view w1' = view w1 ->
  exists w2 : world,
    ingest_raw files w1' = (w2, r) /\
    raw_events (view w2) = raw_events (view w1) /\
    length (raw_events (view w2)) = length (raw_events (view w1)).
Proof.
  intros Hrun Hview.
  destruct (ingest_raw_again files w w1 w1' r Hrun) as (w2 & Hrun2 & Hv).
  { intros id. by rewrite Hview. }
  exists w2. split; [done|]. rewrite Hv, Hview. done.
Qed.

(** C10: an error of the file system on reading a file is not caught by
    [read_event_file], which catches the JSON decoding error only; and a run
    of [ingest_raw] over files of which one cannot be read ends with an
    exception, the one of that file when the files before it can be read, and
    nothing of it is committed. *)
Theorem unreadable_file_aborts_ingest (p : path) (e : exn) :
  read_text p = Raise e -> e <> JSONDecodeError ->
  read_event_file p = Raise e /\
  (forall (files : list path) (w : world),
     p ∈ files -> exists (w' : world) (e' : exn),
       ingest_raw files w = (w', Raise e') /\ store w' = store w) /\
  (forall (before after : list path) (w : world),
     (forall f, f ∈ before -> exists events, read_event_file f = Ok events) ->
     exists w' : world, ingest_raw (before ++ p :: after) w = (w', Raise e)).
Proof.
  intros Hread Hne.
  assert (Hp : read_event_file p = Raise e).
  { unfold read_event_file. rewrite Hread. simpl. by destruct e. }
  split; [done|]. split.
  - intros files w Hin.
    assert (Hraise : exists w' e', ingest_raw files w = (w', Raise e')).
    { revert w. induction files as [|f files IH]; intros w.
      - by apply not_elem_of_nil in Hin.
      - simpl. run.
        destruct (decide (f = p)) as [->|Hfp].
        + rewrite Hp. eauto.
        + assert (Hin' : p ∈ files).
          { apply elem_of_cons in Hin as [->|]; [done|done]. }
          destruct (read_event_file f) as [events|e0]; [|eauto].
          destruct (ingest_events _ events no_counts w) as [w1 [c1|e1]];
            [|eauto].
          destruct (IH Hin' w1) as (w2 & e2 & ->). eauto. }
    destruct Hraise as (w' & e' & Hrun). exists w', e'. split; [done|].
    by apply ingest_raw_grows in Hrun as (? & _).
  - intros before after. induction before as [|f before IH]; intros w Hok.
    + simpl. run. rewrite Hp. eauto.
    + simpl. run.
      destruct (Hok f ltac:(left)) as (events & ->).
      destruct (ingest_events_ok (resolve f) events no_counts w)
        as (w1 & c1 & -> & _).
      destruct (IH w1) as (w2 & ->).
      { intros f' Hf'. apply Hok. by right. }
      eauto.
Qed.

(** *** The checkpoint *)

Lemma app_cons (c : ascii) (s t : string) :
  String c s +:+ t = String c (s +:+ t).
Proof. reflexivity. Qed.

Lemma app_nil_r (s : string) : s +:+ "" = s.
Proof. induction s as [|c s IH]; [done|]. by rewrite app_cons, IH. Qed.

Lemma app_assoc (s t u : string) : (s +:+ t) +:+ u = s +:+ (t +:+ u).
Proof. induction s as [|c s IH]; [done|]. by rewrite !app_cons, IH. Qed.

Lemma splitlines_from_line (q cur rest : string) :
  no_linebreak q = true ->
  splitlines_from cur (q +:+ newline +:+ rest) =
  (cur +:+ q) :: splitlines_from "" rest.
Proof.
  revert cur. induction q as [|c q IH]; intros cur Hq.
  - rewrite app_nil_r. change ("" +:+ newline +:+ rest) with (String "010" rest).
    simpl. by destruct rest.
  - simpl in Hq. apply andb_true_iff in Hq as [Hc Hq].
    apply negb_true_iff in Hc. rewrite app_cons. simpl. rewrite Hc.
    rewrite IH by done. by rewrite app_assoc.
Qed.

Lemma splitlines_from_terminated (n : nat) (a cur b : string) :
  (String.length a <= n)%nat ->
  splitlines_from cur (a +:+ newline +:+ b) =
  splitlines_from cur (a +:+ newline) ++ splitlines_from "" b.
Proof.
  revert a cur. induction n as [|n IH]; intros a cur Hn.
  - destruct a; [|simpl in Hn; lia].
    change ("" +:+ newline +:+ b) with (String "010" b).
    simpl. by destruct b.
  - destruct a as [|c a].
    { change ("" +:+ newline +:+ b) with (String "010" b).
      simpl. by destruct b. }
    simpl in Hn. rewrite !app_cons. simpl.
    destruct (is_linebreak c) eqn:Hc.
    + destruct a as [|c' a].
      * change ("" +:+ newline +:+ b) with (String "010" b).
        change ("" +:+ newline) with (String "010" "").
        simpl. destruct (code c =? 13)%N; simpl; by destruct b.
      * simpl in Hn. rewrite !app_cons.
        destruct ((code c =? 13)%N && (code c' =? 10)%N).
        -- rewrite IH by lia. done.
        -- rewrite <- !app_cons. rewrite IH by (simpl; lia). done.
    + apply IH. lia.
Qed.

Lemma splitlines_lines_text_app (lines : list string) (rest : string) :
  splitlines (lines_text lines +:+ rest) =
  splitlines (lines_text lines) ++ splitlines rest.
Proof.
  unfold splitlines. induction lines as [|l lines IH]; simpl; [done|].
  rewrite !app_assoc.
  rewrite (splitlines_from_terminated (String.length l)) by lia.
  rewrite (splitlines_from_terminated (String.length l) _ _ (lines_text lines))
    by lia.
  by rewrite IH, <- (assoc_L (++)).
Qed.

Lemma lines_text_app (l1 l2 : list string) :
  lines_text (l1 ++ l2) = lines_text l1 +:+ lines_text l2.
Proof.
  induction l1 as [|l l1 IH]; simpl; [done|]. by rewrite IH, !app_assoc.
Qed.

Lemma save_checkpoint_text (paths : list string) (base : string) :
  foldl (fun txt p => txt +:+ p +:+ newline) base paths =
  base +:+ lines_text paths.
Proof.
  revert base. induction paths as [|p paths IH]; intros base; simpl.
  - by rewrite app_nil_r.
  - by rewrite IH, !app_assoc.
Qed.

Lemma written_lines (ck : checkpoint) :
  written ck -> exists lines, default "" ck = lines_text lines.
Proof.
  induction 1 as [|paths ck _ (lines & IH)].
  - by exists [].
  - exists (lines ++ paths). simpl.
    by rewrite save_checkpoint_text, IH, lines_text_app.
Qed.

Lemma checkpointed_lines (q : string) (ck : checkpoint) :
  checkpointed q ck ->
  exists lines, ck = Some (lines_text lines) /\ q ∈ lines.
Proof.
  induction 1 as [paths ck Hw Hq|paths ck _ (lines & -> & Hq)].
  - destruct (written_lines ck Hw) as (lines & E).
    exists (lines ++ paths). unfold save_checkpoint.
    rewrite save_checkpoint_text, E, lines_text_app.
    split; [done|]. apply elem_of_app. by right.
  - exists (lines ++ paths). unfold save_checkpoint. simpl.
    rewrite save_checkpoint_text, lines_text_app.
    split; [done|]. apply elem_of_app. by left.
Qed.

Lemma elem_of_splitlines_lines_text (q : string) (lines : list string) :
  q ∈ lines -> no_linebreak q = true -> q ∈ splitlines (lines_text lines).
Proof.
  intros (l1 & l2 & ->)%list_elem_of_split Hq.
  rewrite lines_text_app, splitlines_lines_text_app.
  apply elem_of_app. right. simpl. unfold splitlines.
  rewrite splitlines_from_line by done. by left.
Qed.

Lemma ingest_raw_processed (files : list path) (w w' : world)
    (processed : list string) (log : list report) :
  ingest_raw files w = (w', Ok (processed, log)) ->
  processed = resolve <$> files.
Proof.
  revert w w' processed log.
  induction files as [|f files IH]; intros w w' processed log; simpl; run.
  - by intros [= _ <- _].
  - destruct (read_event_file f) as [events|e]; [|discriminate].
    destruct (ingest_events _ events no_counts w) as [w1 [c1|e1]];
      [|discriminate].
    destruct (ingest_raw files w1) as [w2 [[processed' log']|e2]] eqn:E;
      [|discriminate].
    intros [= _ <- _]. cbn. f_equal. eapply IH. exact E.
Qed.

(** C4, as amended: the paths that [ingest_raw] hands over for the
    checkpoint are the resolved paths of its files; and a file whose resolved
    path has no line boundary in it and has been written to the checkpoint by
    [save_checkpoint], on a checkpoint file that only [save_checkpoint]
    writes, is not among the new files that [find_new_files] returns, which
    looks for the resolved path among the lines of the checkpoint. *)
Theorem checkpointed_file_not_reselected :
  (forall (files : list path) (w w' : world) (processed : list string)
          (log : list report),
     ingest_raw files w = (w', Ok (processed, log)) ->
     processed = resolve <$> files) /\
  (forall (p : path) (w : world),
     checkpointed (resolve p) (checkpoint_file w) ->
     no_linebreak (resolve p) = true ->
     exists (new_files : list path) (already : list string),
       find_new_files w = (w, Ok (new_files, already)) /\
       resolve p ∈ already /\ p ∉ new_files).
Proof.
  split; [apply ingest_raw_processed|].
  intros p w (lines & Hck & Hq)%checkpointed_lines Hnl.
  assert (Hin : resolve p ∈ load_checkpoint (checkpoint_file w)).
  { rewrite Hck. simpl. by apply elem_of_splitlines_lines_text. }
  unfold find_new_files. destruct events_dir as [all_files|].
  - eexists _, _. split; [reflexivity|]. split; [done|].
    intros [Hnot _]%list_elem_of_filter. done.
  - eexists _, _. split; [reflexivity|]. split; [done|].
    apply not_elem_of_nil.
Qed.

(** *** The statements of the normalisation *)

Lemma lookup_insert_or_ignore {V : Type} (k a : string) (v : V)
    (m : gmap string V) :
  insert_or_ignore a v m !! k =
  match m !! k with
  | Some x => Some x
  | None => if decide (k = a) then Some v else None
  end.
Proof.
  unfold insert_or_ignore. destruct (m !! a) eqn:Ea.
  - destruct (m !! k) eqn:Ek; [done|]. case_decide; congruence.
  - destruct (decide (k = a)) as [->|Hne].
    + by rewrite lookup_insert_eq, Ea.
    + rewrite lookup_insert_ne by done. by destruct (m !! k).
Qed.

Lemma lookup_foldl_insert_or_ignore {V : Type} (f : string -> V)
    (l : list string) (m : gmap string V) (k : string) :
  foldl (fun m a => insert_or_ignore a (f a) m) m l !! k =
  match m !! k with
  | Some x => Some x
  | None => if decide (k ∈ l) then Some (f k) else None
  end.
Proof.
  revert m. induction l as [|a l IH]; intros m; cbn [foldl].
  - destruct (m !! k); [done|]. rewrite decide_False; [done|].
    apply not_elem_of_nil.
  - rewrite IH, lookup_insert_or_ignore.
    destruct (m !! k); [done|].
    destruct (decide (k = a)) as [->|Hne].
    + rewrite decide_True by left. done.
    + destruct (decide (k ∈ l)).
      * rewrite decide_True by (by right). done.
      * rewrite decide_False; [done|].
        intros [?|?]%elem_of_cons; done.
Qed.

Lemma users_pass (d d1 d2 : db) :
  users_insert d = Ok d1 -> users_update d1 = Ok d2 ->
  raw_events d2 = raw_events d /\ documents d2 = documents d /\
  events d2 = events d /\ events_seq d2 = events_seq d /\
  forall k : string,
    users d2 !! k =
    if decide (k ∈ keys_of r_user_id (raw_events d))
    then Some (user_of_group (dated_rows r_user_id k (raw_events d)))
    else users d !! k.
Proof.
  unfold users_insert, users_update.
  intros [= <-] [= <-]. simpl. split_and!; try done.
  intros k. rewrite map_lookup_imap, lookup_foldl_insert_or_ignore.
  destruct (users d !! k) eqn:Ek; simpl;
    destruct (decide (k ∈ keys_of r_user_id (raw_events d)));
    rewrite ?bool_decide_true, ?bool_decide_false by done; done.
Qed.

Lemma document_keys_present (d : db) :
  documents_unreadable (raw_events d) = false ->
  (forall k, k ∈ keys_of r_document_id (raw_events d) ->
     is_Some (documents d !! k)) ->
  documents_insert d = Ok d.
Proof.
  intros Hread Hall. unfold documents_insert. rewrite Hread.
  rewrite (proj2 (forallb_forall _ _)).
  - f_equal. destruct d as [raw us ds es seq]. unfold set_documents. simpl.
    f_equal. apply map_eq. intros k.
    rewrite lookup_foldl_insert_or_ignore.
    destruct (ds !! k) eqn:Ek; [done|]. case_decide; [|done].
    destruct (Hall k ltac:(done)) as [x Hx]. simpl in Hx. congruence.
  - intros k Hk%list_elem_of_In%list_elem_of_filter.
    destruct Hk as [Hnone Hk]. destruct (Hall k Hk) as [x Hx]. congruence.
Qed.

Lemma documents_insert_readable (d d1 : db) :
  documents_insert d = Ok d1 -> documents_unreadable (raw_events d) = false.
Proof.
  unfold documents_insert.
  by destruct (documents_unreadable (raw_events d)).
Qed.

Lemma documents_pass (d d1 d2 : db) :
  documents_insert d = Ok d1 -> documents_update d1 = Ok d2 ->
  raw_events d2 = raw_events d /\ users d2 = users d /\
  events d2 = events d /\ events_seq d2 = events_seq d /\
  forall k : string,
    documents d2 !! k =
    if decide (k ∈ keys_of r_document_id (raw_events d))
    then Some (refresh_document (raw_events d) k
                 (default
                    (document_of_group
                       (group_of r_document_id k (raw_events d)))
                    (documents d !! k)))
    else documents d !! k.
Proof.
  unfold documents_insert, documents_update.
  destruct (documents_unreadable (raw_events d)); [discriminate|].
  destruct (forallb _ _); [|discriminate].
  intros [= <-] [= <-]. simpl. split_and!; try done.
  intros k. rewrite map_lookup_imap, lookup_foldl_insert_or_ignore.
  destruct (documents d !! k) eqn:Ek; simpl;
    destruct (decide (k ∈ keys_of r_document_id (raw_events d)));
    rewrite ?bool_decide_true, ?bool_decide_false by done; done.
Qed.

Lemma events_fold_inv (d : db) (rows : list raw_row)
    (es es' : gmap string event_row) (seq seq' : Z) (ok ok' : bool) :
  foldl (events_step d) (es, seq, ok) rows = (es', seq', ok') ->
  (forall id e, es !! id = Some e -> es' !! id = Some e) /\
  (forall r, r ∈ rows -> r_event_type r <> None ->
     is_Some (es' !! r_event_id r)) /\
  (forall id e, es' !! id = Some e -> es !! id = None ->
     exists r pk ty,
       r ∈ rows /\ r_event_id r = id /\ r_event_type r = Some ty /\
       e = event_of_raw pk ty r) /\
  (ok' = true -> ok = true).
Proof.
  revert es seq ok. induction rows as [|r rows IH]; intros es seq ok; simpl.
  - intros [= <- <- <-]. split_and!; try done.
    + intros r Hr. by apply not_elem_of_nil in Hr.
    + intros id e H1 H2. congruence.
  - unfold events_step at 2.
    destruct (r_event_type r) as [ty|] eqn:Ety.
    2:{ intros (H1 & H2 & H3 & H4)%IH. split_and!; try done.
        - intros r' [->|Hr']%elem_of_cons Hty; [congruence|by auto].
        - intros id e He Hn. destruct (H3 id e He Hn) as (r' & pk & ty & Hr' & ?).
          exists r', pk, ty. split; [by right|done]. }
    destruct (es !! r_event_id r) as [e0|] eqn:Eid.
    + intros (H1 & H2 & H3 & H4)%IH. split_and!; try done.
      * intros r' [->|Hr']%elem_of_cons Hty; [|by auto]. eauto.
      * intros id e He Hn. destruct (H3 id e He Hn) as (r' & pk & ty' & Hr' & ?).
        exists r', pk, ty'. split; [by right|done].
    + intros (H1 & H2 & H3 & H4)%IH. split_and!.
      * intros id e He. apply H1. rewrite lookup_insert_ne; [done|].
        intros <-. congruence.
      * intros r' [->|Hr']%elem_of_cons Hty; [|by auto].
        eexists. apply H1. apply lookup_insert_eq.
      * intros id e He Hn.
        destruct (decide (r_event_id r = id)) as [<-|Hne].
        -- exists r, (Z.max (max_pk es) seq + 1), ty.
           split; [by left|]. split_and!; try done.
           specialize (H1 _ _ (lookup_insert_eq es (r_event_id r) _)).
           congruence.
        -- destruct (H3 id e He) as (r' & pk & ty' & Hr' & ?).
           { by rewrite lookup_insert_ne. }
           exists r', pk, ty'. split; [by right|done].
      * intros Hok. specialize (H4 Hok).
        by apply andb_true_iff in H4 as [[? ?]%andb_true_iff ?].
Qed.

Lemma events_fold_present (d : db) (rows : list raw_row)
    (es : gmap string event_row) (seq : Z) (ok : bool) :
  (forall r, r ∈ rows -> r_event_type r <> None ->
     is_Some (es !! r_event_id r)) ->
  exists seq', foldl (events_step d) (es, seq, ok) rows = (es, seq', ok).
Proof.
  revert seq. induction rows as [|r rows IH]; intros seq Hall; simpl.
  - eauto.
  - unfold events_step at 2.
    destruct (r_event_type r) as [ty|] eqn:Ety.
    + destruct (Hall r ltac:(left) ltac:(congruence)) as [e ->].
      apply IH. intros r' Hr'. apply Hall. by right.
    + apply IH. intros r' Hr'. apply Hall. by right.
Qed.

Lemma events_insert_inv (d d' : db) :
  events_insert d = Ok d' ->
  raw_events d' = raw_events d /\ users d' = users d /\
  documents d' = documents d /\
  (forall id e, events d !! id = Some e -> events d' !! id = Some e) /\
  (forall r, r ∈ raw_events d -> r_event_type r <> None ->
     is_Some (events d' !! r_event_id r)) /\
  (forall id e, events d' !! id = Some e -> events d !! id = None ->
     exists r pk ty,
       r ∈ raw_events d /\ r_event_id r = id /\ r_event_type r = Some ty /\
       e = event_of_raw pk ty r).
Proof.
  unfold events_insert.
  destruct (events_unreadable (raw_events d)); [discriminate|].
  destruct (foldl _ _ _) as [[es seq] ok] eqn:E.
  destruct ok; [|discriminate]. intros [= <-]. simpl.
  apply events_fold_inv in E as (H1 & H2 & H3 & _). by split_and!.
Qed.

Lemma events_insert_readable (d d' : db) :
  events_insert d = Ok d' -> events_unreadable (raw_events d) = false.
Proof.
  unfold events_insert. by destruct (events_unreadable (raw_events d)).
Qed.

Lemma events_insert_present (d : db) :
  events_unreadable (raw_events d) = false ->
  (forall r, r ∈ raw_events d -> r_event_type r <> None ->
     is_Some (events d !! r_event_id r)) ->
  exists d', events_insert d = Ok d' /\
    raw_events d' = raw_events d /\ users d' = users d /\
    documents d' = documents d /\ events d' = events d.
Proof.
  intros Hread Hall. unfold events_insert. rewrite Hread.
  destruct (events_fold_present d (raw_events d) (events d) (events_seq d)
              true Hall) as (seq' & ->).
  eexists. split; [reflexivity|]. by simpl.
Qed.

Lemma bind_Ok {A B : Type} (m : result A) (k : A -> result B) (b : B) :
  m ≫= k = Ok b -> exists a, m = Ok a /\ k a = Ok b.
Proof. destruct m as [a|e]; [|discriminate]. intros H. by exists a. Qed.

Lemma normalize_idempotent (d d1 : db) :
  normalize d = Ok d1 ->
  exists d2, normalize d1 = Ok d2 /\
    raw_events d2 = raw_events d1 /\ users d2 = users d1 /\
    documents d2 = documents d1 /\ events d2 = events d1.
Proof.
  unfold normalize.
  intros (a1 & E1 & (a2 & E2 & (a3 & E3 & (a4 & E4 & E5)%bind_Ok)%bind_Ok)
            %bind_Ok)%bind_Ok.
  destruct (users_pass _ _ _ E1 E2) as (Ur & Ud & Ue & _ & Uu).
  destruct (documents_pass _ _ _ E3 E4) as (Dr & Du & De & _ & Dd).
  destruct (events_insert_inv _ _ E5) as (Er & Eu & Ed & _ & Ee & _).
  pose proof (documents_insert_readable _ _ E3) as Dn.
  pose proof (events_insert_readable _ _ E5) as En.
  assert (Hraw : raw_events d1 = raw_events d) by congruence.
  (* the users *)
  destruct (users_insert d1) as [b1|] eqn:F1; [|discriminate F1].
  cbn [mbind result_bind].
  destruct (users_update b1) as [b2|] eqn:F2; [|discriminate F2].
  cbn [mbind result_bind].
  destruct (users_pass _ _ _ F1 F2) as (Vr & Vd & Ve & Vs & Vu).
  assert (Hu : users b2 = users d1).
  { apply map_eq. intros k. rewrite Vu, Hraw, Eu, Du, Uu.
    by destruct (decide _). }
  (* the documents *)
  assert (Hdk : forall k, k ∈ keys_of r_document_id (raw_events b2) ->
                          is_Some (documents b2 !! k)).
  { intros k Hk. rewrite Vd, Ed, Dd. rewrite Vr, Hraw, <- Ur in Hk.
    rewrite decide_True by done. eauto. }
  assert (Hdn : documents_unreadable (raw_events b2) = false).
  { by rewrite Vr, Hraw, <- Ur. }
  rewrite (document_keys_present b2 Hdn Hdk). cbn [mbind result_bind].
  destruct (documents_update b2) as [b4|] eqn:F4; [|discriminate F4].
  cbn [mbind result_bind].
  destruct (documents_pass _ _ _ (document_keys_present b2 Hdn Hdk) F4)
    as (Wr & Wu & We & Ws & Wd).
  assert (Hd : documents b4 = documents d1).
  { apply map_eq. intros k. rewrite Wd, Vd, Vr, Hraw, Ed, Dd, Ur.
    destruct (decide _); [|done]. done. }
  (* the events *)
  destruct (events_insert_present b4) as (b5 & -> & Xr & Xu & Xd & Xe).
  { rewrite Wr, Vr, Er. done. }
  { intros r Hr Hty. rewrite We, Ve. apply Ee; [|done].
    by rewrite Wr, Vr, Er in Hr. }
  exists b5. split; [done|]. split_and!; congruence.
Qed.

(** *** The run as a whole *)

Lemma run_transformations_inv (w w' : world) (r : result unit) :
  run_transformations w = (w', r) ->
  store w' = store w /\ checkpoint_file w' = checkpoint_file w /\
  is_Some (txn w') /\
  match r with
  | Ok _ => normalize (view w) = Ok (view w')
  | Raise e => normalize (view w) = Raise e
  end.
Proof.
  unfold run_transformations, transform_users, transform_documents,
    transform_events, normalize, execute, mbind, M_bind, result_bind.
  destruct (users_insert (view w)) as [d1|e] eqn:E1; simpl_view;
    [|intros [= <- <-]; by split_and!].
  destruct (users_update d1) as [d2|e] eqn:E2; simpl_view;
    [|intros [= <- <-]; by split_and!].
  destruct (documents_insert d2) as [d3|e] eqn:E3; simpl_view;
    [|intros [= <- <-]; by split_and!].
  destruct (documents_update d3) as [d4|e] eqn:E4; simpl_view;
    [|intros [= <- <-]; by split_and!].
  destruct (events_insert d4) as [d5|e] eqn:E5; simpl_view;
    intros [= <- <-]; by split_and!.
Qed.

(** The transformation task on the database file: the normalisation is
    committed, or nothing is. *)
Lemma task_transform_spec (w : world) :
  task_transform w =
  match normalize (store w) with
  | Ok d =>
      ({| store := d; txn := None; checkpoint_file := checkpoint_file w |},
       Ok tt)
  | Raise e =>
      ({| store := store w; txn := None;
          checkpoint_file := checkpoint_file w |}, Raise e)
  end.
Proof.
  unfold task_transform, try_except_reraise_finally, mbind, M_bind,
    init_schema, begin_, mret, M_ret.
  cbn [connect_db txn store checkpoint_file].
  destruct (run_transformations _) as [w1 r1] eqn:E1.
  apply run_transformations_inv in E1 as (Hs1 & Hc1 & [d Ht] & Hn).
  cbn [store checkpoint_file] in Hs1, Hc1.
  change (view {| store := store w; txn := Some (store w);
                  checkpoint_file := checkpoint_file w |})
    with (store w) in Hn.
  destruct r1 as [[]|e1].
  - rewrite Hn. unfold commit. rewrite Ht. unfold view. rewrite Ht.
    cbn [close store txn checkpoint_file default]. by rewrite Hc1.
  - rewrite Hn. unfold rollback_quietly, rollback, close. rewrite Ht.
    cbn [fst store txn checkpoint_file]. by rewrite Hs1, Hc1.
Qed.

(** C2: when a normalisation has ended without an exception, a second one
    over the same [raw_events] ends without an exception and leaves [users],
    [documents] and [events] as the first one left them. For the
    transformation task of the DAG, from every database: a second run ends as
    the first one did and leaves the three tables as the first one left
    them. *)
Theorem run_transformations_idempotent :
  (forall w w1 w1' : world,
     run_transformations w = (w1, Ok tt) ->
     view w1' = view w1 ->
     exists w2 : world,
       run_transformations w1' = (w2, Ok tt) /\
       raw_events (view w2) = raw_events (view w1) /\
       users (view w2) = users (view w1) /\
       documents (view w2) = documents (view w1) /\
       events (view w2) = events (view w1)) /\
  (forall (w w1 : world) (r : result unit),
     task_transform w = (w1, r) ->
     exists w2 : world,
       task_transform w1 = (w2, r) /\
       raw_events (store w2) = raw_events (store w1) /\
       users (store w2) = users (store w1) /\
       documents (store w2) = documents (store w1) /\
       events (store w2) = events (store w1)).
Proof.
  split.
  - intros w w1 w1' (_ & _ & _ & Hn)%run_transformations_inv Hview.
    destruct (normalize_idempotent _ _ Hn) as (d2 & Hn2 & Hr & Hu & Hd & He).
    destruct (run_transformations w1') as [w2 r] eqn:Hrun.
    destruct (run_transformations_inv _ _ _ Hrun) as (_ & _ & _ & Hn').
    rewrite Hview, Hn2 in Hn'. destruct r as [[]|e]; [|discriminate].
    injection Hn' as Hd2. exists w2. rewrite <- Hd2. by split_and!.
  - intros w w1 r. rewrite task_transform_spec.
    destruct (normalize (store w)) as [d|e] eqn:Hn; intros [= <- <-];
      rewrite task_transform_spec; cbn [store checkpoint_file].
    + destruct (normalize_idempotent _ _ Hn)
        as (d2 & -> & Hr & Hu & Hd & He).
      eexists. split; [reflexivity|]. by split_and!.
    + rewrite Hn. eexists. split; [reflexivity|]. by split_and!.
Qed.

(** *** Documents *)

Lemma load_fold_inv (group : list raw_row) (m : option string)
    (cur : option raw_row) :
  (forall r, cur = Some r -> r_event_ts r = m) ->
  (is_Some m -> is_Some cur) ->
  fst (foldl load_step (m, cur) group) =
    foldl (if bare_columns_follow_max then max_step else min_step) m
          (r_event_ts <$> group) /\
  (forall r, snd (foldl load_step (m, cur) group) = Some r ->
     (cur = Some r \/ r ∈ group) /\
     r_event_ts r = fst (foldl load_step (m, cur) group)) /\
  (is_Some cur \/ group <> [] ->
   is_Some (snd (foldl load_step (m, cur) group))).
Proof.
  revert m cur. induction group as [|r0 group IH]; intros m cur Hcur Hm.
  - simpl. split_and!; [done| |by intros [?|?]].
    intros r Hr. split; [by left|auto].
  - cbn [foldl fmap list_fmap].
    assert (Hstep : exists m1 cur1,
      load_step (m, cur) r0 = (m1, cur1) /\
      m1 = (if bare_columns_follow_max then max_step else min_step)
             m (r_event_ts r0) /\
      (forall r, cur1 = Some r -> r_event_ts r = m1) /\
      (forall r, cur1 = Some r -> cur = Some r \/ r = r0) /\
      is_Some cur1).
    { unfold load_step, max_step, min_step. simpl.
      destruct (r_event_ts r0) as [t|] eqn:Et, m as [b|],
        bare_columns_follow_max;
        try destruct (str_leb t b); try destruct (str_leb b t);
        eexists _, _; split_and!; eauto; intros r [= <-]; auto. }
    destruct Hstep as (m1 & cur1 & -> & -> & Hc1 & Hfrom & Hsome).
    destruct (IH _ cur1 Hc1 (fun _ => Hsome)) as (H1 & H2 & H3). split_and!.
    + done.
    + intros r Hr. destruct (H2 r Hr) as [[Hc|Hg] Hts].
      * split; [|done]. destruct (Hfrom r Hc) as [?| ->]; [by left|].
        right. by left.
      * split; [|done]. right. by right.
    + intros _. apply H3. by left.
Qed.

Lemma bare_row_spec (group : list raw_row) :
  group <> [] ->
  exists r, bare_row group = Some r /\ r ∈ group /\
            r_event_ts r =
              (if bare_columns_follow_max then sql_max else sql_min)
                (r_event_ts <$> group).
Proof.
  intros Hne. unfold bare_row, sql_max, sql_min.
  destruct (load_fold_inv group None None) as (H1 & H2 & H3);
    [done|by intros [? ?]|].
  destruct H3 as [r Hr]; [by right|]. exists r. split; [done|].
  destruct (H2 r Hr) as [[?|Hin] Hts]; [done|]. split; [done|].
  rewrite Hts, H1. by destruct bare_columns_follow_max.
Qed.

Lemma group_of_key_nonempty (key : raw_row -> option string) (k : string)
    (raw : list raw_row) :
  k ∈ keys_of key raw -> group_of key k raw <> [].
Proof.
  unfold keys_of, group_of.
  intros (r & Hr & Hk)%elem_of_remove_dups%list_elem_of_omap Hnil.
  assert (Hin : r ∈ filter (fun r => key r = Some k) raw).
  { apply list_elem_of_filter. done. }
  rewrite Hnil in Hin. by apply not_elem_of_nil in Hin.
Qed.

Lemma transform_documents_inv (w w' : world) :
  transform_documents w = (w', Ok tt) ->
  exists d1, documents_insert (view w) = Ok d1 /\
             documents_update d1 = Ok (view w').
Proof.
  unfold transform_documents, execute, mbind, M_bind.
  destruct (documents_insert (view w)) as [d1|e] eqn:E1; simpl_view;
    [|discriminate].
  destruct (documents_update d1) as [d2|e] eqn:E2; simpl_view;
    [|discriminate].
  intros [= <-]. by exists d1.
Qed.

(** C5, as amended: the Document row that [transform_documents] creates for
    a [document_id] takes [title] and [owner_user_id] from one row of the
    group, the row that gives the columns outside the aggregates: a row of
    that [document_id] that carries the least or the greatest [event_ts] of
    the group, as the engine chooses (no [event_ts] when no row has one). On
    that row the JSON paths are tried in
    order, document.title then title, and document.owner_user_id then
    owner_user_id then ownerUserId, the first that is not null giving the
    value; the other rows of the group are not looked at. *)
Theorem created_document_fields (w w' : world) (k : string) :
  transform_documents w = (w', Ok tt) ->
  k ∈ keys_of r_document_id (raw_events (view w)) ->
  documents (view w) !! k = None ->
  exists (r : raw_row) (doc : document_row),
    bare_row (group_of r_document_id k (raw_events (view w))) = Some r /\
    r ∈ raw_events (view w) /\ r_document_id r = Some k /\
    r_event_ts r =
      (if bare_columns_follow_max then sql_max else sql_min)
        (r_event_ts <$> group_of r_document_id k (raw_events (view w))) /\
    documents (view w') !! k = Some doc /\
    title doc =
      text_affinity
        (coalesce [json_extract (r_raw_json r) ["document"; "title"];
                   json_extract (r_raw_json r) ["title"]]) /\
    owner_user_id doc =
      text_affinity
        (coalesce [json_extract (r_raw_json r) ["document"; "owner_user_id"];
                   json_extract (r_raw_json r) ["owner_user_id"];
                   json_extract (r_raw_json r) ["ownerUserId"]]).
Proof.
  intros (d1 & E1 & E2)%transform_documents_inv Hk Hnew.
  destruct (documents_pass _ _ _ E1 E2) as (_ & _ & _ & _ & Hlook).
  destruct (bare_row_spec _ (group_of_key_nonempty _ _ _ Hk))
    as (r & Hbare & Hin & Hts).
  apply list_elem_of_filter in Hin as [Hdoc Hin].
  exists r. eexists. split_and!; try done.
  - rewrite Hlook, decide_True by done. rewrite Hnew. reflexivity.
  - simpl. unfold document_of_group, bare_json. by rewrite Hbare.
  - simpl. unfold document_of_group, bare_json. by rewrite Hbare.
Qed.

(** *** Events *)

Lemma transform_events_inv (w w' : world) :
  transform_events w = (w', Ok tt) -> events_insert (view w) = Ok (view w').
Proof.
  unfold transform_events, execute.
  destruct (events_insert (view w)) as [d1|e]; [|discriminate].
  by intros [= <-].
Qed.

Lemma weekday_name_lookup (i : Z) :
  0 <= i <= 6 -> weekday_name i = weekday_names !! Z.to_nat i.
Proof.
  intros Hi.
  assert (i = 0 \/ i = 1 \/ i = 2 \/ i = 3 \/ i = 4 \/ i = 5 \/ i = 6)
    as [->|[->|[->|[->|[->|[->| ->]]]]]] by lia; reflexivity.
Qed.

(** **** The day index of a date written out *)

Lemma digit_cases (k : Z) :
  0 <= k <= 9 ->
  k = 0 \/ k = 1 \/ k = 2 \/ k = 3 \/ k = 4 \/ k = 5 \/ k = 6 \/ k = 7 \/
  k = 8 \/ k = 9.
Proof. lia. Qed.

Lemma digit_digit_char (k : Z) : 0 <= k <= 9 -> digit (digit_char k) = Some k.
Proof.
  intros H. destruct (digit_cases k H)
    as [->|[->|[->|[->|[->|[->|[->|[->|[->| ->]]]]]]]]]; reflexivity.
Qed.

(** Arithmetic with divisions; the parameters of the section play no part
    in it. *)
Ltac divlia :=
  try clear json_loads; try clear py_repr; try clear json_text;
  try clear integer_affinity_text; try clear strftime_w_other;
  try clear real_text; try clear integer_affinity_real;
  try clear nonfinite_value; try clear resolve; try clear read_text;
  try clear checkpoint_append;
  Z.to_euclidean_division_equations; lia.

Lemma take_two_digits (n acc : Z) (rest : string) :
  0 <= n <= 99 ->
  take_digits 2 acc (two_digits n +:+ rest) = Some (acc * 100 + n, rest).
Proof.
  intros Hn. unfold two_digits. rewrite !app_cons. simpl.
  rewrite !digit_digit_char by divlia.
  f_equal. f_equal. divlia.
Qed.

Lemma take_four_digits (n : Z) (rest : string) :
  0 <= n <= 9999 ->
  take_digits 4 0 (four_digits n +:+ rest) = Some (n, rest).
Proof.
  intros Hn. unfold four_digits. rewrite app_assoc.
  change (take_digits 4 0 ?s) with
    (match s with
     | String c s' =>
         match digit c with
         | Some d =>
             match s' with
             | String c' s'' =>
                 match digit c' with
                 | Some d' => take_digits 2 ((0 * 10 + d) * 10 + d') s''
                 | None => None
                 end
             | EmptyString => None
             end
         | None => None
         end
     | EmptyString => None
     end).
  unfold two_digits at 1. rewrite !app_cons.
  rewrite !digit_digit_char by divlia.
  change ("" +:+ ?s) with s.
  rewrite take_two_digits by divlia. f_equal. f_equal. divlia.
Qed.

Lemma field_two (n lo hi : Z) (rest : string) :
  0 <= n <= 99 -> lo <= n <= hi ->
  field 2 lo hi (two_digits n +:+ rest) = Some (n, rest).
Proof.
  intros Hn Hr. unfold field. rewrite take_two_digits by done.
  replace (0 * 100 + n) with n by lia.
  rewrite (proj2 (Z.leb_le lo n)), (proj2 (Z.leb_le n hi)) by lia. done.
Qed.

Lemma field_four (n : Z) (rest : string) :
  0 <= n <= 9999 ->
  field 4 0 9999 (four_digits n +:+ rest) = Some (n, rest).
Proof.
  intros Hn. unfold field. rewrite take_four_digits by done.
  rewrite (proj2 (Z.leb_le 0 n)), (proj2 (Z.leb_le n 9999)) by lia. done.
Qed.

Lemma split_sign_digit (k : Z) (s : string) :
  0 <= k <= 9 ->
  split_sign (String (digit_char k) s) = (false, String (digit_char k) s).
Proof.
  intros H. destruct (digit_cases k H)
    as [->|[->|[->|[->|[->|[->|[->|[->|[->| ->]]]]]]]]]; reflexivity.
Qed.

Ltac norm_app :=
  rewrite ?app_cons; repeat (progress change ("" +:+ ?x) with x).

Lemma parse_time_text (h m s : Z) :
  0 <= h <= 23 -> 0 <= m <= 59 -> 0 <= s <= 59 ->
  parseHhMmSs (time_text h m s) =
  Some {| tod_ms := h * 3600000 + m * 60000 + s * 1000; tod_tz := 0 |}.
Proof.
  intros Hh Hm Hs. unfold parseHhMmSs, time_text.
  rewrite field_two by lia. simpl. norm_app.
  rewrite field_two by lia. simpl. norm_app.
  rewrite <- (app_nil_r (two_digits s)).
  rewrite field_two by lia. simpl. reflexivity.
Qed.

Lemma parse_date_text (y m d : Z) :
  0 <= y <= 9999 -> 1 <= m <= 12 -> 1 <= d <= 31 ->
  parseYyyyMmDd (date_text y m d) =
  Some {| dt_Y := y; dt_M := m; dt_D := d; dt_time := None |}.
Proof.
  intros Hy Hm Hd. unfold parseYyyyMmDd, date_text.
  assert (Hsign : forall rest,
            split_sign (four_digits y +:+ rest) =
            (false, four_digits y +:+ rest)).
  { intros rest. unfold four_digits, two_digits at 1. rewrite !app_cons.
    apply split_sign_digit. divlia. }
  rewrite Hsign.
  rewrite field_four by lia. simpl. norm_app.
  rewrite field_two by lia. simpl. norm_app.
  rewrite <- (app_nil_r (two_digits d)).
  rewrite field_two by lia. simpl. reflexivity.
Qed.

Lemma year_days (Y : Z) :
  0 <= Y ->
  (36525 * (Y + 4716)) / 100 + 2 - Y / 100 + (Y / 100) / 4 =
  365 * Y + Y / 4 - Y / 100 + Y / 400 + 1722521.
Proof. intros HY. divlia. Qed.

Lemma month_days (m : Z) :
  1 <= m <= 12 ->
  ((306001 * ((if m <=? 2 then m + 12 else m) + 1)) / 10000) mod 7 =
  (month_offset m + 1) mod 7.
Proof.
  intros HM.
  assert (m = 1 \/ m = 2 \/ m = 3 \/ m = 4 \/ m = 5 \/ m = 6 \/ m = 7 \/
          m = 8 \/ m = 9 \/ m = 10 \/ m = 11 \/ m = 12)
    as [->|[->|[->|[->|[->|[->|[->|[->|[->|[->|[->| ->]]]]]]]]]]] by lia;
    reflexivity.
Qed.

Lemma month_days_range (m : Z) :
  1 <= m <= 12 ->
  0 <= (306001 * ((if m <=? 2 then m + 12 else m) + 1)) / 10000 <=
  (if m <=? 2 then 459 else 397).
Proof.
  intros HM.
  assert (m = 1 \/ m = 2 \/ m = 3 \/ m = 4 \/ m = 5 \/ m = 6 \/ m = 7 \/
          m = 8 \/ m = 9 \/ m = 10 \/ m = 11 \/ m = 12)
    as [->|[->|[->|[->|[->|[->|[->|[->|[->|[->|[->| ->]]]]]]]]]]] by lia;
    vm_compute; split; discriminate.
Qed.

Lemma computeJD_date (y m d : Z) (t : option time_of_day) :
  1 <= y <= 9999 -> 1 <= m <= 12 ->
  computeJD {| dt_Y := y; dt_M := m; dt_D := d; dt_time := t |} =
  Some ((2 * day_number y m d - 3049) * 43200000 +
        match t with
        | Some t => tod_ms t - tod_tz t * 60000
        | None => 0
        end).
Proof.
  intros Hy Hm. unfold computeJD, day_number. cbn [dt_Y dt_M dt_D dt_time].
  replace ((y <? -4713) || (9999 <? y)) with false
    by (symmetry; apply orb_false_intro; [apply Z.ltb_ge | apply Z.ltb_ge]; lia).
  destruct (m <=? 2) eqn:Em.
  - rewrite !Z.quot_div_nonneg by (try apply Z.div_pos; lia).
    rewrite <- (year_days (y - 1)) by lia.
    f_equal. destruct t; lia.
  - rewrite !Z.quot_div_nonneg by (try apply Z.div_pos; lia).
    rewrite <- (year_days y) by lia.
    f_equal. destruct t; lia.
Qed.

Lemma day_number_weekday (y m d : Z) :
  1 <= y <= 9999 -> 1 <= m <= 12 ->
  (day_number y m d + 3) mod 7 = weekday_of_date y m d.
Proof.
  intros Hy Hm. unfold day_number, weekday_of_date.
  pose proof (month_days m Hm) as HX.
  replace (m <? 3) with (m <=? 2)
    by (destruct (Z.leb_spec m 2), (Z.ltb_spec m 3); lia).
  set (y' := if m <=? 2 then y - 1 else y).
  set (X2 := (306001 * ((if m <=? 2 then m + 12 else m) + 1)) / 10000) in *.
  set (a := y' / 4). set (b := y' / 100). set (c := y' / 400).
  set (t := month_offset m) in *.
  clearbody y' X2 a b c t. divlia.
Qed.

Lemma day_number_range (y m d : Z) :
  1 <= y <= 9999 -> 1 <= m <= 12 -> 1 <= d <= 31 ->
  1721000 <= day_number y m d <= 5375008.
Proof.
  intros Hy Hm Hd. unfold day_number.
  pose proof (month_days_range m Hm) as HX.
  set (X2 := (306001 * ((if m <=? 2 then m + 12 else m) + 1)) / 10000) in *.
  clearbody X2. destruct (m <=? 2); divlia.
Qed.

Lemma day_index_date (y m d : Z) (t : option time_of_day) :
  1 <= y <= 9999 -> 1 <= m <= 12 -> 1 <= d <= 31 ->
  0 <= day_offset t < 86400000 ->
  day_index {| dt_Y := y; dt_M := m; dt_D := d; dt_time := t |} =
  Some (weekday_of_date y m d).
Proof.
  intros Hy Hm Hd Ht. unfold day_index.
  rewrite computeJD_date by done. fold (day_offset t).
  cbn [mbind option_bind]. simpl.
  pose proof (day_number_range y m d Hy Hm Hd) as HN.
  pose proof (day_number_weekday y m d Hy Hm) as HW.
  set (N := day_number y m d) in *. set (o := day_offset t) in *.
  clearbody N o.
  replace (validJulianDay ((2 * N - 3049) * 43200000 + o)) with true
    by (symmetry; unfold validJulianDay; apply andb_true_intro;
        split; apply Z.leb_le; lia).
  f_equal. rewrite <- HW.
  replace (((2 * N - 3049) * 43200000 + o + 129600000) / 86400000)
    with (N - 1523) by divlia.
  divlia.
Qed.

Lemma weekday_of_date_range (y m d : Z) : 0 <= weekday_of_date y m d <= 6.
Proof.
  unfold weekday_of_date.
  match goal with |- _ <= ?a mod 7 <= _ =>
    pose proof (Z.mod_pos_bound a 7); lia
  end.
Qed.

Lemma all_chars_app (f : ascii -> bool) (a b : string) :
  all_chars f (a +:+ b) = all_chars f a && all_chars f b.
Proof.
  induction a as [|c a IH]; [done|].
  rewrite app_cons. simpl. by rewrite IH, andb_assoc.
Qed.

Lemma c_text_plain (s : string) : all_chars plain_char s = true -> c_text s = s.
Proof.
  induction s as [|c s IH]; [done|]. simpl.
  intros [[H0 _]%andb_prop Hs]%andb_prop.
  apply negb_true_iff in H0. rewrite H0. by rewrite IH.
Qed.

Lemma long_fraction_plain (s : string) :
  all_chars plain_char s = true -> long_fraction s = false.
Proof.
  induction s as [|c s IH]; [done|]. simpl.
  intros [[_ Hp]%andb_prop Hs]%andb_prop.
  apply negb_true_iff in Hp. rewrite Hp. simpl. by apply IH.
Qed.

Lemma digit_char_plain (k : Z) : 0 <= k <= 9 -> plain_char (digit_char k) = true.
Proof.
  intros H. destruct (digit_cases k H)
    as [->|[->|[->|[->|[->|[->|[->|[->|[->| ->]]]]]]]]]; reflexivity.
Qed.

Lemma two_digits_plain (n : Z) :
  0 <= n <= 99 -> all_chars plain_char (two_digits n) = true.
Proof.
  intros Hn. unfold two_digits. simpl.
  by rewrite !digit_char_plain by divlia.
Qed.

Lemma four_digits_plain (n : Z) :
  0 <= n <= 9999 -> all_chars plain_char (four_digits n) = true.
Proof.
  intros Hn. unfold four_digits.
  by rewrite all_chars_app, !two_digits_plain by divlia.
Qed.

Lemma date_text_plain (y m d : Z) :
  0 <= y <= 9999 -> 0 <= m <= 99 -> 0 <= d <= 99 ->
  all_chars plain_char (date_text y m d) = true.
Proof.
  intros Hy Hm Hd. unfold date_text.
  rewrite !all_chars_app, four_digits_plain, !two_digits_plain by done.
  reflexivity.
Qed.

Lemma time_text_plain (h m s : Z) :
  0 <= h <= 99 -> 0 <= m <= 99 -> 0 <= s <= 99 ->
  all_chars plain_char (time_text h m s) = true.
Proof.
  intros Hh Hm Hs. unfold time_text.
  rewrite !all_chars_app, !two_digits_plain by done.
  reflexivity.
Qed.

Lemma skip_spaces_or_T_digit (k : Z) (s : string) :
  0 <= k <= 9 ->
  skip_spaces_or_T (String (digit_char k) s) = String (digit_char k) s.
Proof.
  intros H. destruct (digit_cases k H)
    as [->|[->|[->|[->|[->|[->|[->|[->|[->| ->]]]]]]]]]; reflexivity.
Qed.

Lemma skip_separator (sep : ascii) (k : Z) (s : string) :
  sep = "T"%char \/ sep = " "%char -> 0 <= k <= 9 ->
  skip_spaces_or_T (String sep (String (digit_char k) s)) =
  String (digit_char k) s.
Proof.
  intros Hsep Hk.
  transitivity (skip_spaces_or_T (String (digit_char k) s));
    [by destruct Hsep as [-> | ->] | by apply skip_spaces_or_T_digit].
Qed.

(** After the date, what follows is read as a time or must be empty. *)
Lemma parse_date_then (y m d : Z) (rest : string) :
  0 <= y <= 9999 -> 1 <= m <= 12 -> 1 <= d <= 31 ->
  parseYyyyMmDd (date_text y m d +:+ rest) =
  let date t := {| dt_Y := y; dt_M := m; dt_D := d; dt_time := t |} in
  match parseHhMmSs (skip_spaces_or_T rest) with
  | Some t => Some (date (Some t))
  | None => if at_end (skip_spaces_or_T rest) then Some (date None) else None
  end.
Proof.
  intros Hy Hm Hd. unfold parseYyyyMmDd, date_text.
  rewrite !app_assoc.
  assert (Hsign : forall rest,
            split_sign (four_digits y +:+ rest) =
            (false, four_digits y +:+ rest)).
  { intros rest'. unfold four_digits, two_digits at 1. rewrite !app_cons.
    apply split_sign_digit. divlia. }
  rewrite Hsign.
  rewrite field_four by lia. simpl. norm_app.
  rewrite field_two by lia. simpl. norm_app.
  rewrite field_two by lia. simpl. reflexivity.
Qed.

Lemma take_digits_ahead (n : nat) (acc : Z) (s : string) :
  digits_ahead n s = false -> take_digits n acc s = None.
Proof.
  revert acc s. induction n as [|n IH]; intros acc s; [done|]. simpl.
  destruct s as [|c s]; [done|]. destruct (digit c); [apply IH | done].
Qed.

Lemma digits_ahead_le (n : nat) (s : string) :
  digits_ahead n s = false -> digits_ahead (S n) s = false.
Proof.
  revert s. induction n as [|n IH]; intros s; [done|].
  change (digits_ahead (S (S n)) s) with
    (match s with
     | String c s' =>
         match digit c with
         | Some _ => digits_ahead (S n) s'
         | None => false
         end
     | EmptyString => false
     end).
  simpl. destruct s as [|c s]; [done|]. destruct (digit c); [apply IH | done].
Qed.

Lemma field_ahead (n : nat) (lo hi : Z) (s : string) :
  digits_ahead n s = false -> field n lo hi s = None.
Proof. intros H. unfold field. by rewrite take_digits_ahead. Qed.

Lemma split_sign_cases (s : string) :
  split_sign s = (false, s) \/
  exists s', s = String "-" s' /\ split_sign s = (true, s').
Proof.
  destruct s as [|c s]; [by left|].
  destruct c as [[] [] [] [] [] [] [] []]; first [by left | right; by eexists].
Qed.

(** A text that does not start with two digits, after a minus sign if it has
    one, is neither a date nor a time. *)
Lemma parse_not_a_date (z : string) :
  digits_ahead 2 (snd (split_sign z)) = false -> parseDateOrTime z = None.
Proof.
  intros H. unfold parseDateOrTime.
  assert (parseYyyyMmDd z = None) as ->.
  { unfold parseYyyyMmDd. destruct (split_sign z) as [neg s0].
    rewrite field_ahead; [done|]. by do 2 apply digits_ahead_le. }
  assert (parseHhMmSs z = None) as ->; [|done].
  unfold parseHhMmSs. rewrite field_ahead; [done|].
  destruct (split_sign_cases z) as [E | (s' & -> & E)].
  - by rewrite E in H.
  - reflexivity.
Qed.

Lemma strftime_w_date (y m d : Z) :
  1 <= y <= 9999 -> 1 <= m <= 12 -> 1 <= d <= 31 ->
  strftime_w (Some (date_text y m d)) = Some (weekday_of_date y m d).
Proof.
  intros Hy Hm Hd. unfold strftime_w. cbn [mbind option_bind].
  pose proof (date_text_plain y m d) as Hp.
  rewrite c_text_plain, long_fraction_plain by (apply Hp; lia).
  unfold parseDateOrTime.
  rewrite <- (app_nil_r (date_text y m d)), parse_date_then by lia.
  simpl. apply day_index_date; simpl; lia.
Qed.

Lemma strftime_w_date_time (y m d h mi s : Z) (sep : ascii) :
  1 <= y <= 9999 -> 1 <= m <= 12 -> 1 <= d <= 31 ->
  0 <= h <= 23 -> 0 <= mi <= 59 -> 0 <= s <= 59 ->
  sep = "T"%char \/ sep = " "%char ->
  strftime_w (Some (date_text y m d +:+ String sep (time_text h mi s))) =
  Some (weekday_of_date y m d).
Proof.
  intros Hy Hm Hd Hh Hmi Hs Hsep. unfold strftime_w. cbn [mbind option_bind].
  assert (Hp : all_chars plain_char
                 (date_text y m d +:+ String sep (time_text h mi s)) = true).
  { rewrite all_chars_app, date_text_plain by lia.
    change (all_chars plain_char (String sep ?x))
      with (plain_char sep && all_chars plain_char x).
    rewrite time_text_plain by lia. by destruct Hsep as [-> | ->]. }
  rewrite c_text_plain, long_fraction_plain by done.
  unfold parseDateOrTime. rewrite parse_date_then by lia.
  assert (Hskip : skip_spaces_or_T (String sep (time_text h mi s)) =
                  time_text h mi s).
  { unfold time_text, two_digits at 1. rewrite !app_cons.
    apply skip_separator; [done | divlia]. }
  cbv zeta. rewrite Hskip, parse_time_text by done.
  apply day_index_date; simpl; lia.
Qed.

Lemma strftime_w_not_a_date (ts : string) :
  digits_ahead 2 (snd (split_sign (c_text ts))) = false ->
  long_fraction (c_text ts) = false ->
  numeric_or_now (c_text ts) = false ->
  strftime_w (Some ts) = None.
Proof.
  intros Hd Hl Hn. unfold strftime_w. cbn [mbind option_bind].
  cbv zeta. by rewrite Hl, parse_not_a_date, Hn.
Qed.

Lemma day_of_week_expr_date (y m d : Z) :
  1 <= y <= 9999 -> 1 <= m <= 12 -> 1 <= d <= 31 ->
  day_of_week_expr (Some (date_text y m d)) =
  weekday_names !! Z.to_nat (weekday_of_date y m d).
Proof.
  intros Hy Hm Hd. unfold day_of_week_expr.
  rewrite strftime_w_date by done. cbn [mbind option_bind].
  apply weekday_name_lookup, weekday_of_date_range.
Qed.

Lemma day_of_week_expr_date_time (y m d h mi s : Z) (sep : ascii) :
  1 <= y <= 9999 -> 1 <= m <= 12 -> 1 <= d <= 31 ->
  0 <= h <= 23 -> 0 <= mi <= 59 -> 0 <= s <= 59 ->
  sep = "T"%char \/ sep = " "%char ->
  day_of_week_expr (Some (date_text y m d +:+ String sep (time_text h mi s))) =
  weekday_names !! Z.to_nat (weekday_of_date y m d).
Proof.
  intros Hy Hm Hd Hh Hmi Hs Hsep. unfold day_of_week_expr.
  rewrite strftime_w_date_time by done. cbn [mbind option_bind].
  apply weekday_name_lookup, weekday_of_date_range.
Qed.

(** C8: the row that [transform_events] inserts for an event has as
    [day_of_week] the name of the weekday of its [event_ts], in the order
    Sunday to Saturday from the day index 0 to 6. For an [event_ts] written
    YYYY-MM-DD, alone or followed by T or a space and HH:MM:SS, with a year
    from 1 to 9999, it is the name of the weekday that the Gregorian calendar
    gives that date. It is NULL when [event_ts] is NULL, and when [event_ts]
    is not a date: a text that, read up to its first U+0000, does not start
    with two digits (after a minus sign, if it has one), has no point
    followed by four digits, and is neither a number nor a word for the
    current time. For every other [event_ts] the name is the one at the day
    index that the engine gives, and NULL when it gives none. The record of
    the scenario, with the timestamp 2024-03-04T10:00:00, is stored with the
    event type comment and gives an event with Monday and the comment text
    hi. *)
Theorem event_day_of_week :
  (forall (w w' : world) (id : string) (e : event_row),
     transform_events w = (w', Ok tt) ->
     events (view w) !! id = None ->
     events (view w') !! id = Some e ->
     (e_event_ts e = None -> day_of_week e = None) /\
     (forall y m d : Z,
        1 <= y <= 9999 -> 1 <= m <= 12 -> 1 <= d <= 31 ->
        e_event_ts e = Some (date_text y m d) ->
        day_of_week e = weekday_names !! Z.to_nat (weekday_of_date y m d)) /\
     (forall (y m d h mi s : Z) (sep : ascii),
        1 <= y <= 9999 -> 1 <= m <= 12 -> 1 <= d <= 31 ->
        0 <= h <= 23 -> 0 <= mi <= 59 -> 0 <= s <= 59 ->
        sep = "T"%char \/ sep = " "%char ->
        e_event_ts e =
          Some (date_text y m d +:+ String sep (time_text h mi s)) ->
        day_of_week e = weekday_names !! Z.to_nat (weekday_of_date y m d)) /\
     (forall ts : string,
        e_event_ts e = Some ts ->
        digits_ahead 2 (snd (split_sign (c_text ts))) = false ->
        long_fraction (c_text ts) = false ->
        numeric_or_now (c_text ts) = false ->
        day_of_week e = None) /\
     (forall i : Z,
        strftime_w (e_event_ts e) = Some i -> 0 <= i <= 6 ->
        day_of_week e = weekday_names !! Z.to_nat i) /\
     (strftime_w (e_event_ts e) = None -> day_of_week e = None)) /\
  (exists (w1 w2 : world) (c : counters) (e : event_row),
     ingest_event "/data/events/a.json" scenario_record no_counts fresh_world
       = (w1, Ok c) /\
     r_event_type <$> raw_events (view w1) = [Some "comment"] /\
     run_transformations w1 = (w2, Ok tt) /\
     events (view w2) !! "e1" = Some e /\
     e_event_ts e = Some "2024-03-04T10:00:00" /\
     day_of_week e = Some "Monday" /\
     comment_text e = Some "hi").
Proof.
  split.
  - intros w w' id e Hrun%transform_events_inv Hnew He.
    destruct (events_insert_inv _ _ Hrun) as (_ & _ & _ & _ & _ & Hrow).
    destruct (Hrow id e He Hnew) as (r & pk & ty & _ & _ & _ & ->).
    cbn [event_of_raw day_of_week e_event_ts]. split_and!.
    + by intros ->.
    + intros y m d Hy Hm Hd ->. by apply day_of_week_expr_date.
    + intros y m d h mi s sep Hy Hm Hd Hh Hmi Hs Hsep ->.
      by apply day_of_week_expr_date_time.
    + intros ts -> Hd Hl Hn. unfold day_of_week_expr.
      by rewrite strftime_w_not_a_date.
    + unfold day_of_week_expr. intros i -> Hi. cbn [mbind option_bind].
      by apply weekday_name_lookup.
    + unfold day_of_week_expr. by intros ->.
  - eexists _, _, _, _. split; [vm_compute; reflexivity|].
    split; [vm_compute; reflexivity|]. split; [vm_compute; reflexivity|].
    split; [vm_compute; reflexivity|]. by split_and!.
Qed.

(** *** Atomicity *)

Lemma find_new_files_pure (w : world) :
  exists new_files already, find_new_files w = (w, Ok (new_files, already)).
Proof. unfold find_new_files. destruct events_dir; eauto. Qed.

Lemma rollback_quietly_keeps (w : world) :
  store (close (rollback_quietly w)) = store w /\
  checkpoint_file (close (rollback_quietly w)) = checkpoint_file w /\
  txn (close (rollback_quietly w)) = None.
Proof. unfold rollback_quietly, rollback. by destruct (txn w). Qed.

Lemma ingest_event_txn (source_file : string) (ev : record) (c : counters)
    (w w' : world) (r : result counters) :
  ingest_event source_file ev c w = (w', r) ->
  is_Some (txn w) -> is_Some (txn w').
Proof.
  unfold ingest_event. run.
  destruct (is_blank (to_str (get ev "event_id"))); [by intros [= <- _]|].
  destruct (is_blank (to_str (get ev "event_type"))); simpl;
    [by intros [= <- _]|].
  unfold execute, insert_or_ignore_raw. simpl. intros [= <- _] _. by eexists.
Qed.

Lemma ingest_events_txn (source_file : string) (events : list record)
    (c : counters) (w w' : world) (r : result counters) :
  ingest_events source_file events c w = (w', r) ->
  is_Some (txn w) -> is_Some (txn w').
Proof.
  revert c w w' r. induction events as [|ev events IH]; intros c w w' r; simpl.
  - by intros [= <- _].
  - run. destruct (ingest_event source_file ev c w) as [w1 [c1|e1]] eqn:E1.
    + intros E2 Ht. eapply IH; [exact E2|]. by eapply ingest_event_txn.
    + intros [= <- _] Ht. by eapply ingest_event_txn.
Qed.

Lemma ingest_raw_txn (files : list path) (w w' : world)
    (r : result (list string * list report)) :
  ingest_raw files w = (w', r) -> is_Some (txn w) -> is_Some (txn w').
Proof.
  revert w w' r. induction files as [|f files IH]; intros w w' r; simpl; run.
  - by intros [= <- _].
  - destruct (read_event_file f) as [events|e]; [|by intros [= <- _]].
    destruct (ingest_events (resolve f) events no_counts w)
      as [w1 [c1|e1]] eqn:E1.
    + destruct (ingest_raw files w1) as [w2 r2] eqn:E2.
      intros Hr Ht. assert (w' = w2) as ->
        by (destruct r2 as [[? ?]|?]; congruence).
      eapply IH; [exact E2|]. by eapply ingest_events_txn.
    + intros [= <- _] Ht. by eapply ingest_events_txn.
Qed.

(** A run of [main] that has a file to ingest, step by step. *)
Lemma main_new_files (w : world) (f : path) (files : list path)
    (already : list string) :
  find_new_files w = (w, Ok (f :: files, already)) ->
  main w =
  match ingest_raw (f :: files)
          {| store := store w; txn := Some (store w);
             checkpoint_file := checkpoint_file w |} with
  | (w1, Ok (processed, _)) =>
      match normalize (view w1) with
      | Ok d =>
          let '(ck, r) := append_checkpoint processed (checkpoint_file w) in
          ({| store := d; txn := None; checkpoint_file := ck |},
           match r with
           | Ok _ => Ok (Some (length (raw_events d), size (users d),
                               size (documents d), size (events d)))
           | Raise e => Raise e
           end)
      | Raise e =>
          ({| store := store w; txn := None;
              checkpoint_file := checkpoint_file w |}, Raise e)
      end
  | (w1, Raise e) =>
      ({| store := store w; txn := None;
          checkpoint_file := checkpoint_file w |}, Raise e)
  end.
Proof.
  intros Hfind. unfold main, mbind, M_bind. rewrite Hfind.
  unfold try_except_reraise_finally, init_schema, begin_, mret, M_ret.
  cbn [connect_db txn store checkpoint_file].
  destruct (ingest_raw (f :: files) _) as [w1 r1] eqn:E1.
  destruct (ingest_raw_grows _ _ _ _ E1) as (Hs1 & Hc1 & _).
  destruct (ingest_raw_txn _ _ _ _ E1) as [d1 Ht1]; [by eexists|].
  cbn [store checkpoint_file txn] in Hs1, Hc1.
  destruct r1 as [[processed log]|e1].
  2:{ unfold rollback_quietly, rollback, close. rewrite Ht1.
      cbn [fst store txn checkpoint_file]. by rewrite Hs1, Hc1. }
  destruct (run_transformations w1) as [w2 r2] eqn:E2.
  apply run_transformations_inv in E2 as (Hs2 & Hc2 & [d Ht2] & Hn).
  assert (Hv : view w2 = d) by (unfold view; by rewrite Ht2).
  rewrite Hv in Hn.
  destruct r2 as [[]|e2]; rewrite Hn.
  - unfold commit. rewrite Ht2. unfold save_checkpoint_file, metrics.
    cbn [store txn checkpoint_file]. rewrite Hc2, Hc1.
    destruct (append_checkpoint processed (checkpoint_file w))
      as [ck [[]|e]].
    + unfold close, view. by cbn [store txn checkpoint_file default].
    + unfold rollback_quietly, rollback, close.
      by cbn [fst store txn checkpoint_file].
  - unfold rollback_quietly, rollback, close. rewrite Ht2.
    cbn [fst store txn checkpoint_file]. by rewrite Hs2, Hs1, Hc2, Hc1.
Qed.

Lemma main_commit (w w' : world) (counts : nat * nat * nat * nat) :
  main w = (w', Ok (Some counts)) ->
  exists (new_files : list path) (already : list string) (w1 w2 : world)
         (r : list string * list report),
    find_new_files w = (w, Ok (new_files, already)) /\
    ingest_raw new_files
      {| store := store w; txn := Some (store w);
         checkpoint_file := checkpoint_file w |} = (w1, Ok r) /\
    run_transformations w1 = (w2, Ok tt) /\
    store w' = view w2 /\
    checkpoint_file w' = save_checkpoint (fst r) (checkpoint_file w) /\
    txn w' = None.
Proof.
  destruct (find_new_files_pure w) as (new_files & already & Hfind).
  destruct new_files as [|f files].
  { unfold main, mbind, M_bind. rewrite Hfind. discriminate. }
  rewrite (main_new_files _ _ _ _ Hfind).
  destruct (ingest_raw (f :: files) _) as [w1 [[processed log]|e1]] eqn:E1;
    [|discriminate].
  destruct (run_transformations w1) as [w2 r2] eqn:E2.
  destruct (run_transformations_inv _ _ _ E2) as (_ & _ & _ & Hn).
  destruct r2 as [[]|e2]; rewrite Hn; [|discriminate].
  unfold append_checkpoint.
  destruct (checkpoint_append _ _); [|discriminate|discriminate].
  intros [= <- _].
  exists (f :: files), already, w1, w2, (processed, log). by split_and!.
Qed.

Lemma task_ingest_raw_spec (f : path) (files : list path) (w : world) :
  task_ingest_raw (f :: files) w =
  match ingest_raw (f :: files)
          {| store := store w; txn := Some (store w);
             checkpoint_file := checkpoint_file w |} with
  | (w1, Ok (processed, _)) =>
      ({| store := view w1; txn := None;
          checkpoint_file := checkpoint_file w |}, Ok processed)
  | (w1, Raise e) =>
      ({| store := store w; txn := None;
          checkpoint_file := checkpoint_file w |}, Raise e)
  end.
Proof.
  unfold task_ingest_raw, try_except_reraise_finally, mbind, M_bind,
    init_schema, begin_, mret, M_ret.
  cbn [connect_db txn store checkpoint_file].
  destruct (ingest_raw (f :: files) _) as [w1 r1] eqn:E1.
  destruct (ingest_raw_grows _ _ _ _ E1) as (Hs1 & Hc1 & _).
  destruct (ingest_raw_txn _ _ _ _ E1) as [d1 Ht1]; [by eexists|].
  cbn [store checkpoint_file txn] in Hs1, Hc1.
  destruct r1 as [[processed log]|e1].
  - unfold commit, close, view. rewrite Ht1.
    cbn [store txn checkpoint_file default]. by rewrite Hc1.
  - unfold rollback_quietly, rollback, close. rewrite Ht1.
    cbn [fst store txn checkpoint_file]. by rewrite Hs1, Hc1.
Qed.

Lemma dag_run_new_files (w : world) (f : path) (files : list path)
    (already : list string) :
  find_new_files w = (w, Ok (f :: files, already)) ->
  dag_run w =
  match ingest_raw (f :: files)
          {| store := store w; txn := Some (store w);
             checkpoint_file := checkpoint_file w |} with
  | (w1, Ok (processed, _)) =>
      match normalize (view w1) with
      | Ok d =>
          let '(ck, r) := append_checkpoint processed (checkpoint_file w) in
          ({| store := d; txn := None; checkpoint_file := ck |}, r)
      | Raise e =>
          ({| store := view w1; txn := None;
              checkpoint_file := checkpoint_file w |}, Raise e)
      end
  | (w1, Raise e) =>
      ({| store := store w; txn := None;
          checkpoint_file := checkpoint_file w |}, Raise e)
  end.
Proof.
  intros Hfind. unfold dag_run, task_find_new_files, mbind, M_bind.
  rewrite Hfind. unfold mret, M_ret. rewrite task_ingest_raw_spec.
  destruct (ingest_raw (f :: files) _) as [w1 [[processed log]|e1]] eqn:E1;
    [|done].
  rewrite task_transform_spec. cbn [store checkpoint_file].
  destruct (normalize (view w1)) as [d|e]; [|done].
  apply ingest_raw_processed in E1 as ->.
  unfold task_checkpoint, save_checkpoint_file. cbn [fmap list_fmap].
  cbn [store txn checkpoint_file].
  by destruct (append_checkpoint _ _) as [ck [[]|e]].
Qed.

Lemma dag_run_no_new_file (w : world) (already : list string) :
  find_new_files w = (w, Ok ([], already)) ->
  dag_run w =
  match normalize (store w) with
  | Ok d =>
      ({| store := d; txn := None; checkpoint_file := checkpoint_file w |},
       Ok tt)
  | Raise e =>
      ({| store := store w; txn := None;
          checkpoint_file := checkpoint_file w |}, Raise e)
  end.
Proof.
  intros Hfind. unfold dag_run, task_find_new_files, mbind, M_bind.
  rewrite Hfind. unfold mret, M_ret. cbn [task_ingest_raw].
  unfold mret, M_ret. rewrite task_transform_spec.
  by destruct (normalize (store w)).
Qed.

(** C1, as amended: a run of [main] in which ingestion or normalisation
    raises, which is before the commit, leaves the database and the checkpoint
    file as they were before the run, and a run of [main] that ends well has
    committed the rows of the ingestion and the updates of the normalisation
    in one commit, and then appended the processed paths to the checkpoint.
    The one other exception of a run is that of [save_checkpoint], after the
    commit: the database is then as committed. In the run of the DAG each
    task has its own transaction: an exception in the ingestion task leaves
    the database as it was, an exception in the transformation task undoes the
    normalisation only and leaves the database as the ingestion task committed
    it, and in both cases the checkpoint file is as it was; an exception in
    the checkpoint task leaves the database as the transformation task
    committed it. *)
Theorem failed_run_is_rolled_back :
  (forall (w w' : world) (e : exn),
     main w = (w', Raise e) ->
     exists (new_files : list path) (already : list string) (w1 : world)
            (r1 : result (list string * list report)),
       find_new_files w = (w, Ok (new_files, already)) /\
       ingest_raw new_files
         {| store := store w; txn := Some (store w);
            checkpoint_file := checkpoint_file w |} = (w1, r1) /\
       match r1 with
       | Raise e1 =>
           e1 = e /\ store w' = store w /\
           checkpoint_file w' = checkpoint_file w
       | Ok (processed, _) =>
           exists (w2 : world) (r2 : result unit),
             run_transformations w1 = (w2, r2) /\
             match r2 with
             | Raise e2 =>
                 e2 = e /\ store w' = store w /\
                 checkpoint_file w' = checkpoint_file w
             | Ok _ =>
                 store w' = view w2 /\
                 append_checkpoint processed (checkpoint_file w)
                   = (checkpoint_file w', Raise e)
             end
       end) /\
  (forall (w w' : world) (counts : nat * nat * nat * nat),
     main w = (w', Ok (Some counts)) ->
     exists (new_files : list path) (already : list string) (w1 w2 : world)
            (r : list string * list report),
       find_new_files w = (w, Ok (new_files, already)) /\
       ingest_raw new_files
         {| store := store w; txn := Some (store w);
            checkpoint_file := checkpoint_file w |} = (w1, Ok r) /\
       run_transformations w1 = (w2, Ok tt) /\
       store w' = view w2 /\
       checkpoint_file w' = save_checkpoint (fst r) (checkpoint_file w)) /\
  (forall (w w' : world) (e : exn),
     dag_run w = (w', Raise e) ->
     exists (new_files : list string) (w1 : world) (r1 : result (list string)),
       task_find_new_files w = (w, Ok new_files) /\
       task_ingest_raw new_files w = (w1, r1) /\
       match r1 with
       | Raise e1 =>
           e1 = e /\ w' = w1 /\ store w' = store w /\
           checkpoint_file w' = checkpoint_file w
       | Ok processed =>
           exists (w2 : world) (r2 : result unit),
             task_transform w1 = (w2, r2) /\
             match r2 with
             | Raise e2 =>
                 e2 = e /\ w' = w2 /\ store w' = store w1 /\
                 checkpoint_file w' = checkpoint_file w
             | Ok _ =>
                 task_checkpoint processed w2 = (w', Raise e) /\
                 store w' = store w2
             end
       end).
Proof.
  split_and!.
  - intros w w' e.
    destruct (find_new_files_pure w) as (new_files & already & Hfind).
    destruct new_files as [|f files].
    { unfold main, mbind, M_bind. rewrite Hfind. discriminate. }
    rewrite (main_new_files _ _ _ _ Hfind).
    destruct (ingest_raw (f :: files) _) as [w1 r1] eqn:E1.
    intros Hmain. exists (f :: files), already, w1, r1.
    split; [done|]. split; [done|].
    destruct r1 as [[processed log]|e1].
    2:{ by injection Hmain as <- <-. }
    destruct (run_transformations w1) as [w2 r2] eqn:E2.
    destruct (run_transformations_inv _ _ _ E2) as (_ & _ & _ & Hn).
    exists w2, r2. split; [done|].
    destruct r2 as [[]|e2]; rewrite Hn in Hmain.
    + destruct (append_checkpoint processed (checkpoint_file w))
        as [ck [[]|e0]]; [discriminate|].
      by injection Hmain as <- <-.
    + by injection Hmain as <- <-.
  - intros w w' counts
      (new_files & already & w1 & w2 & r & H1 & H2 & H3 & H4 & H5 & _)
      %main_commit.
    by exists new_files, already, w1, w2, r.
  - intros w w' e. unfold dag_run, task_find_new_files, mbind, M_bind.
    destruct (find_new_files_pure w) as (new_files & already & ->).
    unfold mret, M_ret.
    destruct (task_ingest_raw new_files w) as [w1 r1] eqn:E1.
    intros Hrun. exists new_files, w1, r1. split; [done|]. split; [done|].
    destruct r1 as [processed|e1].
    + destruct (task_transform w1) as [w2 r2] eqn:E2.
      exists w2, r2. split; [done|].
      assert (Hc1 : checkpoint_file w1 = checkpoint_file w).
      { destruct new_files as [|f files].
        - by injection E1 as <- _.
        - rewrite task_ingest_raw_spec in E1.
          destruct (ingest_raw (f :: files) _) as [w0 [[? ?]|?]];
            by injection E1 as <- _. }
      rewrite task_transform_spec in E2.
      destruct r2 as [[]|e2].
      * split; [done|].
        unfold task_checkpoint in Hrun. destruct processed as [|q qs].
        { discriminate. }
        unfold save_checkpoint_file in Hrun.
        destruct (append_checkpoint _ _) as [ck r]. by injection Hrun as <- _.
      * destruct (normalize (store w1)) as [d|e0]; [discriminate|].
        injection E2 as <- <-. injection Hrun as <- <-. by split_and!.
    + injection Hrun as <- <-.
      destruct new_files as [|f files]; [discriminate|].
      rewrite task_ingest_raw_spec in E1.
      destruct (ingest_raw (f :: files) _) as [w0 [[? ?]|?]];
        [discriminate|].
      injection E1 as <- _. by split_and!.
Qed.

(** ** Further properties *)

(** *** Trimming *)

Lemma rstrip_cons_nonspace (c : ascii) (s : string) :
  is_space c = false -> rstrip (String c s) = String c (rstrip s).
Proof. intros Hc. simpl. rewrite Hc. by destruct (rstrip s). Qed.

Lemma rstrip_idemp (s : string) : rstrip (rstrip s) = rstrip s.
Proof.
  induction s as [|c s IH]; [done|]. simpl.
  destruct (rstrip s) as [|c' t] eqn:E.
  - destruct (is_space c) eqn:Hc; [done|]. simpl. by rewrite Hc.
  - change (rstrip (String c (String c' t)))
      with (match rstrip (String c' t) with
            | EmptyString =>
                if is_space c then EmptyString else String c EmptyString
            | u => String c u
            end).
    by rewrite IH.
Qed.

Lemma lstrip_head (s : string) :
  lstrip s = "" \/ exists c t, lstrip s = String c t /\ is_space c = false.
Proof.
  induction s as [|c s IH]; [by left|]. simpl.
  destruct (is_space c) eqn:Hc; [done|]. right. eauto.
Qed.

Lemma lstrip_nonspace (c : ascii) (s : string) :
  is_space c = false -> lstrip (String c s) = String c s.
Proof. intros Hc. simpl. by rewrite Hc. Qed.

Lemma strip_trimmed (s : string) : trimmed (strip s).
Proof.
  unfold trimmed, strip. split; [|apply rstrip_idemp].
  destruct (lstrip_head s) as [->|(c & t & -> & Hc)]; [done|].
  rewrite rstrip_cons_nonspace by done. by apply lstrip_nonspace.
Qed.

Lemma strip_idemp (s : string) : strip (strip s) = strip s.
Proof.
  destruct (strip_trimmed s) as [Hl Hr]. unfold strip at 1.
  by rewrite Hl, Hr.
Qed.

Lemma rstrip_empty (s : string) : rstrip s = "" -> all_space s = true.
Proof.
  induction s as [|c s IH]; [done|]. simpl.
  destruct (rstrip s) as [|c' t]; [|discriminate].
  destruct (is_space c); [|discriminate]. intros _. by rewrite IH.
Qed.

Lemma strip_empty (s : string) : strip s = "" <-> all_space s = true.
Proof.
  split; [|apply strip_all_space]. unfold strip.
  induction s as [|c s IH]; [done|]. simpl.
  destruct (is_space c) eqn:Hc; [done|].
  rewrite <- (lstrip_nonspace c s Hc). intros H%rstrip_empty.
  rewrite lstrip_nonspace in H by done. simpl in H. by rewrite Hc in H.
Qed.

Lemma lower_empty (s : string) : lower s = "" -> s = "".
Proof. by destruct s. Qed.

(** X1: [to_str] gives no value exactly for [None] and for a value whose text
    is empty or white space; a value it gives is not empty, has no white space
    at either end, and is given again when [to_str] is applied to it. *)
Theorem to_str_trimmed (v : json) :
  (to_str v = None <-> v = JNull \/ all_space (py_str v) = true) /\
  (forall s : string,
     to_str v = Some s ->
     s <> "" /\ trimmed s /\ to_str (JStr s) = Some s).
Proof.
  assert (H : forall x, (if String.eqb (strip x) "" then None
                         else Some (strip x)) = None <-> all_space x = true).
  { intros x. rewrite <- strip_empty.
    destruct (String.eqb_spec (strip x) ""); split; congruence. }
  assert (G : forall x s, (if String.eqb (strip x) "" then None
                           else Some (strip x)) = Some s ->
                          s <> "" /\ trimmed s /\ to_str (JStr s) = Some s).
  { intros x s. destruct (String.eqb_spec (strip x) "") as [|Hne];
      [discriminate|]. intros [= <-]. split; [done|].
    split; [apply strip_trimmed|]. unfold to_str, py_str.
    rewrite strip_idemp. by destruct (String.eqb_spec (strip x) ""). }
  split.
  - destruct v; simpl; try (rewrite H; clear; split; [by right|];
      intros [?|?]; congruence).
    split; [by left|done].
  - intros s. destruct v; simpl; try apply G. discriminate.
Qed.

(** *** Raw ingestion *)

Lemma has_event_id_elem (id : string) (raw : list raw_row) :
  has_event_id id raw = true <-> id ∈ r_event_id <$> raw.
Proof.
  unfold has_event_id. induction raw as [|r raw IH]; simpl.
  - split; [discriminate|]. intros H. by apply not_elem_of_nil in H.
  - rewrite orb_true_iff, IH, String.eqb_eq, elem_of_cons.
    split; (intros [?|?]; [by left|by right]).
Qed.

Lemma appends_refl (P : raw_row -> Prop) (w : world) : appends P w w.
Proof.
  unfold appends. split_and!; try done. exists [].
  by rewrite (right_id_L [] (++)).
Qed.

Lemma appends_trans (P : raw_row -> Prop) (w1 w2 w3 : world) :
  appends P w1 w2 -> appends P w2 w3 -> appends P w1 w3.
Proof.
  intros (S1 & C1 & T1 & U1 & D1 & E1 & Q1 & N1 & a1 & R1 & F1)
         (S2 & C2 & T2 & U2 & D2 & E2 & Q2 & N2 & a2 & R2 & F2).
  unfold appends. split_and!; try congruence; try tauto.
  exists (a1 ++ a2). split.
  - by rewrite R2, R1, (assoc_L (++)).
  - by apply Forall_app.
Qed.

Lemma appends_mono (P Q : raw_row -> Prop) (w w' : world) :
  (forall r, P r -> Q r) -> appends P w w' -> appends Q w w'.
Proof.
  intros HPQ (S1 & C1 & T1 & U1 & D1 & E1 & Q1 & N1 & a1 & R1 & F1).
  unfold appends. split_and!; try done. exists a1. split; [done|].
  eapply Forall_impl; eauto.
Qed.

Lemma to_str_Some (v : json) (s : string) :
  to_str v = Some s -> s <> "" /\ trimmed s.
Proof.
  unfold to_str.
  assert (G : forall x, (if String.eqb (strip x) "" then None
                         else Some (strip x)) = Some s ->
                        s <> "" /\ trimmed s).
  { intros x. destruct (String.eqb_spec (strip x) "") as [|Hne];
      [discriminate|]. intros [= <-]. split; [done|apply strip_trimmed]. }
  destruct v; try apply G. discriminate.
Qed.

Lemma lower_char_lowered (c : ascii) :
  code (lower_char c) = if is_upper c then (code c + 32)%N else code c.
Proof. destruct c as [[] [] [] [] [] [] [] []]; reflexivity. Qed.

Lemma lower_lowered (s : string) : lowered s (lower s).
Proof.
  unfold lowered. induction s as [|c s IH]; simpl; [constructor|].
  constructor; [apply lower_char_lowered | exact IH].
Qed.

(** C7: a record whose [event_id] is missing, empty or white space adds no
    row and counts as skipped for its id; one with an [event_id] whose
    [event_type] is missing, empty or white space adds no row and counts as
    skipped for its type; for a record that has both, when the [INSERT] ends
    well, the record counts as inserted and its row has the trimmed text of
    the [event_id] and, as [event_type], the trimmed text of the type in
    lower case, each upper-case letter replaced by its lower-case letter and
    nothing else changed; the row is added at the end of [raw_events] unless
    a row of that [event_id] is there already, in which case the table is
    left as it was. *)
Theorem ingest_event_admission (source_file : string) (ev : record)
    (c : counters) (w : world) :
  (missing_or_blank ev "event_id" ->
   ingest_event source_file ev c w =
   (w, Ok {| inserted_rows := inserted_rows c;
             skipped_missing_id := S (skipped_missing_id c);
             skipped_missing_type := skipped_missing_type c |})) /\
  (forall id : string,
     to_str (get ev "event_id") = Some id ->
     missing_or_blank ev "event_type" ->
     ingest_event source_file ev c w =
     (w, Ok {| inserted_rows := inserted_rows c;
               skipped_missing_id := skipped_missing_id c;
               skipped_missing_type := S (skipped_missing_type c) |})) /\
  (forall (id ty : string) (w' : world) (c' : counters),
     to_str (get ev "event_id") = Some id ->
     to_str (get ev "event_type") = Some ty ->
     ingest_event source_file ev c w = (w', Ok c') ->
     c' = {| inserted_rows := S (inserted_rows c);
             skipped_missing_id := skipped_missing_id c;
             skipped_missing_type := skipped_missing_type c |} /\
     exists (row : raw_row) (t : string),
       r_event_id row = id /\
       r_event_type row = Some t /\ lowered ty t /\
       raw_events (view w') =
         if has_event_id id (raw_events (view w))
         then raw_events (view w)
         else raw_events (view w) ++ [row]).
Proof.
  split_and!.
  - intros H. unfold ingest_event.
    by rewrite (to_str_missing_or_blank _ _ H).
  - intros id Hid H. unfold ingest_event.
    rewrite Hid, (to_str_not_blank _ _ Hid).
    by rewrite (to_str_missing_or_blank _ _ H).
  - intros id ty w' c' Hid Hty. unfold ingest_event.
    rewrite Hid, Hty, (to_str_not_blank _ _ Hid), (to_str_not_blank _ _ Hty).
    run. unfold execute, insert_or_ignore_raw. simpl. intros [= <- <-].
    split; [done|].
    destruct (to_str_Some _ _ Hty) as [_ [Hl Hr]].
    exists {| r_event_id := id;
              r_event_type := Some (lower (strip ty));
              r_event_ts := parse_timestamp_candidates ev;
              r_user_id :=
                to_str (py_or (get ev "user_id")
                              (py_or (get ev "userId") (get ev "uid")));
              r_document_id :=
                to_str (py_or (get ev "document_id")
                              (py_or (get ev "documentId") (get ev "doc_id")));
              r_source_file := Some source_file;
              r_raw_json := JObj ev |}, (lower (strip ty)).
    split; [reflexivity|]. split; [reflexivity|]. split.
    + replace (strip ty) with ty at 1 by (unfold strip; by rewrite Hl, Hr).
      apply lower_lowered.
    + simpl. by destruct (has_event_id id (raw_events (view w))).
Qed.

Lemma ingest_event_appends (source_file : string) (ev : record) (c : counters)
    (w : world) :
  exists (w' : world) (c' : counters),
    ingest_event source_file ev c w = (w', Ok c') /\
    appends (admitted_as source_file ev) w w' /\
    counted c' = S (counted c).
Proof.
  unfold ingest_event. run.
  destruct (to_str (get ev "event_id")) as [id|] eqn:Hid; simpl.
  2:{ eexists _, _. split; [reflexivity|]. split; [apply appends_refl|].
      unfold counted. simpl. lia. }
  pose proof (to_str_not_blank _ _ Hid) as Hb1. simpl in Hb1. rewrite Hb1.
  destruct (to_str (get ev "event_type")) as [ty|] eqn:Hty; simpl.
  2:{ eexists _, _. split; [reflexivity|]. split; [apply appends_refl|].
      unfold counted. simpl. lia. }
  pose proof (to_str_not_blank _ _ Hty) as Hb2. simpl in Hb2. rewrite Hb2.
  unfold execute, insert_or_ignore_raw. simpl.
  eexists _, _. split; [reflexivity|]. split; [|unfold counted; simpl; lia].
  unfold appends. simpl_view. cbn [store checkpoint_file txn].
  destruct (has_event_id id (raw_events (view w))) eqn:Hhas.
  - split_and!; try done. exists []. by rewrite (right_id_L [] (++)).
  - split_and!; try done.
    + intros Hnd. cbn. rewrite fmap_app. apply NoDup_app. split; [done|].
      split; [|apply NoDup_singleton].
      intros x Hx [->|[]%not_elem_of_nil]%elem_of_cons.
      apply has_event_id_elem in Hx. simpl in Hx. congruence.
    + eexists. split; [reflexivity|]. apply Forall_singleton.
      unfold admitted_as. simpl. split_and!; try done. by exists ty.
Qed.

Lemma ingest_events_appends (source_file : string) (events : list record)
    (c : counters) (w : world) :
  exists (w' : world) (c' : counters),
    ingest_events source_file events c w = (w', Ok c') /\
    appends (fun row => exists ev, ev ∈ events /\
                                   admitted_as source_file ev row) w w' /\
    counted c' = (counted c + length events)%nat.
Proof.
  revert c w. induction events as [|ev events IH]; intros c w; simpl.
  - eexists _, _. split; [reflexivity|]. split; [apply appends_refl|lia].
  - run.
    destruct (ingest_event_appends source_file ev c w)
      as (w1 & c1 & -> & A1 & N1).
    destruct (IH c1 w1) as (w2 & c2 & -> & A2 & N2).
    eexists _, _. split; [reflexivity|]. split; [|lia].
    eapply appends_trans.
    + eapply appends_mono; [|exact A1]. intros r Hr. exists ev.
      split; [by left|done].
    + eapply appends_mono; [|exact A2]. intros r (ev' & Hev' & Hr).
      exists ev'. split; [by right|done].
Qed.

Lemma ingest_raw_appends (files : list path) (w w' : world)
    (r : result (list string * list report)) :
  ingest_raw files w = (w', r) ->
  appends (fun row => exists f events ev,
             f ∈ files /\ read_event_file f = Ok events /\ ev ∈ events /\
             admitted_as (resolve f) ev row) w w'.
Proof.
  revert w w' r. induction files as [|f files IH]; intros w w' r; simpl; run.
  - intros [= <- _]. apply appends_refl.
  - destruct (read_event_file f) as [events|e] eqn:Hf.
    2:{ intros [= <- _]. apply appends_refl. }
    destruct (ingest_events_appends (resolve f) events no_counts w)
      as (w1 & c1 & -> & A1 & _).
    destruct (ingest_raw files w1) as [w2 r2] eqn:E. apply IH in E.
    intros Hr. assert (w' = w2) as -> by (destruct r2 as [[? ?]|?]; congruence).
    eapply appends_trans.
    + eapply appends_mono; [|exact A1]. intros row (ev & Hev & Hrow).
      exists f, events, ev. split; [by left|done].
    + eapply appends_mono; [|exact E]. intros row (f' & evs & ev & Hf' & ?).
      exists f', evs, ev. split; [by right|done].
Qed.

Lemma ingest_raw_log (files : list path) (w w' : world)
    (processed : list string) (log : list report) :
  ingest_raw files w = (w', Ok (processed, log)) ->
  rep_file <$> log = files /\
  Forall (fun rep =>
            counted (rep_counters rep) = rep_events rep /\
            exists events, read_event_file (rep_file rep) = Ok events /\
                           rep_events rep = length events) log.
Proof.
  revert w w' processed log.
  induction files as [|f files IH]; intros w w' processed log; simpl; run.
  - by intros [= _ <- <-].
  - destruct (read_event_file f) as [events|e] eqn:Hf; [|discriminate].
    destruct (ingest_events_appends (resolve f) events no_counts w)
      as (w1 & c1 & -> & _ & N1).
    destruct (ingest_raw files w1) as [w2 [[processed' log']|e2]] eqn:E;
      [|discriminate].
    intros [= _ <- <-]. destruct (IH _ _ _ _ E) as [Hfiles Hlog].
    cbn. split; [by rewrite Hfiles|]. apply Forall_cons. split; [|done].
    simpl. split; [exact N1|]. by exists events.
Qed.

(** X2: whatever its outcome, [ingest_raw] only adds rows at the end of
    [raw_events]: the rows that were there stay, in their order, and [users],
    [documents], [events], the database file and the checkpoint file are left
    as they were. *)
Theorem ingest_raw_append_only (files : list path) (w w' : world)
    (r : result (list string * list report)) :
  ingest_raw files w = (w', r) ->
  raw_events (view w) `prefix_of` raw_events (view w') /\
  users (view w') = users (view w) /\
  documents (view w') = documents (view w) /\
  events (view w') = events (view w) /\
  store w' = store w /\ checkpoint_file w' = checkpoint_file w.
Proof.
  intros (S1 & C1 & _ & U1 & D1 & E1 & _ & _ & added & R1 & _)
         %ingest_raw_appends.
  split_and!; try done. by exists added.
Qed.

(** X3: [ingest_raw] keeps [event_id] a key of [raw_events]: when no two rows
    had the same [event_id] before, no two rows have it after, whatever the
    files hold. *)
Theorem ingest_raw_keeps_event_id_unique (files : list path) (w w' : world)
    (r : result (list string * list report)) :
  ingest_raw files w = (w', r) ->
  NoDup (r_event_id <$> raw_events (view w)) ->
  NoDup (r_event_id <$> raw_events (view w')).
Proof. intros (_ & _ & _ & _ & _ & _ & _ & N1 & _)%ingest_raw_appends. done. Qed.

(** X4: every row that [ingest_raw] adds comes from a record of one of the
    files: its [source_file] is the resolved path of that file, its [raw_json]
    is the record, its [event_ts] is what [parse_timestamp_candidates] gives
    for the record, its [event_id] is the trimmed text of the record's
    [event_id], not empty and without white space at either end, and its
    [event_type] is the trimmed text of the record's [event_type] in lower
    case, each upper-case letter replaced by its lower-case letter and
    nothing else changed, and is not empty. *)
Theorem ingest_raw_rows_well_formed (files : list path) (w w' : world)
    (r : result (list string * list report)) :
  ingest_raw files w = (w', r) ->
  exists added : list raw_row,
    raw_events (view w') = raw_events (view w) ++ added /\
    Forall (fun row =>
      exists (f : path) (events : list record) (ev : record) (ty t : string),
        f ∈ files /\ read_event_file f = Ok events /\ ev ∈ events /\
        r_source_file row = Some (resolve f) /\ r_raw_json row = JObj ev /\
        r_event_ts row = parse_timestamp_candidates ev /\
        to_str (get ev "event_id") = Some (r_event_id row) /\
        r_event_id row <> "" /\ trimmed (r_event_id row) /\
        to_str (get ev "event_type") = Some ty /\
        r_event_type row = Some t /\ lowered ty t /\ t <> "") added.
Proof.
  intros (_ & _ & _ & _ & _ & _ & _ & _ & added & R1 & F1)%ingest_raw_appends.
  exists added. split; [done|]. eapply Forall_impl; [exact F1|].
  intros row (f & events & ev & Hf & Hread & Hev & Hid & (ty & Hty & Ht) & Hts
              & _ & _ & Hsrc & Hjson). simpl.
  destruct (to_str_Some _ _ Hid) as [Hne Htrim].
  destruct (to_str_Some _ _ Hty) as [Hty1 [Hl Hr]].
  assert (Hs : strip ty = ty) by (unfold strip; by rewrite Hl, Hr).
  rewrite Hs in Ht.
  exists f, events, ev, ty, (lower ty). split_and!; try done.
  - apply lower_lowered.
  - by intros H%lower_empty.
Qed.

(** X5: the reports of [ingest_raw] are one per file, in the order of the
    files, and each accounts for every record of its file once: inserted plus
    skipped for a missing id plus skipped for a missing type is the number of
    records read. *)
Theorem ingest_raw_reports_count (files : list path) (w w' : world)
    (processed : list string) (log : list report) :
  ingest_raw files w = (w', Ok (processed, log)) ->
  rep_file <$> log = files /\
  Forall (fun rep =>
            (inserted_rows (rep_counters rep)
             + skipped_missing_id (rep_counters rep)
             + skipped_missing_type (rep_counters rep))%nat = rep_events rep /\
            exists events, read_event_file (rep_file rep) = Ok events /\
                           rep_events rep = length events) log.
Proof. apply ingest_raw_log. Qed.

(** X6: a file from which [read_event_file] gets no record (malformed JSON,
    an empty file, a value that is neither an object nor an array, an array
    without objects) adds no row and does not stop the run: the run reaches
    the state it reaches without the file and fails exactly when that one
    does; and the file is among the processed paths, so it is checkpointed
    with the others. *)
Theorem file_without_records_is_passed_over (p : path)
    (before after : list path) (w w1 : world)
    (r1 : result (list string * list report)) :
  read_event_file p = Ok [] ->
  ingest_raw (before ++ p :: after) w = (w1, r1) ->
  exists r2 : result (list string * list report),
    ingest_raw (before ++ after) w = (w1, r2) /\
    (forall e, r1 = Raise e <-> r2 = Raise e) /\
    (forall processed log, r1 = Ok (processed, log) -> resolve p ∈ processed).
Proof.
  intros Hp Hrun.
  assert (Hmain : exists r2, ingest_raw (before ++ after) w = (w1, r2) /\
                             forall e, r1 = Raise e <-> r2 = Raise e).
  { revert w w1 r1 Hrun.
    induction before as [|f before IH]; intros w w1 r1; simpl; run.
    - rewrite Hp. simpl.
      destruct (ingest_raw after w) as [w2 [[processed log]|e2]];
        intros [= <- <-]; eexists; (split; [reflexivity|]); intros e;
        split; congruence.
    - destruct (read_event_file f) as [events|e].
      2:{ intros [= <- <-]. eexists. split; [reflexivity|]. done. }
      destruct (ingest_events _ events no_counts w) as [w2 [c2|e2]].
      2:{ intros [= <- <-]. eexists. split; [reflexivity|]. done. }
      destruct (ingest_raw (before ++ p :: after) w2) as [w3 r3] eqn:E.
      destruct (IH _ _ _ E) as (r4 & -> & Hiff).
      destruct r3 as [[pr3 log3]|e3], r4 as [[pr4 log4]|e4];
        intros [= <- <-]; eexists; (split; [reflexivity|]); intros e;
        try (split; congruence).
      + discriminate (proj2 (Hiff e4) eq_refl).
      + discriminate (proj1 (Hiff e3) eq_refl).
      + by injection (proj1 (Hiff e3) eq_refl) as ->. }
  destruct Hmain as (r2 & Hrun2 & Hiff). exists r2. split_and!; try done.
  intros processed log ->. apply ingest_raw_processed in Hrun as ->.
  apply list_elem_of_fmap_2, elem_of_app. right. by left.
Qed.

(** *** The checkpoint, read back *)

Lemma splitlines_lines_text (lines : list string) :
  Forall (fun l => no_linebreak l = true) lines ->
  splitlines (lines_text lines) = lines.
Proof.
  unfold splitlines. induction 1 as [|l lines Hl _ IH]; [done|]. simpl.
  rewrite splitlines_from_line by done. by rewrite IH.
Qed.

Lemma load_checkpoint_text (ck : checkpoint) :
  load_checkpoint ck = splitlines (default "" ck).
Proof. by destruct ck. Qed.

Lemma load_save_checkpoint (paths : list string) (ck : checkpoint) :
  written ck ->
  load_checkpoint (save_checkpoint paths ck) =
  load_checkpoint ck ++ splitlines (lines_text paths).
Proof.
  intros (lines & Hlines)%written_lines.
  rewrite (load_checkpoint_text ck), Hlines. simpl.
  by rewrite save_checkpoint_text, Hlines, splitlines_lines_text_app.
Qed.

Lemma filter_none {A : Type} (P : A -> Prop) `{forall x, Decision (P x)}
    (l : list A) :
  (forall x, x ∈ l -> ~ P x) -> filter P l = [].
Proof.
  induction l as [|x l IH]; intros Hall; [done|].
  rewrite filter_cons_False by (apply Hall; by left).
  apply IH. intros y Hy. apply Hall. by right.
Qed.

(** X7: on a checkpoint file that only [save_checkpoint] has written,
    [save_checkpoint] loses no entry, whatever the paths it adds: what
    [load_checkpoint] read before is the beginning of what it reads after. And
    when the added paths have no line boundary in them, it reads exactly the
    old entries followed by the added paths. *)
Theorem checkpoint_round_trip (paths : list string) (ck : checkpoint) :
  written ck ->
  load_checkpoint ck `prefix_of` load_checkpoint (save_checkpoint paths ck) /\
  (Forall (fun q => no_linebreak q = true) paths ->
   load_checkpoint (save_checkpoint paths ck) = load_checkpoint ck ++ paths).
Proof.
  intros Hw. rewrite (load_save_checkpoint _ _ Hw). split.
  - by eexists.
  - intros Hclean. by rewrite splitlines_lines_text.
Qed.

(** X8: after a run of [main] that succeeded, on a checkpoint file that only
    [save_checkpoint] writes and with files whose resolved paths have no line
    boundary in them, the next discovery finds no new file and the next run
    of [main] does nothing: no file is ingested twice. *)
Theorem second_run_has_nothing_to_ingest (w w' : world)
    (counts : nat * nat * nat * nat) :
  main w = (w', Ok (Some counts)) ->
  written (checkpoint_file w) ->
  (forall p, p ∈ default [] events_dir -> no_linebreak (resolve p) = true) ->
  find_new_files w' = (w', Ok ([], load_checkpoint (checkpoint_file w'))) /\
  main w' = (w', Ok None).
Proof.
  intros (new_files & already & w1 & w2 & [processed log] & Hfind & Hing & _
          & _ & Hck & _)%main_commit Hw Hclean.
  apply ingest_raw_processed in Hing. simpl in Hck. subst processed.
  assert (Hnone : find_new_files w'
                  = (w', Ok ([], load_checkpoint (checkpoint_file w')))).
  { revert Hfind. unfold find_new_files.
    destruct events_dir as [all_files|]; [|done]. intros [= Hnew _].
    do 2 f_equal. f_equal. apply filter_none. intros p Hp Hnot.
    apply Hnot. rewrite Hck, (load_save_checkpoint _ _ Hw).
    rewrite splitlines_lines_text.
    2:{ apply Forall_fmap, Forall_forall. intros q Hq. simpl.
        apply Hclean. simpl. rewrite <- Hnew in Hq.
        by apply list_elem_of_filter in Hq as [_ ?]. }
    apply elem_of_app.
    destruct (decide (resolve p ∈ load_checkpoint (checkpoint_file w)))
      as [?|Hnew']; [by left|]. right.
    apply list_elem_of_fmap_2. rewrite <- Hnew. by apply list_elem_of_filter. }
  split; [done|]. unfold main, mbind, M_bind. by rewrite Hnone.
Qed.

(** *** Users *)

Lemma str_leb_refl (a : string) : str_leb a a = true.
Proof.
  induction a as [|x a IH]; [done|]. simpl. by rewrite N.ltb_irrefl.
Qed.

Lemma str_leb_total (a b : string) : str_leb a b = true \/ str_leb b a = true.
Proof.
  revert b. induction a as [|x a IH]; intros [|y b]; simpl; auto.
  destruct (N.ltb_spec (code x) (code y)), (N.ltb_spec (code y) (code x));
    auto; lia.
Qed.

Lemma str_leb_trans (a b c : string) :
  str_leb a b = true -> str_leb b c = true -> str_leb a c = true.
Proof.
  revert b c. induction a as [|x a IH]; intros [|y b] [|z c]; simpl; auto;
    try discriminate.
  destruct (N.ltb_spec (code x) (code y)), (N.ltb_spec (code y) (code x)),
    (N.ltb_spec (code y) (code z)), (N.ltb_spec (code z) (code y)),
    (N.ltb_spec (code x) (code z)), (N.ltb_spec (code z) (code x));
    try discriminate; auto; try lia. apply IH.
Qed.

Lemma foldl_min_step (vs : list (option string)) (acc : option string) :
  match foldl min_step acc vs with
  | None => acc = None /\ forall s, Some s ∉ vs
  | Some m =>
      (acc = Some m \/ Some m ∈ vs) /\
      (forall a, acc = Some a -> str_leb m a = true) /\
      forall s, Some s ∈ vs -> str_leb m s = true
  end.
Proof.
  revert acc. induction vs as [|v vs IH]; intros acc; simpl.
  - destruct acc as [a|].
    + split_and!; [by left| |].
      * intros ? [= <-]. apply str_leb_refl.
      * intros s Hs. by apply not_elem_of_nil in Hs.
    + split; [done|]. intros s. apply not_elem_of_nil.
  - specialize (IH (min_step acc v)).
    destruct (foldl min_step (min_step acc v) vs) as [m|].
    + destruct IH as (Hfrom & Hacc & Hall). split_and!.
      * rewrite elem_of_cons.
        destruct Hfrom as [Hfrom|Hfrom]; [|right; by right].
        unfold min_step in Hfrom. destruct v as [s|], acc as [a|];
          try destruct (str_leb a s);
          first [by left | right; left; congruence | discriminate].
      * intros a ->. unfold min_step in Hacc. destruct v as [s|]; [|by auto].
        destruct (str_leb a s) eqn:E; [by auto|].
        eapply str_leb_trans; [by apply Hacc|].
        destruct (str_leb_total a s); congruence.
      * intros s [[= <-]|Hs]%elem_of_cons; [|by auto].
        unfold min_step in Hacc. destruct acc as [a|]; [|by auto].
        destruct (str_leb a s) eqn:E; [|by auto].
        eapply str_leb_trans; [by apply Hacc|done].
    + destruct IH as (Hacc & Hall). unfold min_step in Hacc.
      destruct v as [s|], acc as [a|]; try discriminate.
      * by destruct (str_leb a s).
      * split; [done|]. intros s [[=]|Hs]%elem_of_cons. by apply (Hall s).
Qed.

Lemma foldl_max_step (vs : list (option string)) (acc : option string) :
  match foldl max_step acc vs with
  | None => acc = None /\ forall s, Some s ∉ vs
  | Some m =>
      (acc = Some m \/ Some m ∈ vs) /\
      (forall a, acc = Some a -> str_leb a m = true) /\
      forall s, Some s ∈ vs -> str_leb s m = true
  end.
Proof.
  revert acc. induction vs as [|v vs IH]; intros acc; simpl.
  - destruct acc as [a|].
    + split_and!; [by left| |].
      * intros ? [= <-]. apply str_leb_refl.
      * intros s Hs. by apply not_elem_of_nil in Hs.
    + split; [done|]. intros s. apply not_elem_of_nil.
  - specialize (IH (max_step acc v)).
    destruct (foldl max_step (max_step acc v) vs) as [m|].
    + destruct IH as (Hfrom & Hacc & Hall). split_and!.
      * rewrite elem_of_cons.
        destruct Hfrom as [Hfrom|Hfrom]; [|right; by right].
        unfold max_step in Hfrom. destruct v as [s|], acc as [a|];
          try destruct (str_leb s a);
          first [by left | right; left; congruence | discriminate].
      * intros a ->. unfold max_step in Hacc. destruct v as [s|]; [|by auto].
        destruct (str_leb s a) eqn:E; [by auto|].
        eapply str_leb_trans; [|by apply Hacc].
        destruct (str_leb_total a s); congruence.
      * intros s [[= <-]|Hs]%elem_of_cons; [|by auto].
        unfold max_step in Hacc. destruct acc as [a|]; [|by auto].
        destruct (str_leb s a) eqn:E; [|by auto].
        eapply str_leb_trans; [done|by apply Hacc].
    + destruct IH as (Hacc & Hall). unfold max_step in Hacc.
      destruct v as [s|], acc as [a|]; try discriminate.
      * by destruct (str_leb s a).
      * split; [done|]. intros s [[=]|Hs]%elem_of_cons. by apply (Hall s).
Qed.

Lemma sql_min_Some (vs : list (option string)) (m : string) :
  sql_min vs = Some m ->
  Some m ∈ vs /\ forall s, Some s ∈ vs -> str_leb m s = true.
Proof.
  unfold sql_min. intros E. pose proof (foldl_min_step vs None) as H.
  rewrite E in H. destruct H as ([?|?] & _ & ?); done.
Qed.

Lemma sql_max_Some (vs : list (option string)) (m : string) :
  sql_max vs = Some m ->
  Some m ∈ vs /\ forall s, Some s ∈ vs -> str_leb s m = true.
Proof.
  unfold sql_max. intros E. pose proof (foldl_max_step vs None) as H.
  rewrite E in H. destruct H as ([?|?] & _ & ?); done.
Qed.

Lemma sql_min_is_Some (vs : list (option string)) (s : string) :
  Some s ∈ vs -> is_Some (sql_min vs).
Proof.
  unfold sql_min. intros Hs. pose proof (foldl_min_step vs None) as H.
  destruct (foldl min_step None vs); [by eexists|].
  destruct H as (_ & H). by destruct (H s).
Qed.

Lemma sql_max_is_Some (vs : list (option string)) (s : string) :
  Some s ∈ vs -> is_Some (sql_max vs).
Proof.
  unfold sql_max. intros Hs. pose proof (foldl_max_step vs None) as H.
  destruct (foldl max_step None vs); [by eexists|].
  destruct H as (_ & H). by destruct (H s).
Qed.

Lemma elem_of_dated (key : raw_row -> option string) (k t : string)
    (raw : list raw_row) :
  Some t ∈ r_event_ts <$> dated_rows key k raw <->
  exists r, r ∈ raw /\ key r = Some k /\ r_event_ts r = Some t.
Proof.
  unfold dated_rows. rewrite list_elem_of_fmap. split.
  - intros (r & Ht & [[Hk _] Hr]%list_elem_of_filter). eauto.
  - intros (r & Hr & Hk & Ht). exists r. split; [done|].
    apply list_elem_of_filter. split; [|done]. split; [done|congruence].
Qed.

Lemma elem_of_keys_of (key : raw_row -> option string) (k : string)
    (raw : list raw_row) :
  k ∈ keys_of key raw <-> exists r, r ∈ raw /\ key r = Some k.
Proof. unfold keys_of. by rewrite elem_of_remove_dups, list_elem_of_omap. Qed.

Lemma transform_users_spec (w : world) :
  exists d1 d2,
    users_insert (view w) = Ok d1 /\ users_update d1 = Ok d2 /\
    transform_users w =
    ({| store := store w; txn := Some d2;
        checkpoint_file := checkpoint_file w |}, Ok tt).
Proof.
  unfold transform_users, execute, mbind, M_bind.
  eexists _, _. split; [reflexivity|]. split; reflexivity.
Qed.

Lemma sql_min_dated (key : raw_row -> option string) (k : string)
    (raw : list raw_row) :
  earliest key k raw (sql_min (r_event_ts <$> dated_rows key k raw)).
Proof.
  unfold earliest.
  destruct (sql_min _) as [f|] eqn:E.
  - apply sql_min_Some in E as [Hin Hle]. split.
    + by apply elem_of_dated.
    + intros r t Hr Hk Ht. apply Hle, elem_of_dated. eauto.
  - intros r Hr Hk. destruct (r_event_ts r) as [t|] eqn:Ht; [|done].
    destruct (sql_min_is_Some (r_event_ts <$> dated_rows key k raw) t)
      as [x Hx]; [|congruence].
    apply elem_of_dated. eauto.
Qed.

Lemma sql_max_dated (key : raw_row -> option string) (k : string)
    (raw : list raw_row) :
  latest key k raw (sql_max (r_event_ts <$> dated_rows key k raw)).
Proof.
  unfold latest.
  destruct (sql_max _) as [f|] eqn:E.
  - apply sql_max_Some in E as [Hin Hle]. split.
    + by apply elem_of_dated.
    + intros r t Hr Hk Ht. apply Hle, elem_of_dated. eauto.
  - intros r Hr Hk. destruct (r_event_ts r) as [t|] eqn:Ht; [|done].
    destruct (sql_max_is_Some (r_event_ts <$> dated_rows key k raw) t)
      as [x Hx]; [|congruence].
    apply elem_of_dated. eauto.
Qed.

Lemma transform_users_lookup (w w' : world) (r : result unit) :
  transform_users w = (w', r) ->
  r = Ok tt /\ store w' = store w /\
  checkpoint_file w' = checkpoint_file w /\
  raw_events (view w') = raw_events (view w) /\
  documents (view w') = documents (view w) /\
  events (view w') = events (view w) /\
  events_seq (view w') = events_seq (view w) /\
  forall k : string,
    users (view w') !! k =
    if decide (k ∈ keys_of r_user_id (raw_events (view w)))
    then Some (user_of_group (dated_rows r_user_id k (raw_events (view w))))
    else users (view w) !! k.
Proof.
  destruct (transform_users_spec w) as (d1 & d2 & E1 & E2 & ->).
  intros [= <- <-]. simpl_view. cbn [store checkpoint_file].
  destruct (users_pass _ _ _ E1 E2) as (? & ? & ? & ? & ?). by split_and!.
Qed.

Lemma users_seen (w w' : world) (r : result unit) (uid : string) :
  transform_users w = (w', r) ->
  uid ∈ keys_of r_user_id (raw_events (view w)) ->
  exists u : user_row,
    users (view w') !! uid = Some u /\
    earliest r_user_id uid (raw_events (view w)) (first_seen_ts u) /\
    latest r_user_id uid (raw_events (view w)) (last_seen_ts u).
Proof.
  intros (_ & _ & _ & _ & _ & _ & _ & Hu)%transform_users_lookup Hk.
  eexists. split.
  - rewrite Hu. by rewrite decide_True.
  - split; [apply sql_min_dated|apply sql_max_dated].
Qed.

(** X9: [transform_users] never raises, and when it has run, a user with at
    least one event has a row whose [first_seen_ts] is the least and whose
    [last_seen_ts] is the greatest timestamp of the user's events in
    [raw_events], whatever the row held before; both are NULL when none of
    those events has a timestamp. *)
Theorem transform_users_seen_range (w w' : world) (r : result unit)
    (r0 : raw_row) (uid : string) :
  transform_users w = (w', r) ->
  r0 ∈ raw_events (view w) -> r_user_id r0 = Some uid ->
  r = Ok tt /\
  exists u : user_row,
    users (view w') !! uid = Some u /\
    earliest r_user_id uid (raw_events (view w)) (first_seen_ts u) /\
    latest r_user_id uid (raw_events (view w)) (last_seen_ts u).
Proof.
  intros Hrun Hr0 Huid. split.
  - by apply transform_users_lookup in Hrun as (? & _).
  - eapply users_seen; [done|]. apply elem_of_keys_of. eauto.
Qed.

(** X10: [transform_users] deletes no user and adds exactly the users that
    have an event; the row of a user without events, the other tables, the
    database file and the checkpoint are as before. *)
Theorem transform_users_keeps_other_users (w w' : world) (r : result unit) :
  transform_users w = (w', r) ->
  (forall k : string,
     is_Some (users (view w') !! k) <->
     is_Some (users (view w) !! k) \/
     exists r0, r0 ∈ raw_events (view w) /\ r_user_id r0 = Some k) /\
  (forall k : string,
     (forall r0, r0 ∈ raw_events (view w) -> r_user_id r0 <> Some k) ->
     users (view w') !! k = users (view w) !! k) /\
  raw_events (view w') = raw_events (view w) /\
  documents (view w') = documents (view w) /\
  events (view w') = events (view w) /\
  store w' = store w /\ checkpoint_file w' = checkpoint_file w.
Proof.
  intros (_ & Hs & Hc & Hr & Hd & He & _ & Hu)%transform_users_lookup.
  split_and!; try done.
  - intros k. rewrite Hu, <- elem_of_keys_of.
    destruct (decide (k ∈ keys_of r_user_id (raw_events (view w)))).
    + split; [by right|by eauto].
    + split; [by left|]. by intros [?|?].
  - intros k Hk. rewrite Hu, decide_False; [done|].
    intros (r0 & Hr0 & Hk0)%elem_of_keys_of. by apply (Hk r0).
Qed.

(** X11: more events can only widen what is known of a user: when every row
    of [raw_events] of one database is a row of another, a user with an event
    in the first has, after [transform_users] on each, a [first_seen_ts] in
    the second that is not after, and a [last_seen_ts] that is not before,
    the one in the first. *)
Theorem more_events_widen_seen_range (w1 w1' w2 w2' : world)
    (r1 r2 : result unit) (r0 : raw_row) (uid : string) (u1 : user_row) :
  transform_users w1 = (w1', r1) -> transform_users w2 = (w2', r2) ->
  (forall r, r ∈ raw_events (view w1) -> r ∈ raw_events (view w2)) ->
  r0 ∈ raw_events (view w1) -> r_user_id r0 = Some uid ->
  users (view w1') !! uid = Some u1 ->
  exists u2 : user_row,
    users (view w2') !! uid = Some u2 /\
    (forall f1, first_seen_ts u1 = Some f1 ->
       exists f2, first_seen_ts u2 = Some f2 /\ str_leb f2 f1 = true) /\
    (forall l1, last_seen_ts u1 = Some l1 ->
       exists l2, last_seen_ts u2 = Some l2 /\ str_leb l1 l2 = true).
Proof.
  intros Hrun1 Hrun2 Hsub Hr0 Huid Hu1.
  destruct (users_seen _ _ _ uid Hrun1) as (u1' & Hu1' & Hlo1 & Hhi1).
  { apply elem_of_keys_of. eauto. }
  destruct (users_seen _ _ _ uid Hrun2) as (u2 & Hu2 & Hlo2 & Hhi2).
  { apply elem_of_keys_of. eauto. }
  assert (u1' = u1) as -> by congruence.
  exists u2. split; [done|]. split.
  - intros f1 Hf1. unfold earliest in Hlo1, Hlo2. rewrite Hf1 in Hlo1.
    destruct Hlo1 as [(ra & Hra & Hka & Hta) _].
    destruct (first_seen_ts u2) as [f2|].
    + exists f2. split; [done|]. destruct Hlo2 as [_ Hle]. eauto.
    + specialize (Hlo2 ra (Hsub _ Hra) Hka). congruence.
  - intros l1 Hl1. unfold latest in Hhi1, Hhi2. rewrite Hl1 in Hhi1.
    destruct Hhi1 as [(ra & Hra & Hka & Hta) _].
    destruct (last_seen_ts u2) as [l2|].
    + exists l2. split; [done|]. destruct Hhi2 as [_ Hle]. eauto.
    + specialize (Hhi2 ra (Hsub _ Hra) Hka). congruence.
Qed.

(** *** Documents that exist *)

Lemma elem_of_group (key : raw_row -> option string) (k t : string)
    (raw : list raw_row) :
  Some t ∈ r_event_ts <$> group_of key k raw <->
  exists r, r ∈ raw /\ key r = Some k /\ r_event_ts r = Some t.
Proof.
  unfold group_of. rewrite list_elem_of_fmap. split.
  - intros (r & Ht & [Hk Hr]%list_elem_of_filter). eauto.
  - intros (r & Hr & Hk & Ht). exists r. split; [done|].
    by apply list_elem_of_filter.
Qed.

Lemma sql_min_group (key : raw_row -> option string) (k : string)
    (raw : list raw_row) :
  earliest key k raw (sql_min (r_event_ts <$> group_of key k raw)).
Proof.
  unfold earliest.
  destruct (sql_min _) as [f|] eqn:E.
  - apply sql_min_Some in E as [Hin Hle]. split.
    + by apply elem_of_group.
    + intros r t Hr Hk Ht. apply Hle, elem_of_group. eauto.
  - intros r Hr Hk. destruct (r_event_ts r) as [t|] eqn:Ht; [|done].
    destruct (sql_min_is_Some (r_event_ts <$> group_of key k raw) t)
      as [x Hx]; [|congruence].
    apply elem_of_group. eauto.
Qed.

Lemma transform_documents_lookup (w w' : world) :
  transform_documents w = (w', Ok tt) ->
  store w' = store w /\ checkpoint_file w' = checkpoint_file w /\
  raw_events (view w') = raw_events (view w) /\
  users (view w') = users (view w) /\
  events (view w') = events (view w) /\
  forall k : string,
    documents (view w') !! k =
    if decide (k ∈ keys_of r_document_id (raw_events (view w)))
    then Some (refresh_document (raw_events (view w)) k
                 (default
                    (document_of_group
                       (group_of r_document_id k (raw_events (view w))))
                    (documents (view w) !! k)))
    else documents (view w) !! k.
Proof.
  intros Hrun.
  destruct (transform_documents_inv _ _ Hrun) as (d1 & E1 & E2).
  destruct (documents_pass _ _ _ E1 E2) as (? & ? & ? & _ & ?).
  revert Hrun. unfold transform_documents, execute, mbind, M_bind.
  rewrite E1. simpl_view. rewrite E2. intros [= <-].
  cbn [store checkpoint_file]. by split_and!.
Qed.

(** X12: for a document that has a row already, [transform_documents] keeps
    [title], [owner_user_id] and [created_ts] as they are, whatever the new
    events say; it leaves the row as it is when no event names the document,
    and otherwise sets [last_seen_ts] to the greatest timestamp of the
    document's events (NULL when none has one). *)
Theorem existing_document_keeps_fields (w w' : world) (k : string)
    (doc : document_row) :
  transform_documents w = (w', Ok tt) ->
  documents (view w) !! k = Some doc ->
  exists doc' : document_row,
    documents (view w') !! k = Some doc' /\
    title doc' = title doc /\ owner_user_id doc' = owner_user_id doc /\
    created_ts doc' = created_ts doc /\
    ((forall r, r ∈ raw_events (view w) -> r_document_id r <> Some k) ->
     doc' = doc) /\
    ((exists r, r ∈ raw_events (view w) /\ r_document_id r = Some k) ->
     latest r_document_id k (raw_events (view w)) (d_last_seen_ts doc')).
Proof.
  intros (_ & _ & _ & _ & _ & Hlook)%transform_documents_lookup Hdoc.
  specialize (Hlook k). rewrite Hdoc in Hlook. cbn [default] in Hlook.
  destruct (decide (k ∈ keys_of r_document_id (raw_events (view w))))
    as [Hk|Hk].
  - eexists. split; [done|]. split_and!; try done.
    + intros Hnone. apply elem_of_keys_of in Hk as (r & Hr & Hrk).
      by destruct (Hnone r Hr).
    + intros _. apply sql_max_dated.
  - exists doc. split; [done|]. split_and!; try done.
    intros Hsome%elem_of_keys_of. done.
Qed.

(** X13: the row that [transform_documents] creates for a document has as
    [created_ts] the least and as [last_seen_ts] the greatest timestamp of
    the document's events, NULL when none has one. *)
Theorem created_document_timestamps (w w' : world) (k : string) :
  transform_documents w = (w', Ok tt) ->
  k ∈ keys_of r_document_id (raw_events (view w)) ->
  documents (view w) !! k = None ->
  exists doc : document_row,
    documents (view w') !! k = Some doc /\
    earliest r_document_id k (raw_events (view w)) (created_ts doc) /\
    latest r_document_id k (raw_events (view w)) (d_last_seen_ts doc).
Proof.
  intros (_ & _ & _ & _ & _ & Hlook)%transform_documents_lookup Hk Hnew.
  specialize (Hlook k). rewrite Hnew, decide_True in Hlook by done.
  eexists. split; [done|]. split.
  - apply sql_min_group.
  - apply sql_max_dated.
Qed.

(** *** The normalisation and the foreign keys *)

Lemma forallb_false {A : Type} (f : A -> bool) (l : list A) :
  forallb f l = false -> exists x, x ∈ l /\ f x = false.
Proof.
  induction l as [|a l IH]; simpl; [discriminate|].
  destruct (f a) eqn:Ea; simpl.
  - intros (x & Hx & Hf)%IH. exists x. split; [by right|done].
  - intros _. exists a. split; [by left|done].
Qed.

Lemma fk_ok_intro {V : Type} (parent : gmap string V)
    (child : option string) :
  (forall k, child = Some k -> is_Some (parent !! k)) ->
  fk_ok parent child = true.
Proof.
  unfold fk_ok. destruct child as [k|]; [|done].
  intros H. apply bool_decide_eq_true. by apply H.
Qed.

Lemma fk_ok_Some {V : Type} (parent : gmap string V) (child : option string)
    (k : string) :
  fk_ok parent child = true -> child = Some k -> is_Some (parent !! k).
Proof. intros H ->. by apply bool_decide_eq_true in H. Qed.

Lemma events_fold_ok (d : db) (rows : list raw_row)
    (es es' : gmap string event_row) (seq seq' : Z) (ok ok' : bool) :
  (forall r, r ∈ rows ->
     fk_ok (users d) (r_user_id r) = true /\
     fk_ok (documents d) (r_document_id r) = true) ->
  foldl (events_step d) (es, seq, ok) rows = (es', seq', ok') -> ok' = ok.
Proof.
  revert es seq ok. induction rows as [|r rows IH]; intros es seq ok Hfk; simpl.
  - by intros [= <- <- <-].
  - assert (Hrest : forall r', r' ∈ rows ->
              fk_ok (users d) (r_user_id r') = true /\
              fk_ok (documents d) (r_document_id r') = true).
    { intros r' Hr'. apply Hfk. by right. }
    unfold events_step at 2.
    destruct (r_event_type r) as [ty|]; [|by apply IH].
    destruct (es !! r_event_id r); [by apply IH|].
    destruct (Hfk r ltac:(left)) as [-> ->].
    rewrite !andb_true_r. by apply IH.
Qed.

Lemma events_insert_total (d : db) :
  events_unreadable (raw_events d) = false ->
  (forall r, r ∈ raw_events d ->
     fk_ok (users d) (r_user_id r) = true /\
     fk_ok (documents d) (r_document_id r) = true) ->
  exists d', events_insert d = Ok d'.
Proof.
  intros Hread Hfk. unfold events_insert. rewrite Hread.
  destruct (foldl _ _ _) as [[es seq] ok] eqn:E.
  apply events_fold_ok in E as ->; [|done]. eauto.
Qed.

(** The statements of the normalisation, one after the other, and where they
    can fail. *)
Lemma normalize_steps (d : db) :
  exists d1 d2,
    users_insert d = Ok d1 /\ users_update d1 = Ok d2 /\
    ((documents_unreadable (raw_events d) = true /\
      documents_insert d2 = Raise OperationalError /\
      normalize d = Raise OperationalError) \/
     (documents_unreadable (raw_events d) = false /\
      documents_insert d2 = Raise IntegrityError /\
      normalize d = Raise IntegrityError /\
      exists k o, orphan_owner d k o) \/
     (documents_unreadable (raw_events d) = false /\
      (~ exists k o, orphan_owner d k o) /\
      exists d3 d4,
        documents_insert d2 = Ok d3 /\ documents_update d3 = Ok d4 /\
        raw_events d4 = raw_events d /\ events d4 = events d /\
        ((events_unreadable (raw_events d) = true /\
          events_insert d4 = Raise OperationalError /\
          normalize d = Raise OperationalError) \/
         (events_unreadable (raw_events d) = false /\
          exists d5, events_insert d4 = Ok d5 /\ normalize d = Ok d5)))).
Proof.
  destruct (users_insert d) as [d1|] eqn:E1; [|discriminate E1].
  destruct (users_update d1) as [d2|] eqn:E2; [|discriminate E2].
  exists d1, d2. split; [done|]. split; [done|].
  destruct (users_pass _ _ _ E1 E2) as (Ur & Ud & Ue & Us & Uu).
  unfold normalize. rewrite E1. cbn [mbind result_bind]. rewrite E2.
  cbn [mbind result_bind].
  destruct (documents_unreadable (raw_events d)) eqn:Hdn.
  { left. unfold documents_insert. rewrite Ur, Hdn. done. }
  right.
  destruct (documents_insert d2) as [d3|e] eqn:E3.
  - right. split; [done|].
    destruct (documents_update d3) as [d4|] eqn:E4; [|discriminate E4].
    destruct (documents_pass _ _ _ E3 E4) as (Dr & Du & De & Ds & Dd).
    split.
    { intros (k & o & Hk & Hnew & Hown & Hnu & Hnk).
      unfold documents_insert in E3. rewrite Ur, Hdn in E3.
      destruct (forallb _ _) eqn:Hall; [|discriminate].
      rewrite forallb_forall in Hall. specialize (Hall k).
      rewrite Ud, Hown in Hall.
      assert (Hfk : fk_ok (users d2) (Some o) = true).
      { apply Hall, list_elem_of_In, list_elem_of_filter. done. }
      destruct (fk_ok_Some _ _ o Hfk eq_refl) as [u Hu].
      rewrite Uu, decide_False, Hnu in Hu by done. done. }
    exists d3, d4. split; [done|]. split; [done|].
    split; [congruence|]. split; [congruence|].
    cbn [mbind result_bind]. rewrite E4. cbn [mbind result_bind].
    destruct (events_unreadable (raw_events d)) eqn:Hen.
    { left. unfold events_insert. rewrite Dr, Ur, Hen. done. }
    right. split; [done|].
    destruct (events_insert_total d4) as [d5 E5].
    { by rewrite Dr, Ur. }
    { intros r Hr. rewrite Dr, Ur in Hr.
      split; apply fk_ok_intro; intros k Hk.
      - rewrite Du, Uu, decide_True; [by eauto|].
        apply elem_of_keys_of. eauto.
      - rewrite Dd, decide_True; [by eauto|].
        rewrite Ur. apply elem_of_keys_of. eauto. }
    exists d5. by rewrite E5.
  - left. unfold documents_insert in E3. rewrite Ur, Hdn in E3.
    destruct (forallb _ _) eqn:Hall; [discriminate|].
    injection E3 as <-. split_and!; try done.
    apply forallb_false in Hall as (k & [Hnone Hk]%list_elem_of_filter & Hfk).
    rewrite Ud in Hnone.
    destruct (owner_user_id _) as [o|] eqn:Ho; [|discriminate Hfk].
    exists k, o. unfold orphan_owner. split_and!; try done.
    + apply bool_decide_eq_false in Hfk. rewrite Uu in Hfk.
      destruct (decide (o ∈ keys_of r_user_id (raw_events d)));
        [by destruct Hfk|].
      by apply eq_None_not_Some.
    + apply bool_decide_eq_false in Hfk. rewrite Uu in Hfk.
      intros Hin. rewrite decide_True in Hfk by done. by destruct Hfk.
Qed.

Lemma run_transformations_steps (w : world) :
  exists d2,
    raw_events d2 = raw_events (view w) /\
    documents d2 = documents (view w) /\ events d2 = events (view w) /\
    ((documents_unreadable (raw_events (view w)) = true /\
      run_transformations w =
        ({| store := store w; txn := Some d2;
            checkpoint_file := checkpoint_file w |},
         Raise OperationalError)) \/
     (documents_unreadable (raw_events (view w)) = false /\
      run_transformations w =
        ({| store := store w; txn := Some d2;
            checkpoint_file := checkpoint_file w |}, Raise IntegrityError) /\
      exists k o, orphan_owner (view w) k o) \/
     (documents_unreadable (raw_events (view w)) = false /\
      (~ exists k o, orphan_owner (view w) k o) /\
      ((events_unreadable (raw_events (view w)) = true /\
        exists d4,
          raw_events d4 = raw_events (view w) /\
          events d4 = events (view w) /\
          run_transformations w =
            ({| store := store w; txn := Some d4;
                checkpoint_file := checkpoint_file w |},
             Raise OperationalError)) \/
       (events_unreadable (raw_events (view w)) = false /\
        exists d5,
          normalize (view w) = Ok d5 /\
          run_transformations w =
            ({| store := store w; txn := Some d5;
                checkpoint_file := checkpoint_file w |}, Ok tt))))).
Proof.
  destruct (normalize_steps (view w)) as (d1 & d2 & E1 & E2 & Hcases).
  destruct (users_pass _ _ _ E1 E2) as (Ur & Ud & Ue & _ & _).
  exists d2. split_and!; try done.
  unfold run_transformations, transform_users, transform_documents,
    transform_events, execute, mbind, M_bind, result_bind.
  rewrite E1. simpl_view. rewrite E2. simpl_view.
  destruct Hcases
    as [(Hdn & E3 & _)
       |[(Hdn & E3 & _ & Horph)
        |(Hdn & Hno & d3 & d4 & E3 & E4 & Hr4 & He4 & Hev)]].
  - left. rewrite E3. done.
  - right. left. rewrite E3. done.
  - right. right. split; [done|]. split; [done|].
    rewrite E3. simpl_view. rewrite E4. simpl_view.
    destruct Hev as [(Hen & E5 & _)|(Hen & d5 & E5 & Hn)].
    + left. split; [done|]. exists d4. rewrite E5. done.
    + right. split; [done|]. exists d5. rewrite E5. done.
Qed.



Lemma normalize_fk (d d' : db) :
  normalize d = Ok d' -> fk_consistent d -> fk_consistent d'.
Proof.
  unfold normalize.
  intros (d1 & E1 & (d2 & E2 & (d3 & E3 & (d4 & E4 & E5)%bind_Ok)%bind_Ok)
            %bind_Ok)%bind_Ok [Hdocs Hevs].
  destruct (users_pass _ _ _ E1 E2) as (Ur & Ud & Ue & _ & Uu).
  destruct (documents_pass _ _ _ E3 E4) as (Dr & Du & De & _ & Dd).
  destruct (events_insert_inv _ _ E5) as (Er & Eu & Ed & Eold & _ & Enew).
  assert (Husers : forall k, is_Some (users d !! k) -> is_Some (users d' !! k)).
  { intros k Hk. rewrite Eu, Du, Uu. by destruct (decide _). }
  assert (Hkeys : forall r k, r ∈ raw_events d -> r_user_id r = Some k ->
                              is_Some (users d' !! k)).
  { intros r k Hr Hk. rewrite Eu, Du, Uu, decide_True; [by eauto|].
    apply elem_of_keys_of. eauto. }
  assert (Hdk : forall k, is_Some (documents d !! k) ->
                          is_Some (documents d' !! k)).
  { intros k Hk. rewrite Ed, Dd, Ur, Ud. by destruct (decide _). }
  assert (Hdkeys : forall r k, r ∈ raw_events d -> r_document_id r = Some k ->
                               is_Some (documents d' !! k)).
  { intros r k Hr Hk. rewrite Ed, Dd, Ur, decide_True; [by eauto|].
    apply elem_of_keys_of. eauto. }
  split.
  - intros k doc. rewrite Ed, Dd, Ur, Ud. intros Hdoc.
    apply fk_ok_intro. intros o Ho.
    destruct (documents d !! k) as [doc0|] eqn:Hk0.
    + apply Husers. eapply fk_ok_Some; [by eapply (Hdocs k doc0)|].
      destruct (decide _); injection Hdoc as <-; done.
    + destruct (decide (k ∈ keys_of r_document_id (raw_events d)))
        as [Hk|Hk]; [|discriminate]. injection Hdoc as <-.
      cbn [default refresh_document owner_user_id] in Ho.
      unfold documents_insert in E3.
      destruct (documents_unreadable (raw_events d2)); [discriminate|].
      destruct (forallb _ _) eqn:Hall; [|discriminate].
      rewrite forallb_forall in Hall. specialize (Hall k).
      rewrite Ur, Ud, Ho in Hall.
      rewrite Eu, Du. eapply fk_ok_Some; [|reflexivity].
      apply Hall, list_elem_of_In, list_elem_of_filter. done.
  - intros id e He.
    destruct (events d4 !! id) as [e0|] eqn:Hid.
    + assert (e = e0) as -> by (apply Eold in Hid; congruence).
      rewrite De, Ue in Hid. destruct (Hevs _ _ Hid) as [H1 H2].
      split; apply fk_ok_intro; intros k Hk.
      * apply Husers. by eapply fk_ok_Some.
      * apply Hdk. by eapply fk_ok_Some.
    + destruct (Enew _ _ He Hid) as (r & pk & ty & Hr & _ & _ & ->).
      rewrite Dr, Ur in Hr.
      split; apply fk_ok_intro; intros k Hk; simpl in Hk; eauto.
Qed.

(** X16: a normalisation that ends well keeps the foreign keys: when every
    owner of a document is a user and every event names a user and a document
    that exist (or none), the same holds afterwards, also of the rows that
    were added. *)
Theorem run_transformations_keeps_foreign_keys (w w' : world) :
  run_transformations w = (w', Ok tt) ->
  fk_consistent (view w) -> fk_consistent (view w').
Proof.
  intros (_ & _ & _ & Hn)%run_transformations_inv. by apply normalize_fk.
Qed.

(** *** The events table *)

Lemma NoDup_fmap_eq {A B : Type} (f : A -> B) (l : list A) (x y : A) :
  NoDup (f <$> l) -> x ∈ l -> y ∈ l -> f x = f y -> x = y.
Proof.
  induction l as [|a l IH]; simpl.
  - intros _ Hx. by apply not_elem_of_nil in Hx.
  - intros [Hna Hnd]%NoDup_cons [->|Hx]%elem_of_cons [->|Hy]%elem_of_cons Hf.
    + done.
    + destruct Hna. rewrite Hf. apply list_elem_of_fmap. eauto.
    + destruct Hna. rewrite <- Hf. apply list_elem_of_fmap. eauto.
    + by apply IH.
Qed.

Lemma max_pk_ge (es : gmap string event_row) (id : string) (e : event_row) :
  es !! id = Some e -> event_pk e <= max_pk es.
Proof.
  unfold max_pk. revert id e.
  apply (map_fold_weak_ind
           (fun acc (m : gmap string event_row) =>
              forall id e, m !! id = Some e -> event_pk e <= acc)).
  - intros id e. by rewrite lookup_empty.
  - intros i x m r Hnone IH id e.
    destruct (decide (id = i)) as [->|Hne].
    + rewrite lookup_insert_eq. intros [= <-]. lia.
    + rewrite lookup_insert_ne by done. intros He%IH. lia.
Qed.

Lemma events_fold_pk (d : db) (rows : list raw_row)
    (es es' : gmap string event_row) (seq seq' : Z) (ok ok' : bool) :
  foldl (events_step d) (es, seq, ok) rows = (es', seq', ok') ->
  pk_unique es ->
  pk_unique es' /\ seq <= seq' /\
  forall id e, es' !! id = Some e -> es !! id = None ->
               Z.max (max_pk es) seq < event_pk e.
Proof.
  revert es seq ok. induction rows as [|r rows IH]; intros es seq ok; simpl.
  - intros [= <- <- <-] Hu. split; [done|]. split; [lia|]. congruence.
  - unfold events_step at 2.
    destruct (r_event_type r) as [ty|]; [|by apply IH].
    destruct (es !! r_event_id r) as [e0|] eqn:Eid.
    + intros E Hu. destruct (IH _ _ _ E Hu) as (U & S & N).
      split; [done|]. split; [lia|].
      intros id e He Hn. specialize (N id e He Hn). lia.
    + intros E Hu.
      set (pk := Z.max (max_pk es) seq + 1) in *.
      assert (Hu1 : pk_unique (<[r_event_id r := event_of_raw pk ty r]> es)).
      { intros id1 id2 e1 e2 H1 H2 Hpk.
        destruct (decide (id1 = r_event_id r)) as [->|Hn1],
                 (decide (id2 = r_event_id r)) as [->|Hn2]; [done| | |].
        - rewrite lookup_insert_eq in H1. injection H1 as <-.
          rewrite lookup_insert_ne in H2 by done.
          apply max_pk_ge in H2. simpl in Hpk. lia.
        - rewrite lookup_insert_eq in H2. injection H2 as <-.
          rewrite lookup_insert_ne in H1 by done.
          apply max_pk_ge in H1. simpl in Hpk. lia.
        - rewrite lookup_insert_ne in H1, H2 by done. by eapply Hu. }
      destruct (IH _ _ _ E Hu1) as (U & S & N).
      split; [done|]. split; [lia|].
      intros id e He Hn.
      destruct (decide (id = r_event_id r)) as [->|Hne].
      * apply events_fold_inv in E as (H1 & _).
        specialize (H1 _ _ (lookup_insert_eq es (r_event_id r) _)).
        assert (e = event_of_raw pk ty r) as -> by congruence.
        simpl. lia.
      * specialize (N id e He). rewrite lookup_insert_ne in N by done.
        specialize (N Hn). lia.
Qed.

Lemma events_insert_pk (d d' : db) :
  events_insert d = Ok d' -> pk_unique (events d) ->
  pk_unique (events d') /\ events_seq d <= events_seq d' /\
  forall id e, events d' !! id = Some e -> events d !! id = None ->
               Z.max (max_pk (events d)) (events_seq d) < event_pk e.
Proof.
  unfold events_insert.
  destruct (events_unreadable (raw_events d)); [discriminate|].
  destruct (foldl _ _ _) as [[es seq] ok] eqn:E.
  destruct ok; [|discriminate]. intros [= <-] Hu. simpl.
  exact (events_fold_pk _ _ _ _ _ _ _ _ E Hu).
Qed.

Lemma events_insert_mirror (d d' : db) :
  events_insert d = Ok d' -> events_from_raw d -> events_from_raw d'.
Proof.
  intros (Er & _ & _ & Eold & _ & Enew)%events_insert_inv Hinv id e He.
  rewrite Er. destruct (events d !! id) as [e0|] eqn:Hid.
  - assert (e = e0) as -> by (apply Eold in Hid; congruence). by apply Hinv.
  - destruct (Enew _ _ He Hid) as (r & pk & ty & Hr & Hrid & Hty & ->).
    exists r, ty. by split_and!.
Qed.

(** X17: when no two rows of [raw_events] share an [event_id] and every event
    is the image of a raw row, then after [transform_events] the same holds,
    and every raw row with an event type has its event: the row of [events]
    with its [event_id], whose columns are those that the [SELECT] computes
    from that very row. *)
Theorem events_mirror_raw_events (w w' : world) :
  transform_events w = (w', Ok tt) ->
  NoDup (r_event_id <$> raw_events (view w)) ->
  events_from_raw (view w) ->
  raw_events (view w') = raw_events (view w) /\
  events_from_raw (view w') /\
  forall r ty, r ∈ raw_events (view w) -> r_event_type r = Some ty ->
    exists e, events (view w') !! r_event_id r = Some e /\
              e = event_of_raw (event_pk e) ty r.
Proof.
  intros Hrun%transform_events_inv Hnd Hinv.
  pose proof (events_insert_mirror _ _ Hrun Hinv) as Hinv'.
  destruct (events_insert_inv _ _ Hrun) as (Er & _ & _ & _ & Eall & _).
  split; [done|]. split; [done|].
  intros r ty Hr Hty. destruct (Eall r Hr) as [e He]; [congruence|].
  exists e. split; [done|].
  destruct (Hinv' _ _ He) as (r' & ty' & Hr' & Hid & Hty' & Heq).
  rewrite Er in Hr'.
  assert (r' = r) as -> by (by eapply NoDup_fmap_eq).
  congruence.
Qed.

(** X18: [transform_events] keeps the keys of [events] distinct and never
    reuses one: a row that it adds has an [event_pk] above the AUTOINCREMENT
    sequence and above the key of every row that was there, and the sequence
    does not go back. *)
Theorem transform_events_keys_fresh (w w' : world) :
  transform_events w = (w', Ok tt) ->
  pk_unique (events (view w)) ->
  pk_unique (events (view w')) /\
  events_seq (view w) <= events_seq (view w') /\
  forall id e,
    events (view w) !! id = None -> events (view w') !! id = Some e ->
    events_seq (view w) < event_pk e /\
    forall id0 e0, events (view w) !! id0 = Some e0 ->
                   event_pk e0 < event_pk e.
Proof.
  intros Hrun%transform_events_inv Hu.
  destruct (events_insert_pk _ _ Hrun Hu) as (U & S & N).
  split; [done|]. split; [done|].
  intros id e Hn He. specialize (N id e He Hn). split; [lia|].
  intros id0 e0 H0%max_pk_ge. lia.
Qed.

(** *** The run and the DAG *)

(** X19: when there is a new file, the DAG ends well exactly when [main]
    does, and then both leave the same database and the same checkpoint
    file. *)
Theorem dag_run_agrees_with_main (w w' : world) (f : path)
    (files : list path) (already : list string) :
  find_new_files w = (w, Ok (f :: files, already)) ->
  dag_run w = (w', Ok tt) <->
  exists counts, main w = (w', Ok (Some counts)).
Proof.
  intros Hfind.
  rewrite (main_new_files _ _ _ _ Hfind), (dag_run_new_files _ _ _ _ Hfind).
  destruct (ingest_raw (f :: files) _) as [w1 [[processed log]|e1]].
  - destruct (normalize (view w1)) as [d|e].
    + destruct (append_checkpoint processed (checkpoint_file w))
        as [ck [[]|e]].
      * split.
        -- intros [= <-]. by eexists.
        -- by intros [counts [= <- _]].
      * split; [discriminate|]. by intros [counts [=]].
    + split; [discriminate|]. by intros [counts [=]].
  - split; [discriminate|]. by intros [counts [=]].
Qed.

(** X20: when there is no new file, [main] returns at once and changes
    nothing, but the DAG still runs the normalisation on the database as it
    is stored: it commits the result, or fails and leaves the database as it
    was; the checkpoint file is not written. *)
Theorem dag_run_without_new_files (w : world) (already : list string) :
  find_new_files w = (w, Ok ([], already)) ->
  main w = (w, Ok None) /\
  dag_run w =
  match normalize (store w) with
  | Ok d =>
      ({| store := d; txn := None; checkpoint_file := checkpoint_file w |},
       Ok tt)
  | Raise e =>
      ({| store := store w; txn := None;
          checkpoint_file := checkpoint_file w |}, Raise e)
  end.
Proof.
  intros Hfind. split; [|by eapply dag_run_no_new_file].
  unfold main, mbind, M_bind. by rewrite Hfind.
Qed.

(** *** What every run keeps *)

Lemma appends_well_formed (P : raw_row -> Prop) (w w' : world) :
  appends P w w' ->
  (forall row, P row -> is_Some (r_event_type row)) ->
  well_formed (view w) -> well_formed (view w').
Proof.
  intros (_ & _ & _ & Hu & Hd & He & _ & Hnd & added & Hraw & Hadded) HP
         (Wn & Wt & [Wd We] & Wp & Wm).
  unfold well_formed, fk_consistent, events_from_raw.
  rewrite Hu, Hd, He. split_and!; try done.
  - by apply Hnd.
  - rewrite Hraw. apply Forall_app. split; [done|].
    eapply Forall_impl; [exact Hadded|done].
  - intros id e Hid. destruct (Wm id e Hid) as (r & ty & Hr & ?).
    exists r, ty. split; [|done]. rewrite Hraw. apply elem_of_app. by left.
Qed.

Lemma ingest_raw_well_formed (files : list path) (w w' : world)
    (r : result (list string * list report)) :
  ingest_raw files w = (w', r) ->
  well_formed (view w) -> well_formed (view w').
Proof.
  intros Hrun%ingest_raw_appends. eapply appends_well_formed; [exact Hrun|].
  intros row (f & events & ev & _ & _ & _ & _ & (ty & _ & ->) & _). eauto.
Qed.

Lemma normalize_well_formed (d d' : db) :
  normalize d = Ok d' -> well_formed d -> well_formed d'.
Proof.
  intros Hn (Wn & Wt & Wfk & Wp & Wm).
  pose proof (normalize_fk _ _ Hn Wfk) as Wfk'.
  revert Hn. unfold normalize.
  intros (d1 & E1 & (d2 & E2 & (d3 & E3 & (d4 & E4 & E5)%bind_Ok)%bind_Ok)
            %bind_Ok)%bind_Ok.
  destruct (users_pass _ _ _ E1 E2) as (Ur & Ud & Ue & Us & _).
  destruct (documents_pass _ _ _ E3 E4) as (Dr & Du & De & Ds & _).
  destruct (events_insert_inv _ _ E5) as (Er & _).
  assert (Hraw : raw_events d4 = raw_events d) by congruence.
  assert (Hev : events d4 = events d) by congruence.
  unfold well_formed. rewrite Er, Hraw. split_and!; try done.
  - apply (events_insert_pk _ _ E5). by rewrite Hev.
  - apply (events_insert_mirror _ _ E5). unfold events_from_raw.
    by rewrite Hev, Hraw.
Qed.

Lemma normalize_complete (d d' : db) :
  normalize d = Ok d' ->
  raw_events d' = raw_events d /\
  forall r, r ∈ raw_events d -> r_event_type r <> None ->
            is_Some (events d' !! r_event_id r).
Proof.
  unfold normalize.
  intros (d1 & E1 & (d2 & E2 & (d3 & E3 & (d4 & E4 & E5)%bind_Ok)%bind_Ok)
            %bind_Ok)%bind_Ok.
  destruct (users_pass _ _ _ E1 E2) as (Ur & _).
  destruct (documents_pass _ _ _ E3 E4) as (Dr & _).
  destruct (events_insert_inv _ _ E5) as (Er & _ & _ & _ & Eall & _).
  assert (Hraw : raw_events d4 = raw_events d) by congruence.
  split; [congruence|]. intros r Hr. apply Eall. by rewrite Hraw.
Qed.

Lemma events_count (d : db) :
  well_formed d ->
  (forall r, r ∈ raw_events d -> r_event_type r <> None ->
             is_Some (events d !! r_event_id r)) ->
  size (events d) = length (raw_events d).
Proof.
  intros (Wn & Wt & _ & _ & Wm) Hall.
  rewrite <- (length_fmap r_event_id), <- (size_list_to_set (C := gset string))
    by done.
  rewrite <- (size_dom (D := gset string)). f_equal. apply set_eq. intros id.
  rewrite elem_of_dom, elem_of_list_to_set, list_elem_of_fmap. split.
  - intros [e He]. destruct (Wm id e He) as (r & ty & Hr & Hid & _). eauto.
  - intros (r & -> & Hr). apply Hall; [done|].
    rewrite Forall_forall in Wt. destruct (Wt r Hr) as [ty ->]. done.
Qed.

(** X21: a database that is well formed (no two raw rows with one
    [event_id], every raw row with an event type, the foreign keys kept, the
    keys of [events] distinct, every event the image of a raw row) is well
    formed after a run of [main] and after a run of the DAG, whatever the
    outcome of the run. *)
Theorem runs_keep_database_well_formed (w : world) :
  well_formed (store w) ->
  (forall w' r, main w = (w', r) -> well_formed (store w')) /\
  (forall w' r, dag_run w = (w', r) -> well_formed (store w')).
Proof.
  intros Hwf.
  destruct (find_new_files_pure w) as (new_files & already & Hfind).
  destruct new_files as [|f files].
  - split.
    + intros w' r. unfold main, mbind, M_bind. rewrite Hfind.
      by intros [= <- _].
    + intros w' r. rewrite (dag_run_no_new_file _ _ Hfind).
      destruct (normalize (store w)) as [d|e] eqn:Hn; intros [= <- _];
        cbn [store]; [by eapply normalize_well_formed|done].
  - assert (Hin : forall w1 r1,
              ingest_raw (f :: files)
                {| store := store w; txn := Some (store w);
                   checkpoint_file := checkpoint_file w |} = (w1, r1) ->
              well_formed (view w1)).
    { intros w1 r1 E1. by apply ingest_raw_well_formed in E1. }
    split.
    + intros w' r. rewrite (main_new_files _ _ _ _ Hfind).
      destruct (ingest_raw (f :: files) _) as [w1 [[processed log]|e1]] eqn:E1.
      * specialize (Hin _ _ eq_refl).
        destruct (normalize (view w1)) as [d|e] eqn:Hn.
        -- destruct (append_checkpoint processed (checkpoint_file w))
             as [ck r0].
           intros [= <- _]. cbn [store]. by eapply normalize_well_formed.
        -- by intros [= <- _].
      * by intros [= <- _].
    + intros w' r. rewrite (dag_run_new_files _ _ _ _ Hfind).
      destruct (ingest_raw (f :: files) _) as [w1 [[processed log]|e1]] eqn:E1.
      * specialize (Hin _ _ eq_refl).
        destruct (normalize (view w1)) as [d|e] eqn:Hn.
        -- destruct (append_checkpoint processed (checkpoint_file w))
             as [ck r0].
           intros [= <- _]. cbn [store]. by eapply normalize_well_formed.
        -- by intros [= <- _].
      * by intros [= <- _].
Qed.

(** X22: the counts that [main] prints are those of the database it leaves,
    and on a well formed database the count of [events] is the count of
    [raw_events]: each raw row has exactly one event. *)
Theorem main_counts (w w' : world) (raw_cnt users_cnt docs_cnt events_cnt : nat) :
  main w = (w', Ok (Some (raw_cnt, users_cnt, docs_cnt, events_cnt))) ->
  well_formed (store w) ->
  raw_cnt = length (raw_events (store w')) /\
  users_cnt = size (users (store w')) /\
  docs_cnt = size (documents (store w')) /\
  events_cnt = size (events (store w')) /\
  events_cnt = raw_cnt.
Proof.
  intros Hmain Hwf.
  destruct (find_new_files_pure w) as (new_files & already & Hfind).
  destruct new_files as [|f files].
  { revert Hmain. unfold main, mbind, M_bind. by rewrite Hfind. }
  revert Hmain. rewrite (main_new_files _ _ _ _ Hfind).
  destruct (ingest_raw (f :: files) _) as [w1 [[processed log]|e1]] eqn:E1;
    [|discriminate].
  apply ingest_raw_well_formed in E1; [|done].
  destruct (normalize (view w1)) as [d|e] eqn:Hn; [|discriminate].
  destruct (append_checkpoint processed (checkpoint_file w))
    as [ck [[]|e0]]; [|discriminate].
  intros [= <- <- <- <- <-]. cbn [store]. split_and!; try done.
  apply events_count.
  - by eapply normalize_well_formed.
  - destruct (normalize_complete _ _ Hn) as [Hraw Hall]. by rewrite Hraw.
Qed.

(** *** The day of the week *)

Lemma weekday_name_Some (i : Z) (name : string) :
  weekday_name i = Some name -> 0 <= i <= 6.
Proof.
  destruct i as [|p|p]; [simpl; lia| |done].
  destruct p as [[[p|p|]|[p|p|]|]|[[p|p|]|[p|p|]|]|]; simpl; intros [=]; lia.
Qed.

Lemma day_index_range (d : date_time) (i : Z) :
  day_index d = Some i -> 0 <= i <= 6.
Proof.
  unfold day_index. destruct (computeJD d) as [iJD|]; [|done]. simpl.
  destruct (validJulianDay iJD); [|done]. intros [= <-].
  pose proof (Z.mod_pos_bound ((iJD + 129600000) / 86400000) 7). lia.
Qed.


End Pipeline.

(** ** Examples on concrete files *)

Abbreviation example_main follow_max dir :=
  (main example_loads example_repr example_text example_affinity example_strftime example_real_text example_affinity_real false example_nonfinite follow_max example_resolve example_read example_append dir).

Abbreviation example_dag_run follow_max dir :=
  (dag_run example_loads example_repr example_text example_affinity example_strftime example_real_text example_affinity_real false example_nonfinite follow_max example_resolve example_read example_append dir).

Abbreviation example_ingest_raw :=
  (ingest_raw example_loads example_repr example_resolve example_read).

Abbreviation example_run_transformations :=
  (run_transformations example_text example_affinity example_strftime example_real_text example_affinity_real false example_nonfinite true).

(** C1 as stated fails on the DAG: the file b.json holds a record whose
    document has an owner that is not a user. The ingestion task commits the
    row, the transformation task raises on the foreign key, and the row of the
    failed run is in [raw_events]. *)
Lemma dag_run_keeps_rows_of_failed_run :
  exists w' : world,
    example_dag_run true (Some ["/data/events/b.json"]) fresh_world
      = (w', Raise IntegrityError) /\
    raw_events (store fresh_world) = [] /\
    r_event_id <$> raw_events (store w') = ["e9"] /\
    checkpoint_file w' = None.
Proof. eexists. split; [vm_compute; reflexivity|]. by split_and!. Qed.

Lemma failed_run_is_rolled_back_witness :
  example_main true (Some ["/data/events/b.json"]) fresh_world
    = (fresh_world, Raise IntegrityError) /\
  exists (new_files : list path) (already : list string) (w1 : world)
         (r1 : result (list string * list report)),
    find_new_files example_resolve (Some ["/data/events/b.json"]) fresh_world
      = (fresh_world, Ok (new_files, already)) /\
    example_ingest_raw new_files
      {| store := store fresh_world; txn := Some (store fresh_world);
         checkpoint_file := checkpoint_file fresh_world |} = (w1, r1) /\
    match r1 with
    | Raise e1 =>
        e1 = IntegrityError /\ store fresh_world = store fresh_world /\
        checkpoint_file fresh_world = checkpoint_file fresh_world
    | Ok (processed, _) =>
        exists (w2 : world) (r2 : result unit),
          example_run_transformations w1 = (w2, r2) /\
          match r2 with
          | Raise e2 =>
              e2 = IntegrityError /\ store fresh_world = store fresh_world /\
              checkpoint_file fresh_world = checkpoint_file fresh_world
          | Ok _ =>
              store fresh_world = view w2 /\
              append_checkpoint example_append processed
                (checkpoint_file fresh_world)
                = (checkpoint_file fresh_world, Raise IntegrityError)
          end
    end.
Proof.
  split; [vm_compute; reflexivity|].
  apply (proj1 (failed_run_is_rolled_back example_loads example_repr
                  example_text example_affinity example_strftime
                  example_real_text example_affinity_real false
                  example_nonfinite true example_resolve example_read
                  example_append (Some ["/data/events/b.json"]))
               fresh_world fresh_world IntegrityError).
  vm_compute; reflexivity.
Defined.

(** The exception that is left to a run after its commit: the checkpoint
    file cannot be opened. The row of the run is in the database and the
    checkpoint file has no line for its file. *)
Lemma checkpoint_failure_after_commit :
  exists w' : world,
    main example_loads example_repr example_text example_affinity
      example_strftime example_real_text example_affinity_real false
      example_nonfinite true example_resolve example_read
      (fun _ _ => OpenFailed OSError) (Some ["/data/events/a.json"])
      fresh_world = (w', Raise OSError) /\
    r_event_id <$> raw_events (store w') = ["e1"] /\
    checkpoint_file w' = None.
Proof. eexists. split; [vm_compute; reflexivity|]. by split_and!. Qed.

Lemma run_transformations_idempotent_witness :
  example_run_transformations scenario_world
    = (fst (example_run_transformations scenario_world), Ok tt) /\
  exists w2 : world,
    example_run_transformations
      (fst (example_run_transformations scenario_world)) = (w2, Ok tt) /\
    raw_events (view w2)
      = raw_events (view (fst (example_run_transformations scenario_world))) /\
    users (view w2)
      = users (view (fst (example_run_transformations scenario_world))) /\
    documents (view w2)
      = documents (view (fst (example_run_transformations scenario_world))) /\
    events (view w2)
      = events (view (fst (example_run_transformations scenario_world))).
Proof.
  split; [vm_compute; reflexivity|].
  apply (proj1 (run_transformations_idempotent example_text example_affinity example_strftime example_real_text example_affinity_real false example_nonfinite true) scenario_world).
  - vm_compute; reflexivity.
  - reflexivity.
Defined.

Lemma ingest_raw_idempotent_witness :
  example_ingest_raw ["/data/events/a.json"] fresh_world
    = (fst (example_ingest_raw ["/data/events/a.json"] fresh_world),
       Ok (["/data/events/a.json"],
           [{| rep_file := "/data/events/a.json"; rep_events := 1;
               rep_counters := {| inserted_rows := 1; skipped_missing_id := 0;
                                  skipped_missing_type := 0 |} |}])) /\
  exists w2 : world,
    example_ingest_raw ["/data/events/a.json"]
      (fst (example_ingest_raw ["/data/events/a.json"] fresh_world))
      = (w2,
         Ok (["/data/events/a.json"],
             [{| rep_file := "/data/events/a.json"; rep_events := 1;
                 rep_counters := {| inserted_rows := 1;
                                    skipped_missing_id := 0;
                                    skipped_missing_type := 0 |} |}])) /\
    raw_events (view w2)
      = raw_events
          (view (fst (example_ingest_raw ["/data/events/a.json"] fresh_world)))
    /\
    length (raw_events (view w2))
      = length (raw_events
          (view (fst (example_ingest_raw ["/data/events/a.json"]
                        fresh_world)))).
Proof.
  split; [vm_compute; reflexivity|].
  apply (ingest_raw_idempotent example_loads example_repr example_resolve example_read ["/data/events/a.json"] fresh_world).
  - vm_compute; reflexivity.
  - reflexivity.
Defined.

(** C4 as stated fails for a path with a line boundary in it: written to
    the checkpoint, the path is read back as two lines, and the file is among
    the new files of the next discovery. *)
Lemma checkpointed_file_with_line_feed_reselected :
  checkpointed (example_resolve two_line_path)
    (save_checkpoint [example_resolve two_line_path] None) /\
  exists already : list string,
    find_new_files example_resolve (Some [two_line_path])
      {| store := empty_db; txn := None;
         checkpoint_file :=
           save_checkpoint [example_resolve two_line_path] None |}
    = ({| store := empty_db; txn := None;
          checkpoint_file :=
            save_checkpoint [example_resolve two_line_path] None |},
       Ok ([two_line_path], already)) /\
    already = ["/data/events/a"; "b.json"].
Proof.
  split.
  - apply checkpointed_now; [constructor|]. by left.
  - eexists. split; vm_compute; reflexivity.
Qed.

Lemma checkpointed_file_not_reselected_witness :
  checkpointed (example_resolve "/data/events/a.json")
    (checkpoint_file
       {| store := empty_db; txn := None;
          checkpoint_file :=
            save_checkpoint [example_resolve "/data/events/a.json"] None |}) /\
  no_linebreak (example_resolve "/data/events/a.json") = true /\
  exists (new_files : list path) (already : list string),
    find_new_files example_resolve (Some ["/data/events/a.json"; "/data/events/b.json"])
      {| store := empty_db; txn := None;
         checkpoint_file :=
           save_checkpoint [example_resolve "/data/events/a.json"] None |}
    = ({| store := empty_db; txn := None;
          checkpoint_file :=
            save_checkpoint [example_resolve "/data/events/a.json"] None |},
       Ok (new_files, already)) /\
    example_resolve "/data/events/a.json" ∈ already /\
    "/data/events/a.json" ∉ new_files.
Proof.
  assert (H : checkpointed (example_resolve "/data/events/a.json")
                (save_checkpoint [example_resolve "/data/events/a.json"] None)).
  { apply checkpointed_now; [constructor|]. by left. }
  split; [exact H|]. split; [reflexivity|].
  apply (proj2 (checkpointed_file_not_reselected example_loads example_repr example_resolve example_read (Some ["/data/events/a.json"; "/data/events/b.json"]))
           "/data/events/a.json"
           {| store := empty_db; txn := None;
              checkpoint_file :=
                save_checkpoint [example_resolve "/data/events/a.json"] None |}).
  - exact H.
  - reflexivity.
Defined.

(** C5 as stated fails: of three events on the document d1 only the second,
    which carries neither the least nor the greatest timestamp, has a title;
    whichever aggregate steers the engine, the Document row is created without
    a title. *)
Abbreviation title_lost follow_max :=
  (exists (w' : world) (r : raw_row) (doc : document_row),
     example_main follow_max (Some ["/data/events/d.json"]) fresh_world
       = (w', Ok (Some (3, 0, 1, 3)%nat)) /\
     raw_events (store w') !! 1%nat = Some r /\
     r_document_id r = Some "d1" /\
     title_of example_text example_real_text example_nonfinite (r_raw_json r) = Some "T" /\
     documents (store w') !! "d1" = Some doc /\
     title doc = None).

Lemma document_title_not_aggregated : title_lost true /\ title_lost false.
Proof.
  split; eexists _, _, _;
    (split; [vm_compute; reflexivity|]);
    (split; [vm_compute; reflexivity|]); (split; [reflexivity|]);
    (split; [reflexivity|]); (split; [vm_compute; reflexivity|]); reflexivity.
Qed.

(** The raw rows of the file g.json, with their users. *)
Abbreviation owned_world :=
  (fst (transform_users
          (fst (example_ingest_raw ["/data/events/g.json"] fresh_world)))).

Abbreviation documents_of follow_max w :=
  (fst (transform_documents example_text example_real_text false
          example_nonfinite follow_max w)).

Abbreviation created_fields follow_max w k :=
  (exists (r : raw_row) (doc : document_row),
     bare_row follow_max (group_of r_document_id k (raw_events (view w)))
       = Some r /\
     r ∈ raw_events (view w) /\ r_document_id r = Some k%string /\
     r_event_ts r =
       (if follow_max%bool then sql_max else sql_min)
         (r_event_ts <$> group_of r_document_id k (raw_events (view w))) /\
     documents (view (documents_of follow_max w)) !! k%string = Some doc /\
     title doc =
       text_affinity example_real_text
         (coalesce [json_extract example_text example_nonfinite
                      (r_raw_json r) ["document"; "title"];
                    json_extract example_text example_nonfinite
                      (r_raw_json r) ["title"]]) /\
     owner_user_id doc =
       text_affinity example_real_text
         (coalesce [json_extract example_text example_nonfinite
                      (r_raw_json r) ["document"; "owner_user_id"];
                    json_extract example_text example_nonfinite
                      (r_raw_json r) ["owner_user_id"];
                    json_extract example_text example_nonfinite
                      (r_raw_json r) ["ownerUserId"]])).

Lemma created_document_fields_witness :
  "d2" ∈ keys_of r_document_id (raw_events (view owned_world)) /\
  documents (view owned_world) !! "d2" = None /\
  (transform_documents example_text example_real_text false example_nonfinite
     true owned_world = (documents_of true owned_world, Ok tt) /\
   created_fields true owned_world "d2" /\
   documents (view (documents_of true owned_world)) !! "d2" =
     Some {| title := Some "New"; owner_user_id := Some "u1";
             created_ts := Some "2024-02-01";
             d_last_seen_ts := Some "2024-02-02" |}) /\
  (transform_documents example_text example_real_text false example_nonfinite
     false owned_world = (documents_of false owned_world, Ok tt) /\
   created_fields false owned_world "d2" /\
   documents (view (documents_of false owned_world)) !! "d2" =
     Some {| title := Some "Old"; owner_user_id := None;
             created_ts := Some "2024-02-01";
             d_last_seen_ts := Some "2024-02-02" |}).
Proof.
  assert (Hk : "d2" ∈ keys_of r_document_id (raw_events (view owned_world))).
  { vm_compute. by left. }
  split; [exact Hk|]. split; [reflexivity|]. split.
  - split; [vm_compute; reflexivity|]. split; [|vm_compute; reflexivity].
    apply (created_document_fields example_text example_real_text false
             example_nonfinite true owned_world).
    + vm_compute; reflexivity.
    + exact Hk.
    + reflexivity.
  - split; [vm_compute; reflexivity|]. split; [|vm_compute; reflexivity].
    apply (created_document_fields example_text example_real_text false
             example_nonfinite false owned_world).
    + vm_compute; reflexivity.
    + exact Hk.
    + reflexivity.
Defined.

(** C6 as stated fails: an alias that is present with an empty or a zero
    value is passed over. *)
Lemma timestamp_not_first_present :
  spec_timestamp example_repr
    [("timestamp", JStr ""); ("ts", JStr "2024-01-01T00:00:00")] = Some "" /\
  parse_timestamp_candidates example_repr
    [("timestamp", JStr ""); ("ts", JStr "2024-01-01T00:00:00")]
    = Some "2024-01-01T00:00:00" /\
  spec_timestamp example_repr [("timestamp", JNum 0)] = Some "0" /\
  parse_timestamp_candidates example_repr [("timestamp", JNum 0)] = None.
Proof. by split_and!. Qed.

Lemma ingest_event_admission_witness :
  (missing_or_blank [("event_type", JStr "view")] "event_id" /\
   ingest_event example_repr "/data/events/a.json"
     [("event_type", JStr "view")] no_counts fresh_world
   = (fresh_world,
      Ok {| inserted_rows := 0; skipped_missing_id := 1;
            skipped_missing_type := 0 |})) /\
  (to_str example_repr (get [("event_id", JStr "e1"); ("event_type", JStr " ")]
                            "event_id") = Some "e1" /\
   missing_or_blank [("event_id", JStr "e1"); ("event_type", JStr " ")]
     "event_type" /\
   ingest_event example_repr "/data/events/a.json"
     [("event_id", JStr "e1"); ("event_type", JStr " ")] no_counts fresh_world
   = (fresh_world,
      Ok {| inserted_rows := 0; skipped_missing_id := 0;
            skipped_missing_type := 1 |})) /\
  (to_str example_repr (get scenario_record "event_id") = Some "e1" /\
   to_str example_repr (get scenario_record "event_type") = Some "Comment" /\
   ingest_event example_repr "/data/events/a.json" scenario_record
     no_counts fresh_world
   = ({| store := empty_db;
         txn := Some (set_raw_events [scenario_row] empty_db);
         checkpoint_file := None |},
      Ok {| inserted_rows := 1; skipped_missing_id := 0;
            skipped_missing_type := 0 |}) /\
   {| inserted_rows := 1; skipped_missing_id := 0; skipped_missing_type := 0 |}
   = {| inserted_rows := S (inserted_rows no_counts);
        skipped_missing_id := skipped_missing_id no_counts;
        skipped_missing_type := skipped_missing_type no_counts |} /\
   exists (row : raw_row) (t : string),
     r_event_id row = "e1" /\
     r_event_type row = Some t /\ lowered "Comment" t /\
     raw_events (view {| store := empty_db;
                         txn := Some (set_raw_events [scenario_row] empty_db);
                         checkpoint_file := None |}) =
       if has_event_id "e1" (raw_events (view fresh_world))
       then raw_events (view fresh_world)
       else raw_events (view fresh_world) ++ [row]) /\
  r_event_type scenario_row = Some "comment" /\
  lowered "Comment" "comment" /\ ~ lowered "Comment" "Comment".
Proof.
  split; [|split; [|split; [|split; [|split]]]].
  - split; [by left|].
    apply (proj1 (ingest_event_admission example_repr "/data/events/a.json"
                    [("event_type", JStr "view")] no_counts fresh_world)).
    by left.
  - split; [reflexivity|]. split; [right; by exists " "|].
    apply (proj1 (proj2 (ingest_event_admission example_repr
                           "/data/events/a.json"
                           [("event_id", JStr "e1"); ("event_type", JStr " ")]
                           no_counts fresh_world)) "e1").
    + reflexivity.
    + right. by exists " ".
  - split; [reflexivity|]. split; [reflexivity|]. split; [reflexivity|].
    apply (proj2 (proj2 (ingest_event_admission example_repr
                           "/data/events/a.json" scenario_record
                           no_counts fresh_world)) "e1" "Comment");
      reflexivity.
  - reflexivity.
  - unfold lowered. simpl. repeat constructor.
  - unfold lowered. simpl. intros H. inversion H as [|? ? ? ? Hc _].
    discriminate Hc.
Defined.

Abbreviation example_transform_events :=
  (transform_events example_text example_affinity example_strftime example_real_text example_affinity_real false example_nonfinite).

Abbreviation scenario_before_events :=
  (fst (transform_documents example_text example_real_text false example_nonfinite true
          (fst (transform_users scenario_world)))).

Lemma event_day_of_week_witness :
  exists e0 e1 e2 e3 : event_row,
    (example_transform_events scenario_before_events
     = (fst (example_transform_events scenario_before_events), Ok tt) /\
     events (view scenario_before_events) !! "e1" = None /\
     events (view (fst (example_transform_events scenario_before_events)))
       !! "e1" = Some e0 /\
     e_event_ts e0
     = Some (date_text 2024 3 4 +:+ String "T" (time_text 10 0 0)) /\
     day_of_week e0 = weekday_names !! Z.to_nat (weekday_of_date 2024 3 4) /\
     weekday_of_date 2024 3 4 = 1 /\ day_of_week e0 = Some "Monday") /\
    example_transform_events calendar_world
    = (fst (example_transform_events calendar_world), Ok tt) /\
    (events (view calendar_world) !! "k1" = None /\
     events (view (fst (example_transform_events calendar_world))) !! "k1"
     = Some e1 /\
     e_event_ts e1 = Some (date_text 2024 3 3) /\
     day_of_week e1 = weekday_names !! Z.to_nat (weekday_of_date 2024 3 3) /\
     weekday_of_date 2024 3 3 = 0 /\ day_of_week e1 = Some "Sunday") /\
    (events (view calendar_world) !! "k2" = None /\
     events (view (fst (example_transform_events calendar_world))) !! "k2"
     = Some e2 /\
     e_event_ts e2 = Some "soon" /\
     digits_ahead 2 (snd (split_sign (c_text "soon"))) = false /\
     long_fraction (c_text "soon") = false /\
     numeric_or_now (c_text "soon") = false /\
     day_of_week e2 = None) /\
    (events (view calendar_world) !! "k3" = None /\
     events (view (fst (example_transform_events calendar_world))) !! "k3"
     = Some e3 /\
     e_event_ts e3 = None /\ day_of_week e3 = None).
Proof.
  pose proof (proj1 (event_day_of_week example_repr example_text
                       example_affinity example_strftime example_real_text
                       example_affinity_real false example_nonfinite true))
    as H.
  assert (Hs : example_transform_events scenario_before_events
               = (fst (example_transform_events scenario_before_events),
                  Ok tt)) by (vm_compute; reflexivity).
  assert (Hc : example_transform_events calendar_world
               = (fst (example_transform_events calendar_world), Ok tt))
    by (vm_compute; reflexivity).
  eexists _, _, _, _. split; [|split; [exact Hc|split; [|split]]].
  - split; [exact Hs|]. split; [vm_compute; reflexivity|].
    split; [vm_compute; reflexivity|]. split; [vm_compute; reflexivity|].
    split; [|split; reflexivity].
    refine (proj1 (proj2 (proj2 (H _ _ "e1" _ Hs _ _)))
              2024 3 4 10 0 0 "T"%char _ _ _ _ _ _ _ _);
      first [lia | by left | vm_compute; reflexivity].
  - split; [vm_compute; reflexivity|]. split; [vm_compute; reflexivity|].
    split; [vm_compute; reflexivity|]. split; [|split; reflexivity].
    refine (proj1 (proj2 (H _ _ "k1" _ Hc _ _)) 2024 3 3 _ _ _ _);
      first [lia | vm_compute; reflexivity].
  - split; [vm_compute; reflexivity|]. split; [vm_compute; reflexivity|].
    split; [vm_compute; reflexivity|]. split; [reflexivity|].
    split; [reflexivity|]. split; [reflexivity|].
    refine (proj1 (proj2 (proj2 (proj2 (H _ _ "k2" _ Hc _ _))))
              "soon" _ _ _ _);
      vm_compute; reflexivity.
  - split; [vm_compute; reflexivity|]. split; [vm_compute; reflexivity|].
    split; [vm_compute; reflexivity|].
    refine (proj1 (H _ _ "k3" _ Hc _ _) _); vm_compute; reflexivity.
Defined.

Lemma read_event_file_cases_witness :
  example_read "/data/events/a.json"
    = Ok (example_dumps (JObj scenario_record)) /\
  strip (example_dumps (JObj scenario_record)) <> "" /\
  example_loads (strip (example_dumps (JObj scenario_record)))
    = Ok (JObj scenario_record) /\
  read_event_file example_loads example_read "/data/events/a.json"
    = Ok [scenario_record] /\
  example_read "/data/events/e.json" = Ok "   " /\
  strip "   " = "" /\
  read_event_file example_loads example_read "/data/events/e.json" = Ok [] /\
  example_read "/data/events/c.json" = Ok "{" /\
  example_loads (strip "{") = Raise JSONDecodeError /\
  read_event_file example_loads example_read "/data/events/c.json" = Ok [].
Proof.
  pose proof (read_event_file_cases example_loads example_read
                "/data/events/a.json" (example_dumps (JObj scenario_record))
                eq_refl) as Ha.
  pose proof (read_event_file_cases example_loads example_read
                "/data/events/e.json" "   " eq_refl) as He.
  pose proof (read_event_file_cases example_loads example_read
                "/data/events/c.json" "{" eq_refl) as Hc.
  split; [reflexivity|]. split; [discriminate|]. split; [reflexivity|].
  split.
  { apply (proj1 (proj2 Ha) scenario_record); [discriminate|reflexivity]. }
  split; [reflexivity|]. split; [reflexivity|].
  split.
  { apply (proj1 He). reflexivity. }
  split; [reflexivity|]. split; [reflexivity|].
  apply (proj2 (proj2 (proj2 (proj2 Hc)))). reflexivity.
Defined.

Lemma unreadable_file_aborts_ingest_witness :
  example_read "/data/events/missing.json" = Raise OSError /\
  OSError <> JSONDecodeError /\
  read_event_file example_loads example_read "/data/events/missing.json"
    = Raise OSError /\
  exists (w' : world) (e' : exn),
    example_ingest_raw ["/data/events/a.json"; "/data/events/missing.json"]
      fresh_world = (w', Raise e') /\
    store w' = store fresh_world.
Proof.
  pose proof (unreadable_file_aborts_ingest example_loads example_repr example_resolve example_read "/data/events/missing.json"
                OSError eq_refl ltac:(discriminate)) as (H1 & H2 & _).
  split; [reflexivity|]. split; [discriminate|]. split; [exact H1|].
  apply H2. right. by left.
Defined.

(** ** The further properties on the example files *)

Abbreviation ingested_scenario :=
  (fst (example_ingest_raw ["/data/events/a.json"] fresh_world)).

Abbreviation ingested_orphan :=
  (fst (example_ingest_raw ["/data/events/b.json"] fresh_world)).

Abbreviation scenario_report :=
  ({| rep_file := "/data/events/a.json"; rep_events := 1;
      rep_counters := {| inserted_rows := 1; skipped_missing_id := 0;
                         skipped_missing_type := 0 |} |}).

Abbreviation example_transform_documents :=
  (transform_documents example_text example_real_text false example_nonfinite true).

Abbreviation example_well_formed :=
  (well_formed example_text example_affinity example_strftime example_real_text example_affinity_real example_nonfinite).

Abbreviation example_events_from_raw :=
  (events_from_raw example_text example_affinity example_strftime example_real_text example_affinity_real example_nonfinite).

(** A later event of the user of the scenario. *)
Abbreviation later_row :=
  ({| r_event_id := "e2"; r_event_type := Some "view";
      r_event_ts := Some "2024-03-05T08:00:00"; r_user_id := Some "u1";
      r_document_id := None; r_source_file := Some "/data/events/f.json";
      r_raw_json := JObj [] |}).

Abbreviation later_world :=
  ({| store := set_raw_events [scenario_row; later_row] empty_db; txn := None;
      checkpoint_file := None |}).

Lemma to_str_trimmed_witness :
  to_str example_repr (JStr " e1 ") = Some "e1" /\
  "e1" <> "" /\ trimmed "e1" /\ to_str example_repr (JStr "e1") = Some "e1".
Proof.
  split; [vm_compute; reflexivity|].
  apply (proj2 (to_str_trimmed example_repr (JStr " e1 "))).
  vm_compute; reflexivity.
Defined.

Lemma ingest_raw_append_only_witness :
  example_ingest_raw ["/data/events/a.json"] fresh_world
    = (ingested_scenario, Ok (["/data/events/a.json"], [scenario_report])) /\
  raw_events (view fresh_world) `prefix_of` raw_events (view ingested_scenario) /\
  users (view ingested_scenario) = users (view fresh_world) /\
  documents (view ingested_scenario) = documents (view fresh_world) /\
  events (view ingested_scenario) = events (view fresh_world) /\
  store ingested_scenario = store fresh_world /\
  checkpoint_file ingested_scenario = checkpoint_file fresh_world.
Proof.
  split; [vm_compute; reflexivity|].
  apply (ingest_raw_append_only example_loads example_repr example_resolve example_read ["/data/events/a.json"] fresh_world ingested_scenario
           (Ok (["/data/events/a.json"], [scenario_report]))).
  vm_compute; reflexivity.
Defined.

Lemma ingest_raw_keeps_event_id_unique_witness :
  example_ingest_raw ["/data/events/a.json"] fresh_world
    = (ingested_scenario, Ok (["/data/events/a.json"], [scenario_report])) /\
  NoDup (r_event_id <$> raw_events (view fresh_world)) /\
  NoDup (r_event_id <$> raw_events (view ingested_scenario)).
Proof.
  split; [vm_compute; reflexivity|].
  split; [constructor|].
  apply (ingest_raw_keeps_event_id_unique example_loads example_repr example_resolve example_read ["/data/events/a.json"] fresh_world
           ingested_scenario
           (Ok (["/data/events/a.json"], [scenario_report]))).
  - vm_compute; reflexivity.
  - constructor.
Defined.

Lemma ingest_raw_rows_well_formed_witness :
  example_ingest_raw ["/data/events/a.json"] fresh_world
    = (ingested_scenario, Ok (["/data/events/a.json"], [scenario_report])) /\
  (exists added : list raw_row,
     raw_events (view ingested_scenario)
       = raw_events (view fresh_world) ++ added /\
     Forall
       (fun row =>
          exists (f : path) (events : list record) (ev : record)
                 (ty t : string),
            f ∈ ["/data/events/a.json"] /\
            read_event_file example_loads example_read f = Ok events /\
            ev ∈ events /\
            r_source_file row = Some (example_resolve f) /\
            r_raw_json row = JObj ev /\
            r_event_ts row = parse_timestamp_candidates example_repr ev /\
            to_str example_repr (get ev "event_id") = Some (r_event_id row) /\
            r_event_id row <> "" /\ trimmed (r_event_id row) /\
            to_str example_repr (get ev "event_type") = Some ty /\
            r_event_type row = Some t /\ lowered ty t /\ t <> "")
       added) /\
  raw_events (view ingested_scenario) = [scenario_row] /\
  to_str example_repr (get scenario_record "event_type") = Some "Comment" /\
  r_event_type scenario_row = Some "comment".
Proof.
  split; [vm_compute; reflexivity|]. split; [|by split_and!].
  apply (ingest_raw_rows_well_formed example_loads example_repr
           example_resolve example_read ["/data/events/a.json"] fresh_world
           ingested_scenario
           (Ok (["/data/events/a.json"], [scenario_report]))).
  vm_compute; reflexivity.
Defined.

Lemma ingest_raw_reports_count_witness :
  example_ingest_raw ["/data/events/a.json"] fresh_world
    = (ingested_scenario, Ok (["/data/events/a.json"], [scenario_report])) /\
  rep_file <$> [scenario_report] = ["/data/events/a.json"] /\
  Forall
    (fun rep =>
       counted (rep_counters rep) = rep_events rep /\
       exists events,
         read_event_file example_loads example_read (rep_file rep)
           = Ok events /\
         rep_events rep = length events)
    [scenario_report].
Proof.
  split; [vm_compute; reflexivity|].
  apply (ingest_raw_reports_count example_loads example_repr example_resolve example_read ["/data/events/a.json"] fresh_world ingested_scenario
           ["/data/events/a.json"] [scenario_report]).
  vm_compute; reflexivity.
Defined.

Lemma file_without_records_is_passed_over_witness :
  read_event_file example_loads example_read "/data/events/e.json" = Ok [] /\
  example_ingest_raw (["/data/events/a.json"] ++ "/data/events/e.json" :: [])
    fresh_world
    = (ingested_scenario,
       Ok (["/data/events/a.json"; "/data/events/e.json"],
           [scenario_report;
            {| rep_file := "/data/events/e.json"; rep_events := 0;
               rep_counters := no_counts |}])) /\
  exists r2,
    example_ingest_raw (["/data/events/a.json"] ++ []) fresh_world
      = (ingested_scenario, r2) /\
    (forall e : exn,
       Ok (["/data/events/a.json"; "/data/events/e.json"],
           [scenario_report;
            {| rep_file := "/data/events/e.json"; rep_events := 0;
               rep_counters := no_counts |}]) = Raise e <-> r2 = Raise e) /\
    (forall processed log,
       Ok (["/data/events/a.json"; "/data/events/e.json"],
           [scenario_report;
            {| rep_file := "/data/events/e.json"; rep_events := 0;
               rep_counters := no_counts |}]) = Ok (processed, log) ->
       example_resolve "/data/events/e.json" ∈ processed).
Proof.
  split; [vm_compute; reflexivity|].
  split; [vm_compute; reflexivity|].
  apply (file_without_records_is_passed_over example_loads example_repr example_resolve example_read "/data/events/e.json"
           ["/data/events/a.json"] [] fresh_world ingested_scenario).
  - vm_compute; reflexivity.
  - vm_compute; reflexivity.
Defined.

Lemma checkpoint_round_trip_witness :
  written (save_checkpoint ["/data/events/a.json"] None) /\
  Forall (fun q => no_linebreak q = true) ["/data/events/b.json"] /\
  load_checkpoint (save_checkpoint ["/data/events/a.json"] None)
    `prefix_of`
    load_checkpoint
      (save_checkpoint ["/data/events/b.json"]
         (save_checkpoint ["/data/events/a.json"] None)) /\
  load_checkpoint
    (save_checkpoint ["/data/events/b.json"]
       (save_checkpoint ["/data/events/a.json"] None))
  = load_checkpoint (save_checkpoint ["/data/events/a.json"] None)
    ++ ["/data/events/b.json"].
Proof.
  assert (Hw : written (save_checkpoint ["/data/events/a.json"] None))
    by (constructor; constructor).
  assert (Hl : Forall (fun q => no_linebreak q = true) ["/data/events/b.json"])
    by (repeat constructor).
  split; [exact Hw|]. split; [exact Hl|].
  destruct (checkpoint_round_trip ["/data/events/b.json"]
              (save_checkpoint ["/data/events/a.json"] None) Hw) as [H1 H2].
  split; [exact H1|exact (H2 Hl)].
Defined.

Lemma second_run_has_nothing_to_ingest_witness :
  example_main true (Some ["/data/events/a.json"]) fresh_world
    = (fst (example_main true (Some ["/data/events/a.json"]) fresh_world),
       Ok (Some (1, 1, 1, 1)%nat)) /\
  written (checkpoint_file fresh_world) /\
  find_new_files example_resolve (Some ["/data/events/a.json"])
    (fst (example_main true (Some ["/data/events/a.json"]) fresh_world))
  = (fst (example_main true (Some ["/data/events/a.json"]) fresh_world),
     Ok ([], load_checkpoint
               (checkpoint_file
                  (fst (example_main true (Some ["/data/events/a.json"])
                          fresh_world))))) /\
  example_main true (Some ["/data/events/a.json"])
    (fst (example_main true (Some ["/data/events/a.json"]) fresh_world))
  = (fst (example_main true (Some ["/data/events/a.json"]) fresh_world),
     Ok None).
Proof.
  split; [vm_compute; reflexivity|].
  split; [constructor|].
  apply (second_run_has_nothing_to_ingest example_loads example_repr example_text example_affinity example_strftime example_real_text example_affinity_real false example_nonfinite true example_resolve example_read example_append (Some ["/data/events/a.json"])
           fresh_world _ (1, 1, 1, 1)%nat).
  - vm_compute; reflexivity.
  - constructor.
  - intros p [->|Hp]%elem_of_cons; [reflexivity|].
    by apply not_elem_of_nil in Hp.
Defined.

Lemma transform_users_seen_range_witness :
  transform_users scenario_world
    = (fst (transform_users scenario_world), Ok tt) /\
  scenario_row ∈ raw_events (view scenario_world) /\
  r_user_id scenario_row = Some "u1" /\
  Ok tt = Ok tt /\
  exists u : user_row,
    users (view (fst (transform_users scenario_world))) !! "u1" = Some u /\
    earliest r_user_id "u1" (raw_events (view scenario_world))
      (first_seen_ts u) /\
    latest r_user_id "u1" (raw_events (view scenario_world))
      (last_seen_ts u).
Proof.
  split; [vm_compute; reflexivity|].
  split; [by left|]. split; [reflexivity|].
  apply (transform_users_seen_range scenario_world _ (Ok tt) scenario_row "u1").
  - vm_compute; reflexivity.
  - by left.
  - reflexivity.
Defined.

Lemma transform_users_keeps_other_users_witness :
  transform_users later_world = (fst (transform_users later_world), Ok tt) /\
  (forall k : string,
     is_Some (users (view (fst (transform_users later_world))) !! k) <->
     is_Some (users (view later_world) !! k) \/
     exists r0, r0 ∈ raw_events (view later_world) /\ r_user_id r0 = Some k) /\
  (forall k : string,
     (forall r0, r0 ∈ raw_events (view later_world) ->
                 r_user_id r0 <> Some k) ->
     users (view (fst (transform_users later_world))) !! k
       = users (view later_world) !! k) /\
  raw_events (view (fst (transform_users later_world)))
    = raw_events (view later_world) /\
  documents (view (fst (transform_users later_world)))
    = documents (view later_world) /\
  events (view (fst (transform_users later_world)))
    = events (view later_world) /\
  store (fst (transform_users later_world)) = store later_world /\
  checkpoint_file (fst (transform_users later_world))
    = checkpoint_file later_world.
Proof.
  split; [vm_compute; reflexivity|].
  apply (transform_users_keeps_other_users later_world _ (Ok tt)).
  vm_compute; reflexivity.
Defined.

Lemma more_events_widen_seen_range_witness :
  transform_users scenario_world
    = (fst (transform_users scenario_world), Ok tt) /\
  transform_users later_world = (fst (transform_users later_world), Ok tt) /\
  (forall r, r ∈ raw_events (view scenario_world) ->
             r ∈ raw_events (view later_world)) /\
  scenario_row ∈ raw_events (view scenario_world) /\
  r_user_id scenario_row = Some "u1" /\
  users (view (fst (transform_users scenario_world))) !! "u1"
    = Some {| first_seen_ts := Some "2024-03-04T10:00:00";
              last_seen_ts := Some "2024-03-04T10:00:00" |} /\
  exists u2 : user_row,
    users (view (fst (transform_users later_world))) !! "u1" = Some u2 /\
    (forall f1, Some "2024-03-04T10:00:00" = Some f1 ->
       exists f2, first_seen_ts u2 = Some f2 /\ str_leb f2 f1 = true) /\
    (forall l1, Some "2024-03-04T10:00:00" = Some l1 ->
       exists l2, last_seen_ts u2 = Some l2 /\ str_leb l1 l2 = true).
Proof.
  assert (Hsub : forall r, r ∈ raw_events (view scenario_world) ->
                           r ∈ raw_events (view later_world)).
  { intros r Hr. apply elem_of_cons in Hr as [->|Hr]; [by left|].
    by apply not_elem_of_nil in Hr. }
  split; [vm_compute; reflexivity|]. split; [vm_compute; reflexivity|].
  split; [exact Hsub|]. split; [by left|]. split; [reflexivity|].
  split; [vm_compute; reflexivity|].
  apply (more_events_widen_seen_range
           scenario_world (fst (transform_users scenario_world))
           later_world (fst (transform_users later_world))
           (Ok tt) (Ok tt) scenario_row "u1"
           {| first_seen_ts := Some "2024-03-04T10:00:00";
              last_seen_ts := Some "2024-03-04T10:00:00" |}).
  - vm_compute; reflexivity.
  - vm_compute; reflexivity.
  - exact Hsub.
  - by left.
  - reflexivity.
  - vm_compute; reflexivity.
Defined.

Abbreviation normalised_scenario :=
  (fst (example_run_transformations scenario_world)).

Abbreviation scenario_document :=
  ({| title := None; owner_user_id := None;
      created_ts := Some "2024-03-04T10:00:00";
      d_last_seen_ts := Some "2024-03-04T10:00:00" |}).

Lemma existing_document_keeps_fields_witness :
  example_transform_documents normalised_scenario
    = (fst (example_transform_documents normalised_scenario), Ok tt) /\
  documents (view normalised_scenario) !! "d1" = Some scenario_document /\
  exists doc' : document_row,
    documents (view (fst (example_transform_documents normalised_scenario)))
      !! "d1" = Some doc' /\
    title doc' = title scenario_document /\
    owner_user_id doc' = owner_user_id scenario_document /\
    created_ts doc' = created_ts scenario_document /\
    ((forall r, r ∈ raw_events (view normalised_scenario) ->
                r_document_id r <> Some "d1") ->
     doc' = scenario_document) /\
    ((exists r, r ∈ raw_events (view normalised_scenario) /\
                r_document_id r = Some "d1") ->
     latest r_document_id "d1" (raw_events (view normalised_scenario))
       (d_last_seen_ts doc')).
Proof.
  split; [vm_compute; reflexivity|]. split; [vm_compute; reflexivity|].
  apply (existing_document_keeps_fields example_text example_real_text false example_nonfinite true
           normalised_scenario).
  - vm_compute; reflexivity.
  - vm_compute; reflexivity.
Defined.

Lemma created_document_timestamps_witness :
  example_transform_documents scenario_world
    = (fst (example_transform_documents scenario_world), Ok tt) /\
  "d1" ∈ keys_of r_document_id (raw_events (view scenario_world)) /\
  documents (view scenario_world) !! "d1" = None /\
  exists doc : document_row,
    documents (view (fst (example_transform_documents scenario_world)))
      !! "d1" = Some doc /\
    earliest r_document_id "d1" (raw_events (view scenario_world))
      (created_ts doc) /\
    latest r_document_id "d1" (raw_events (view scenario_world))
      (d_last_seen_ts doc).
Proof.
  assert (Hk : "d1" ∈ keys_of r_document_id (raw_events (view scenario_world)))
    by (vm_compute; left).
  split; [vm_compute; reflexivity|]. split; [exact Hk|].
  split; [vm_compute; reflexivity|].
  apply (created_document_timestamps example_text example_real_text false example_nonfinite true scenario_world).
  - vm_compute; reflexivity.
  - exact Hk.
  - vm_compute; reflexivity.
Defined.

Abbreviation ingested_nan :=
  (fst (example_ingest_raw ["/data/events/n.json"] fresh_world)).

Abbreviation transformations_outcome w r :=
  (((r : result unit) = Ok tt \/ r = Raise IntegrityError \/
    r = Raise OperationalError) /\
   (r = Raise OperationalError <->
    documents_unreadable false true (raw_events (view w)) = true \/
    (~ (exists k o,
          orphan_owner example_text example_real_text example_nonfinite true
            (view w) k o)) /\
    events_unreadable false (raw_events (view w)) = true) /\
   (r = Raise IntegrityError <->
    documents_unreadable false true (raw_events (view w)) = false /\
    exists k o,
      orphan_owner example_text example_real_text example_nonfinite true
        (view w) k o)).


Abbreviation transformations_kept w w' r :=
  (raw_events (view w') = raw_events (view w) /\
   store w' = store w /\ checkpoint_file w' = checkpoint_file w /\
   ((r : result unit) <> Ok tt -> events (view w') = events (view w)) /\
   (r = Raise IntegrityError \/
    documents_unreadable false true (raw_events (view w)) = true ->
    documents (view w') = documents (view w))).


Lemma run_transformations_keeps_foreign_keys_witness :
  example_run_transformations scenario_world = (normalised_scenario, Ok tt) /\
  fk_consistent (view scenario_world) /\
  fk_consistent (view normalised_scenario).
Proof.
  assert (Hfk : fk_consistent (view scenario_world)).
  { split; intros k x Hx.
    - change (documents (view scenario_world))
        with (∅ : gmap string document_row) in Hx.
      by rewrite lookup_empty in Hx.
    - change (events (view scenario_world))
        with (∅ : gmap string event_row) in Hx.
      by rewrite lookup_empty in Hx. }
  split; [vm_compute; reflexivity|]. split; [exact Hfk|].
  apply (run_transformations_keeps_foreign_keys example_text example_affinity example_strftime example_real_text example_affinity_real false example_nonfinite true scenario_world).
  - vm_compute; reflexivity.
  - exact Hfk.
Defined.

Lemma events_mirror_raw_events_witness :
  example_transform_events scenario_before_events
    = (fst (example_transform_events scenario_before_events), Ok tt) /\
  NoDup (r_event_id <$> raw_events (view scenario_before_events)) /\
  example_events_from_raw (view scenario_before_events) /\
  raw_events (view (fst (example_transform_events scenario_before_events)))
    = raw_events (view scenario_before_events) /\
  example_events_from_raw
    (view (fst (example_transform_events scenario_before_events))) /\
  forall r ty,
    r ∈ raw_events (view scenario_before_events) ->
    r_event_type r = Some ty ->
    exists e,
      events (view (fst (example_transform_events scenario_before_events)))
        !! r_event_id r = Some e /\
      e = event_of_raw example_text example_affinity example_strftime example_real_text example_affinity_real example_nonfinite
            (event_pk e) ty r.
Proof.
  assert (Hnd : NoDup (r_event_id <$>
                         raw_events (view scenario_before_events))).
  { vm_compute. apply NoDup_singleton. }
  assert (Hm : example_events_from_raw (view scenario_before_events)).
  { intros id e He. vm_compute in He. discriminate He. }
  split; [vm_compute; reflexivity|]. split; [exact Hnd|]. split; [exact Hm|].
  apply (events_mirror_raw_events example_text example_affinity example_strftime example_real_text example_affinity_real false example_nonfinite scenario_before_events).
  - vm_compute; reflexivity.
  - exact Hnd.
  - exact Hm.
Defined.

Lemma transform_events_keys_fresh_witness :
  example_transform_events scenario_before_events
    = (fst (example_transform_events scenario_before_events), Ok tt) /\
  pk_unique (events (view scenario_before_events)) /\
  pk_unique
    (events (view (fst (example_transform_events scenario_before_events)))) /\
  events_seq (view scenario_before_events)
    <= events_seq
         (view (fst (example_transform_events scenario_before_events))) /\
  forall id e,
    events (view scenario_before_events) !! id = None ->
    events (view (fst (example_transform_events scenario_before_events)))
      !! id = Some e ->
    events_seq (view scenario_before_events) < event_pk e /\
    forall id0 e0,
      events (view scenario_before_events) !! id0 = Some e0 ->
      event_pk e0 < event_pk e.
Proof.
  assert (Hu : pk_unique (events (view scenario_before_events))).
  { intros id1 id2 e1 e2 H1. vm_compute in H1. discriminate H1. }
  split; [vm_compute; reflexivity|]. split; [exact Hu|].
  apply (transform_events_keys_fresh example_text example_affinity example_strftime example_real_text example_affinity_real false example_nonfinite scenario_before_events).
  - vm_compute; reflexivity.
  - exact Hu.
Defined.

Lemma dag_run_agrees_with_main_witness :
  find_new_files example_resolve (Some ["/data/events/a.json"]) fresh_world
    = (fresh_world, Ok (["/data/events/a.json"], [])) /\
  (example_dag_run true (Some ["/data/events/a.json"]) fresh_world
     = (fst (example_main true (Some ["/data/events/a.json"]) fresh_world),
        Ok tt) <->
   exists counts,
     example_main true (Some ["/data/events/a.json"]) fresh_world
     = (fst (example_main true (Some ["/data/events/a.json"]) fresh_world),
        Ok (Some counts))).
Proof.
  split; [vm_compute; reflexivity|].
  apply (dag_run_agrees_with_main example_loads example_repr example_text example_affinity example_strftime example_real_text example_affinity_real false example_nonfinite true example_resolve example_read example_append (Some ["/data/events/a.json"]) fresh_world _
           "/data/events/a.json" [] []).
  vm_compute; reflexivity.
Defined.

Lemma dag_run_without_new_files_witness :
  find_new_files example_resolve None scenario_world
    = (scenario_world, Ok ([], [])) /\
  example_main true None scenario_world = (scenario_world, Ok None) /\
  example_dag_run true None scenario_world =
  match normalize example_text example_affinity example_strftime example_real_text example_affinity_real false example_nonfinite true
          (store scenario_world) with
  | Ok d =>
      ({| store := d; txn := None;
          checkpoint_file := checkpoint_file scenario_world |}, Ok tt)
  | Raise e =>
      ({| store := store scenario_world; txn := None;
          checkpoint_file := checkpoint_file scenario_world |}, Raise e)
  end.
Proof.
  split; [vm_compute; reflexivity|].
  apply (dag_run_without_new_files example_loads example_repr example_text example_affinity example_strftime example_real_text example_affinity_real false example_nonfinite true example_resolve example_read example_append None scenario_world []).
  vm_compute; reflexivity.
Defined.

Lemma runs_keep_database_well_formed_witness :
  example_well_formed (store fresh_world) /\
  (forall w' r,
     example_main true (Some ["/data/events/a.json"]) fresh_world = (w', r) ->
     example_well_formed (store w')) /\
  (forall w' r,
     example_dag_run true (Some ["/data/events/a.json"]) fresh_world
       = (w', r) ->
     example_well_formed (store w')).
Proof.
  assert (Hwf : example_well_formed (store fresh_world)).
  { split; [constructor|]. split; [constructor|]. split; [split|split].
    - intros k x Hx. vm_compute in Hx. discriminate Hx.
    - intros k x Hx. vm_compute in Hx. discriminate Hx.
    - intros id1 id2 e1 e2 H1. vm_compute in H1. discriminate H1.
    - intros id e He. vm_compute in He. discriminate He. }
  split; [exact Hwf|].
  apply (runs_keep_database_well_formed example_loads example_repr example_text example_affinity example_strftime example_real_text example_affinity_real false example_nonfinite true example_resolve example_read example_append (Some ["/data/events/a.json"])
           fresh_world Hwf).
Defined.

Lemma main_counts_witness :
  example_main true (Some ["/data/events/d.json"]) fresh_world
    = (fst (example_main true (Some ["/data/events/d.json"]) fresh_world),
       Ok (Some (3, 0, 1, 3)%nat)) /\
  example_well_formed (store fresh_world) /\
  3%nat = length (raw_events (store (fst (example_main true
                    (Some ["/data/events/d.json"]) fresh_world)))) /\
  0%nat = size (users (store (fst (example_main true
                  (Some ["/data/events/d.json"]) fresh_world)))) /\
  1%nat = size (documents (store (fst (example_main true
                  (Some ["/data/events/d.json"]) fresh_world)))) /\
  3%nat = size (events (store (fst (example_main true
                  (Some ["/data/events/d.json"]) fresh_world)))) /\
  3%nat = 3%nat.
Proof.
  assert (Hwf : example_well_formed (store fresh_world)).
  { split; [constructor|]. split; [constructor|]. split; [split|split].
    - intros k x Hx. vm_compute in Hx. discriminate Hx.
    - intros k x Hx. vm_compute in Hx. discriminate Hx.
    - intros id1 id2 e1 e2 H1. vm_compute in H1. discriminate H1.
    - intros id e He. vm_compute in He. discriminate He. }
  split; [vm_compute; reflexivity|]. split; [exact Hwf|].
  apply (main_counts example_loads example_repr example_text example_affinity example_strftime example_real_text example_affinity_real false example_nonfinite true example_resolve example_read example_append (Some ["/data/events/d.json"]) fresh_world).
  - vm_compute; reflexivity.
  - exact Hwf.
Defined.

